(** * 2d-fluid-sim: a shallow embedding of the WebGL fluid solver

    The repository drives a grid-based incompressible-flow solver from
    JavaScript: every solver stage is a fragment shader drawn over a
    full-screen quad into a floating-point texture.  This development
    embeds

    - the GLSL fragment shaders as functions from interpolated varyings
      to [vec4] values,
    - [texture2D] sampling with [CLAMP_TO_EDGE] wrapping and the
      [NEAREST] / [LINEAR] filters,
    - the framebuffer objects as a store of textures addressed by
      object identity, so that the ping-pong buffers alias exactly as
      the JavaScript objects do,
    - the JavaScript driver ([splat], [step], [update], [setConfig],
      ...) as state transformers over that store.

    Numbers.  JavaScript numbers and GLSL [highp float]s are modelled
    as exact rationals ([Qc]); rounding error is not modelled.  The two
    transcendental GLSL built-ins used by the shaders ([exp] and the
    square root inside [length]) are parameters of the development.
    The program computes in doubles and stores into half-float or
    float textures, so a value it computes can differ from the exact
    one in the last place, and a rounded integer by one at a tie.
    The properties that are about the size of a value (a bound, a
    decay factor, the rounded side of a grid) are therefore stated
    with a margin that this rounding cannot use up; the others are
    stated over the exact arithmetic.

    Allocation.  [createFBO] is taken to succeed, and a size is read as
    a natural number; the properties about allocation are stated for
    resolutions that give every grid at least one cell per side. *)

From Stdlib Require Import ZArith QArith Qcanon Qround Qabs Lia Lqa List.
From stdpp Require Import gmap numbers list.
Import ListNotations.

Local Open Scope Qc_scope.

(** ** Numbers *)

Definition Qc_of_nat (n : nat) : Qc := Qc_of_Z (Z.of_nat n).

(** Decimal literals of the sources. *)
Definition dec (n : Z) (d : positive) : Qc := Q2Qc (n # d).

Definition Qcabs (x : Qc) : Qc := if Qclt_le_dec x 0 then - x else x.

(** [Math.min] *)
Definition Qcmin (x y : Qc) : Qc := if Qclt_le_dec y x then y else x.

(** [Math.floor] and [Math.round] (ties go up). *)
Definition Qcfloor (x : Qc) : Z := Qfloor x.
Definition Qcround (x : Qc) : Z := Qcfloor (x + dec 1 2).

(** The trip count of [for (let i = 0; i < n; i++)]: the least natural
    number [k] for which [k < n] fails. *)
Definition trips (n : Qc) : nat := Z.to_nat (Qceiling n).

Definition clampZ (lo hi x : Z) : Z := Z.max lo (Z.min x hi).

(** ** GLSL vectors *)

Record vec2 := Vec2 { x2 : Qc; y2 : Qc }.
Record vec3 := Vec3 { x3 : Qc; y3 : Qc; z3 : Qc }.
Record vec4 := Vec4 { vx : Qc; vy : Qc; vz : Qc; vw : Qc }.

Definition vec4_zero : vec4 := Vec4 0 0 0 0.

Definition vec4_add (a b : vec4) : vec4 :=
  Vec4 (vx a + vx b) (vy a + vy b) (vz a + vz b) (vw a + vw b).
Definition vec4_scale (k : Qc) (a : vec4) : vec4 :=
  Vec4 (k * vx a) (k * vy a) (k * vz a) (k * vw a).

Definition vec2_add (a b : vec2) : vec2 := Vec2 (x2 a + x2 b) (y2 a + y2 b).
Definition vec2_sub (a b : vec2) : vec2 := Vec2 (x2 a - x2 b) (y2 a - y2 b).
Definition dot2 (a b : vec2) : Qc := x2 a * x2 b + y2 a * y2 b.

Global Instance vec2_eq_dec : EqDecision vec2.
Proof. solve_decision. Defined.
Global Instance vec3_eq_dec : EqDecision vec3.
Proof. solve_decision. Defined.
Global Instance vec4_eq_dec : EqDecision vec4.
Proof. solve_decision. Defined.

(** ** Textures and sampling *)

Inductive filter := NEAREST | LINEAR.

Global Instance filter_eq_dec : EqDecision filter.
Proof. solve_decision. Defined.

(** The object returned by [createFBO]: a texture of [width] x [height]
    RGBA texels (every format of [ext] is [gl.RGBA]) with its
    min/mag filter.  [data] is row-major: [data !! j !! i] is the texel
    of column [i] in row [j]. *)
Record FBO := MkFBO {
  width : nat;
  height : nat;
  param : filter;
  data : list (list vec4)
}.

Global Instance FBO_eq_dec : EqDecision FBO.
Proof. solve_decision. Defined.

(** Texel fetch with [CLAMP_TO_EDGE]: indices outside the texture are
    clamped to the nearest edge texel. *)
Definition texel (t : FBO) (i j : Z) : vec4 :=
  nth (Z.to_nat (clampZ 0 (Z.of_nat (width t) - 1) i))
      (nth (Z.to_nat (clampZ 0 (Z.of_nat (height t) - 1) j)) (data t) [])
      vec4_zero.

Definition bilinear (a b : Qc) (t00 t10 t01 t11 : vec4) : vec4 :=
  vec4_add
    (vec4_add (vec4_scale ((1 - a) * (1 - b)) t00) (vec4_scale (a * (1 - b)) t10))
    (vec4_add (vec4_scale ((1 - a) * b) t01) (vec4_scale (a * b) t11)).

(** [texture2D(sampler, uv)] for normalized coordinates. *)
Definition texture2D (t : FBO) (uv : vec2) : vec4 :=
  let u := x2 uv * Qc_of_nat (width t) in
  let v := y2 uv * Qc_of_nat (height t) in
  match param t with
  | NEAREST => texel t (Qcfloor u) (Qcfloor v)
  | LINEAR =>
      let u' := u - dec 1 2 in
      let v' := v - dec 1 2 in
      let i0 := Qcfloor u' in
      let j0 := Qcfloor v' in
      let a := u' - Qc_of_Z i0 in
      let b := v' - Qc_of_Z j0 in
      bilinear a b (texel t i0 j0) (texel t (i0 + 1) j0)
                   (texel t i0 (j0 + 1)) (texel t (i0 + 1) (j0 + 1))
  end.

(** ** Rasterisation of the full-screen quad *)

(** Varyings written by [baseVertexShader]. *)
Record varyings := MkVaryings {
  vUv : vec2; vL : vec2; vR : vec2; vT : vec2; vB : vec2
}.

(** [baseVertexShader], as a function of the interpolated
    [aPosition * 0.5 + 0.5]. *)
Definition baseVertexShader (texelSize : vec2) (uv : vec2) : varyings :=
  {| vUv := uv;
     vL := vec2_sub uv (Vec2 (x2 texelSize) 0);
     vR := vec2_add uv (Vec2 (x2 texelSize) 0);
     vT := vec2_add uv (Vec2 0 (y2 texelSize));
     vB := vec2_sub uv (Vec2 0 (y2 texelSize)) |}.

(** Centre of pixel [(i, j)] of a [w] x [h] viewport, in [0,1]^2. *)
Definition center (w h : nat) (i j : nat) : vec2 :=
  Vec2 ((Qc_of_nat i + dec 1 2) / Qc_of_nat w)
       ((Qc_of_nat j + dec 1 2) / Qc_of_nat h).

(** One draw of the quad over a [w] x [h] viewport: the fragment shader
    runs once per pixel, at the pixel centre. *)
Definition raster (w h : nat) (texelSize : vec2) (frag : varyings -> vec4)
  : list (list vec4) :=
  map (fun j => map (fun i => frag (baseVertexShader texelSize (center w h i j)))
                    (seq 0 w))
      (seq 0 h).

(** ** GLSL built-ins that are not rational *)

(** [exp] (used by the splat shader) and the square root behind
    [length] (used by the vorticity shader). *)
Class Builtins := MkBuiltins {
  gl_exp : Qc -> Qc;
  gl_sqrt : Qc -> Qc
}.

(** A rational stand-in used to run the model on concrete inputs:
    a Pade-style quotient for [exp] on the non-positive arguments the
    splat shader produces, and four Newton steps for the square root. *)
Definition approx_exp (x : Qc) : Qc := 1 / (1 - x + x * x / (1 + 1)).

Fixpoint newton (n : nat) (a y : Qc) : Qc :=
  match n with
  | O => y
  | S n' => newton n' a ((y + a / y) / (1 + 1))
  end.

Definition approx_sqrt (a : Qc) : Qc :=
  if decide (a = 0) then 0 else newton 4 a 1.

Definition approx_builtins : Builtins :=
  {| gl_exp := approx_exp; gl_sqrt := approx_sqrt |}.

(** ** The WebGL object store *)

(** Framebuffer objects are compared by identity in JavaScript; an
    object is named here by the order of its allocation. *)
Abbreviation ref := nat (only parsing).

(** One [gl.drawArrays] call, described by the program in use, the
    values of its uniforms (sampler uniforms name the FBO whose texture
    is bound to the sampler's unit) and the bound framebuffer. *)
Inductive DrawCall :=
| DrawSplat (target uTarget : ref) (aspectRatio : Qc) (color : vec3)
            (point : vec2) (radius : Qc)
| DrawCurl (target uVelocity : ref) (texelSize : vec2)
| DrawVorticity (target uVelocity uCurl : ref) (texelSize : vec2) (curl dt : Qc)
| DrawAdvection (target uVelocity uSource : ref) (texelSize : vec2)
                (dt dissipation : Qc)
| DrawDivergence (target uVelocity : ref) (texelSize : vec2)
| DrawPressure (target uPressure uDivergence : ref) (texelSize : vec2)
| DrawGradientSubtract (target uPressure uVelocity : ref) (texelSize : vec2)
| DrawDisplay (uTexture : ref).

Global Instance DrawCall_eq_dec : EqDecision DrawCall.
Proof. solve_decision. Defined.

(** The solver stage a draw call belongs to. *)
Inductive Stage :=
| SSplat | SCurl | SVorticity | SAdvection | SDivergence | SPressure
| SGradientSubtract | SDisplay.

Global Instance Stage_eq_dec : EqDecision Stage.
Proof. solve_decision. Defined.

Definition stage_of (d : DrawCall) : Stage :=
  match d with
  | DrawSplat _ _ _ _ _ _ => SSplat
  | DrawCurl _ _ _ => SCurl
  | DrawVorticity _ _ _ _ _ _ => SVorticity
  | DrawAdvection _ _ _ _ _ _ => SAdvection
  | DrawDivergence _ _ _ => SDivergence
  | DrawPressure _ _ _ _ => SPressure
  | DrawGradientSubtract _ _ _ _ => SGradientSubtract
  | DrawDisplay _ => SDisplay
  end.

(** The value of the [dt] uniform seen by a draw call, for the programs
    that declare one. *)
Definition dt_of (d : DrawCall) : option Qc :=
  match d with
  | DrawVorticity _ _ _ _ _ dt => Some dt
  | DrawAdvection _ _ _ _ dt _ => Some dt
  | _ => None
  end.

(** The framebuffer a draw call renders into ([None]: the canvas). *)
Definition target_of (d : DrawCall) : option ref :=
  match d with
  | DrawSplat t _ _ _ _ _ => Some t
  | DrawCurl t _ _ => Some t
  | DrawVorticity t _ _ _ _ _ => Some t
  | DrawAdvection t _ _ _ _ _ => Some t
  | DrawDivergence t _ _ => Some t
  | DrawPressure t _ _ _ => Some t
  | DrawGradientSubtract t _ _ _ => Some t
  | DrawDisplay _ => None
  end.

Record GL := MkGL {
  objects : gmap nat FBO;   (* live FBOs, by identity *)
  nextId : nat;             (* identity of the next allocated object *)
  BLEND : bool;             (* gl.enable / gl.disable (gl.BLEND) *)
  draws : list DrawCall     (* the draw calls issued so far, oldest first *)
}.

Definition empty_FBO : FBO := MkFBO 0 0 NEAREST [].

(** The texture behind an object reference. *)
Definition tex (g : GL) (r : ref) : FBO := default empty_FBO (objects g !! r).

(** ** The simulation (createFluidSimulation) *)

Module Fluid.

Record Color := MkColor { r : Qc; g : Qc; b : Qc }.

(** The [config] object. *)
Record Config := MkConfig {
  SIM_RESOLUTION : Qc;
  DYE_RESOLUTION : Qc;
  DENSITY_DISSIPATION : Qc;
  VELOCITY_DISSIPATION : Qc;
  PRESSURE : Qc;
  PRESSURE_ITERATIONS : Qc;
  CURL : Qc;
  SPLAT_RADIUS : Qc;
  SPLAT_FORCE : Qc;
  SHADING : bool;
  COLORFUL : bool;
  PAUSED : bool;
  BACK_COLOR : Color;
  TRANSPARENT : bool;
  FALLBACK_RESOLUTION : Qc
}.

(** The argument of [setConfig]: an object holding any subset of the
    configuration keys. *)
Record PartialConfig := MkPartialConfig {
  pSIM_RESOLUTION : option Qc;
  pDYE_RESOLUTION : option Qc;
  pDENSITY_DISSIPATION : option Qc;
  pVELOCITY_DISSIPATION : option Qc;
  pPRESSURE : option Qc;
  pPRESSURE_ITERATIONS : option Qc;
  pCURL : option Qc;
  pSPLAT_RADIUS : option Qc;
  pSPLAT_FORCE : option Qc;
  pSHADING : option bool;
  pCOLORFUL : option bool;
  pPAUSED : option bool;
  pBACK_COLOR : option Color;
  pTRANSPARENT : option bool;
  pFALLBACK_RESOLUTION : option Qc
}.

Definition no_keys : PartialConfig :=
  MkPartialConfig None None None None None None None None None None None None
                  None None None.

(** The literal the simulation starts from. *)
Definition initial_config : Config :=
  {| SIM_RESOLUTION := Qc_of_Z 128;
     DYE_RESOLUTION := Qc_of_Z 1024;
     DENSITY_DISSIPATION := Qc_of_Z 3;
     VELOCITY_DISSIPATION := dec 45 100;
     PRESSURE := dec 8 10;
     PRESSURE_ITERATIONS := Qc_of_Z 20;
     CURL := Qc_of_Z 9;
     SPLAT_RADIUS := dec 12 100;
     SPLAT_FORCE := Qc_of_Z 6000;
     SHADING := false;
     COLORFUL := false;
     PAUSED := false;
     BACK_COLOR := MkColor 0 0 0;
     TRANSPARENT := false;
     FALLBACK_RESOLUTION := Qc_of_Z 512 |}.

(** [Object.assign(config, newConfig)]: every key present in
    [newConfig] overwrites the key of [config]. *)
Definition assign (config : Config) (newConfig : PartialConfig) : Config :=
  {| SIM_RESOLUTION := default (SIM_RESOLUTION config) (pSIM_RESOLUTION newConfig);
     DYE_RESOLUTION := default (DYE_RESOLUTION config) (pDYE_RESOLUTION newConfig);
     DENSITY_DISSIPATION :=
       default (DENSITY_DISSIPATION config) (pDENSITY_DISSIPATION newConfig);
     VELOCITY_DISSIPATION :=
       default (VELOCITY_DISSIPATION config) (pVELOCITY_DISSIPATION newConfig);
     PRESSURE := default (PRESSURE config) (pPRESSURE newConfig);
     PRESSURE_ITERATIONS :=
       default (PRESSURE_ITERATIONS config) (pPRESSURE_ITERATIONS newConfig);
     CURL := default (CURL config) (pCURL newConfig);
     SPLAT_RADIUS := default (SPLAT_RADIUS config) (pSPLAT_RADIUS newConfig);
     SPLAT_FORCE := default (SPLAT_FORCE config) (pSPLAT_FORCE newConfig);
     SHADING := default (SHADING config) (pSHADING newConfig);
     COLORFUL := default (COLORFUL config) (pCOLORFUL newConfig);
     PAUSED := default (PAUSED config) (pPAUSED newConfig);
     BACK_COLOR := default (BACK_COLOR config) (pBACK_COLOR newConfig);
     TRANSPARENT := default (TRANSPARENT config) (pTRANSPARENT newConfig);
     FALLBACK_RESOLUTION :=
       default (FALLBACK_RESOLUTION config) (pFALLBACK_RESOLUTION newConfig) |}.

(** The canvas, as far as the simulation reads it. *)
Record Canvas := MkCanvas { canvas_width : Z; canvas_height : Z }.

Definition aspect (canvas : Canvas) : Qc :=
  Qc_of_Z (canvas_width canvas) / Qc_of_Z (canvas_height canvas).

(** The two capabilities of [getWebGLExtensions] the driver branches
    on. *)
Record Ext := MkExt {
  supportLinearFiltering : bool;
  extColorBufferHalfFloat : bool
}.

Record Resolution := MkResolution { res_width : Z; res_height : Z }.

Definition getResolution (canvas : Canvas) (resolution : Qc) : Resolution :=
  let aspectRatio := aspect canvas in
  if Qclt_le_dec aspectRatio 1 then
    {| res_width := Qcround resolution;
       res_height := Qcround (resolution / aspectRatio) |}
  else
    {| res_width := Qcround (resolution * aspectRatio);
       res_height := Qcround resolution |}.

(** *** Framebuffers *)

(** [createFBO]: a fresh object whose texture is cleared to zero. *)
Definition createFBO (gl : GL) (w h : Z) (param : filter) : ref * GL :=
  let fbo := MkFBO (Z.to_nat w) (Z.to_nat h) param
                   (replicate (Z.to_nat h) (replicate (Z.to_nat w) vec4_zero)) in
  (nextId gl,
   {| objects := <[nextId gl := fbo]> (objects gl);
      nextId := S (nextId gl);
      BLEND := BLEND gl;
      draws := draws gl |}).

(** The object returned by [createDoubleFBO]: the two captured
    variables [fbo1] and [fbo2]. *)
Record DoubleFBO := MkDoubleFBO { fbo1 : ref; fbo2 : ref }.

Definition read (d : DoubleFBO) : ref := fbo1 d.
Definition write (d : DoubleFBO) : ref := fbo2 d.
Definition swap (d : DoubleFBO) : DoubleFBO :=
  let temp := fbo1 d in
  {| fbo1 := fbo2 d; fbo2 := temp |}.

Definition createDoubleFBO (gl : GL) (w h : Z) (param : filter)
  : DoubleFBO * GL :=
  let '(fbo1, gl) := createFBO gl w h param in
  let '(fbo2, gl) := createFBO gl w h param in
  ({| fbo1 := fbo1; fbo2 := fbo2 |}, gl).

(** *** Fragment shaders *)

Section Shaders.
Context `{Builtins}.

Definition displayShader (uTexture : FBO) (v : varyings) : vec4 :=
  let color := texture2D uTexture (vUv v) in
  Vec4 (vx color) (vy color) (vz color) 1.

Definition splatShader (uTarget : FBO) (aspectRatio : Qc) (color : vec3)
    (point : vec2) (radius : Qc) (v : varyings) : vec4 :=
  let p := vec2_sub (vUv v) point in
  let p := Vec2 (x2 p * aspectRatio) (y2 p) in
  let k := gl_exp (- dot2 p p / radius) in
  let splat := Vec3 (k * x3 color) (k * y3 color) (k * z3 color) in
  let base := texture2D uTarget (vUv v) in
  Vec4 (vx base + x3 splat) (vy base + y3 splat) (vz base + z3 splat) 1.

Definition advectionShader (uVelocity uSource : FBO) (texelSize : vec2)
    (dt dissipation : Qc) (v : varyings) : vec4 :=
  let vel := texture2D uVelocity (vUv v) in
  let coord := Vec2 (x2 (vUv v) - dt * vx vel * x2 texelSize)
                    (y2 (vUv v) - dt * vy vel * y2 texelSize) in
  vec4_scale dissipation (texture2D uSource coord).

Definition divergenceShader (uVelocity : FBO) (v : varyings) : vec4 :=
  let L := vx (texture2D uVelocity (vL v)) in
  let R := vx (texture2D uVelocity (vR v)) in
  let T := vy (texture2D uVelocity (vT v)) in
  let B := vy (texture2D uVelocity (vB v)) in
  let div := dec 1 2 * (R - L + T - B) in
  Vec4 div 0 0 1.

Definition curlShader (uVelocity : FBO) (v : varyings) : vec4 :=
  let L := vy (texture2D uVelocity (vL v)) in
  let R := vy (texture2D uVelocity (vR v)) in
  let T := vx (texture2D uVelocity (vT v)) in
  let B := vx (texture2D uVelocity (vB v)) in
  let curl := R - L - T + B in
  Vec4 (dec 1 2 * curl) 0 0 1.

Definition vorticityShader (uVelocity uCurl : FBO) (curl dt : Qc)
    (v : varyings) : vec4 :=
  let L := vx (texture2D uCurl (vL v)) in
  let R := vx (texture2D uCurl (vR v)) in
  let T := vx (texture2D uCurl (vT v)) in
  let B := vx (texture2D uCurl (vB v)) in
  let C := vx (texture2D uCurl (vUv v)) in
  let force := Vec2 (dec 1 2 * (Qcabs T - Qcabs B))
                    (dec 1 2 * (Qcabs R - Qcabs L)) in
  let len := gl_sqrt (dot2 force force) + dec 1 10000 in
  let force := Vec2 (x2 force / len) (y2 force / len) in
  let force := Vec2 (x2 force * (curl * C)) (y2 force * (curl * C)) in
  let force := Vec2 (x2 force) (y2 force * - (1)) in
  let velocity := texture2D uVelocity (vUv v) in
  Vec4 (vx velocity + x2 force * dt) (vy velocity + y2 force * dt) 0 1.

Definition pressureShader (uPressure uDivergence : FBO) (v : varyings) : vec4 :=
  let L := vx (texture2D uPressure (vL v)) in
  let R := vx (texture2D uPressure (vR v)) in
  let T := vx (texture2D uPressure (vT v)) in
  let B := vx (texture2D uPressure (vB v)) in
  let divergence := vx (texture2D uDivergence (vUv v)) in
  let pressure := (L + R + B + T - divergence) * dec 1 4 in
  Vec4 pressure 0 0 1.

Definition gradientSubtractShader (uPressure uVelocity : FBO) (v : varyings)
  : vec4 :=
  let L := vx (texture2D uPressure (vL v)) in
  let R := vx (texture2D uPressure (vR v)) in
  let T := vx (texture2D uPressure (vT v)) in
  let B := vx (texture2D uPressure (vB v)) in
  let velocity := texture2D uVelocity (vUv v) in
  Vec4 (vx velocity - (R - L)) (vy velocity - (T - B)) 0 1.

(** The fragment shader of the program a draw call uses, closed over
    its uniforms and over the textures its samplers are bound to. *)
Definition fragment (gl : GL) (d : DrawCall) : varyings -> vec4 :=
  match d with
  | DrawSplat _ uTarget aspectRatio color point radius =>
      splatShader (tex gl uTarget) aspectRatio color point radius
  | DrawCurl _ uVelocity _ => curlShader (tex gl uVelocity)
  | DrawVorticity _ uVelocity uCurl _ curl dt =>
      vorticityShader (tex gl uVelocity) (tex gl uCurl) curl dt
  | DrawAdvection _ uVelocity uSource texelSize dt dissipation =>
      advectionShader (tex gl uVelocity) (tex gl uSource) texelSize dt dissipation
  | DrawDivergence _ uVelocity _ => divergenceShader (tex gl uVelocity)
  | DrawPressure _ uPressure uDivergence _ =>
      pressureShader (tex gl uPressure) (tex gl uDivergence)
  | DrawGradientSubtract _ uPressure uVelocity _ =>
      gradientSubtractShader (tex gl uPressure) (tex gl uVelocity)
  | DrawDisplay uTexture => displayShader (tex gl uTexture)
  end.

(** The [texelSize] uniform of the vertex shader; the splat and display
    programs never set it. *)
Definition texelSize_of (d : DrawCall) : vec2 :=
  match d with
  | DrawCurl _ _ ts => ts
  | DrawVorticity _ _ _ ts _ _ => ts
  | DrawAdvection _ _ _ ts _ _ => ts
  | DrawDivergence _ _ ts => ts
  | DrawPressure _ _ _ ts => ts
  | DrawGradientSubtract _ _ _ ts => ts
  | DrawSplat _ _ _ _ _ _ => Vec2 0 0
  | DrawDisplay _ => Vec2 0 0
  end.

(** Blending with [blendFunc(ONE, ONE_MINUS_SRC_ALPHA)], the only blend
    function the driver sets. *)
Definition blend_px (src dst : vec4) : vec4 :=
  vec4_add src (vec4_scale (1 - vw src) dst).

Definition blend (src dst : list (list vec4)) : list (list vec4) :=
  zip_with (zip_with blend_px) src dst.

(** [blit(target)] with the program and uniforms of [d] in use: the
    viewport is set to the target's size and the quad is drawn into its
    texture.  The samplers read the store as it was before the draw. *)
Definition blit (d : DrawCall) (gl : GL) : GL :=
  let objects' :=
    match target_of d with
    | Some t =>
        match objects gl !! t with
        | Some target =>
            let src := raster (width target) (height target)
                              (texelSize_of d) (fragment gl d) in
            let out := if BLEND gl then blend src (data target) else src in
            <[t := MkFBO (width target) (height target) (param target) out]>
              (objects gl)
        | None => objects gl
        end
    | None => objects gl
    end in
  {| objects := objects';
     nextId := nextId gl;
     BLEND := BLEND gl;
     draws := draws gl ++ [d] |}.

Definition set_BLEND (flag : bool) (gl : GL) : GL :=
  {| objects := objects gl; nextId := nextId gl; BLEND := flag;
     draws := draws gl |}.

End Shaders.

(** *** Driver state *)

(** The [pointer] object. *)
Record Pointer := MkPointer {
  x : Qc; y : Qc; dx : Qc; dy : Qc;
  down : bool; moved : bool;
  color : Color
}.

(** The variables captured by the closures of [createFluidSimulation]. *)
Record Sim := MkSim {
  canvas : Canvas;
  ext : Ext;
  config : Config;
  gl : GL;
  simRes : Resolution;
  dyeRes : Resolution;
  density : DoubleFBO;
  velocity : DoubleFBO;
  divergence : ref;
  curl : ref;
  pressure : DoubleFBO;
  pointer : Pointer;
  lastTime : Qc
}.

Definition set_gl (s : Sim) (gl' : GL) : Sim :=
  MkSim (canvas s) (ext s) (config s) gl' (simRes s) (dyeRes s) (density s)
        (velocity s) (divergence s) (curl s) (pressure s) (pointer s)
        (lastTime s).
Definition set_config (s : Sim) (c : Config) : Sim :=
  MkSim (canvas s) (ext s) c (gl s) (simRes s) (dyeRes s) (density s)
        (velocity s) (divergence s) (curl s) (pressure s) (pointer s)
        (lastTime s).
Definition set_density (s : Sim) (d : DoubleFBO) : Sim :=
  MkSim (canvas s) (ext s) (config s) (gl s) (simRes s) (dyeRes s) d
        (velocity s) (divergence s) (curl s) (pressure s) (pointer s)
        (lastTime s).
Definition set_velocity (s : Sim) (d : DoubleFBO) : Sim :=
  MkSim (canvas s) (ext s) (config s) (gl s) (simRes s) (dyeRes s) (density s)
        d (divergence s) (curl s) (pressure s) (pointer s) (lastTime s).
Definition set_pressure (s : Sim) (d : DoubleFBO) : Sim :=
  MkSim (canvas s) (ext s) (config s) (gl s) (simRes s) (dyeRes s) (density s)
        (velocity s) (divergence s) (curl s) d (pointer s) (lastTime s).
Definition set_pointer (s : Sim) (p : Pointer) : Sim :=
  MkSim (canvas s) (ext s) (config s) (gl s) (simRes s) (dyeRes s) (density s)
        (velocity s) (divergence s) (curl s) (pressure s) p (lastTime s).
Definition set_lastTime (s : Sim) (t : Qc) : Sim :=
  MkSim (canvas s) (ext s) (config s) (gl s) (simRes s) (dyeRes s) (density s)
        (velocity s) (divergence s) (curl s) (pressure s) (pointer s) t.

Section Driver.
Context `{Builtins}.

(** A [blit] issued by the driver. *)
Definition draw (s : Sim) (d : DrawCall) : Sim := set_gl s (blit d (gl s)).

(** [1.0 / simRes.width, 1.0 / simRes.height] *)
Definition simTexel (s : Sim) : vec2 :=
  Vec2 (1 / Qc_of_Z (res_width (simRes s)))
       (1 / Qc_of_Z (res_height (simRes s))).

Definition splat (x y dx dy : Qc) (color : Color) (s : Sim) : Sim :=
  let aspectRatio := aspect (canvas s) in
  let radius := SPLAT_RADIUS (config s) / Qc_of_Z 100 in
  let s := draw s (DrawSplat (write (velocity s)) (read (velocity s))
                             aspectRatio (Vec3 dx dy 0) (Vec2 x y) radius) in
  let s := set_velocity s (swap (velocity s)) in
  let s := draw s (DrawSplat (write (density s)) (read (density s))
                             aspectRatio (Vec3 (r color) (g color) (b color))
                             (Vec2 x y) radius) in
  set_density s (swap (density s)).

Definition applyInputs (s : Sim) : Sim :=
  let p := pointer s in
  if moved p && down p then
    let s := set_pointer s (MkPointer (x p) (y p) (dx p) (dy p) (down p) false
                                      (color p)) in
    let velocity := Qc_of_Z 10 * dx p in
    let force := Qc_of_Z 10 * dy p in
    splat (x p / Qc_of_Z (canvas_width (canvas s)))
          (1 - y p / Qc_of_Z (canvas_height (canvas s)))
          velocity (- force) (color p) s
  else s.

(** The stages of [step], in the order of the source. *)

(** "Calculate curl and vorticity" *)
Definition curlStage (s : Sim) : Sim :=
  draw s (DrawCurl (curl s) (read (velocity s)) (simTexel s)).

(** "Apply vorticity force" *)
Definition vorticityStage (dt : Qc) (s : Sim) : Sim :=
  let s := draw s (DrawVorticity (write (velocity s)) (read (velocity s))
                                 (curl s) (simTexel s) (CURL (config s)) dt) in
  set_velocity s (swap (velocity s)).

(** "Advect velocity" *)
Definition advectVelocity (dt : Qc) (s : Sim) : Sim :=
  let s := draw s (DrawAdvection (write (velocity s)) (read (velocity s))
                                 (read (velocity s)) (simTexel s) dt
                                 (VELOCITY_DISSIPATION (config s))) in
  set_velocity s (swap (velocity s)).

(** "Advect density": the program, its [texelSize] and its [dt] are
    those of the velocity advection. *)
Definition advectDensity (dt : Qc) (s : Sim) : Sim :=
  let s := draw s (DrawAdvection (write (density s)) (read (velocity s))
                                 (read (density s)) (simTexel s) dt
                                 (DENSITY_DISSIPATION (config s))) in
  set_density s (swap (density s)).

(** "Calculate divergence" *)
Definition divergenceStage (s : Sim) : Sim :=
  draw s (DrawDivergence (divergence s) (read (velocity s)) (simTexel s)).

(** One trip of the loop "Solve pressure iteratively". *)
Definition pressureIteration (s : Sim) : Sim :=
  let s := draw s (DrawPressure (write (pressure s)) (read (pressure s))
                                (divergence s) (simTexel s)) in
  set_pressure s (swap (pressure s)).

(** [for (let i = 0; i < config.PRESSURE_ITERATIONS; i++)] *)
Definition pressureSolve (s : Sim) : Sim :=
  Nat.iter (trips (PRESSURE_ITERATIONS (config s))) pressureIteration s.

(** "Subtract pressure gradient" *)
Definition gradientSubtractStage (s : Sim) : Sim :=
  let s := draw s (DrawGradientSubtract (write (velocity s))
                                        (read (pressure s))
                                        (read (velocity s)) (simTexel s)) in
  set_velocity s (swap (velocity s)).

Definition step (dt : Qc) (s : Sim) : Sim :=
  let s := set_gl s (set_BLEND false (gl s)) in
  let s := curlStage s in
  let s := vorticityStage dt s in
  let s := advectVelocity dt s in
  let s := advectDensity dt s in
  let s := divergenceStage s in
  let s := pressureSolve s in
  gradientSubtractStage s.

Definition render (s : Sim) : Sim :=
  let s := set_gl s (set_BLEND true (gl s)) in
  draw s (DrawDisplay (read (density s))).

(** [x || 0] on numbers. *)
Definition or_zero (x : Qc) : Qc := if decide (x = 0) then 0 else x.

(** One animation frame; the closing [requestAnimationFrame(update)]
    schedules the next call. *)
Definition update (time : Qc) (s : Sim) : Sim :=
  let dt := or_zero ((time - lastTime s) / Qc_of_Z 1000) in
  let s := set_lastTime s time in
  let s := applyInputs s in
  let s := step (Qcmin dt (dec 16 1000)) s in
  render s.

(** [resizeCanvas]: the canvas takes its new size and every field is
    allocated anew. *)
Definition resizeCanvas (newCanvas : Canvas) (s : Sim) : Sim :=
  let simRes := getResolution newCanvas (SIM_RESOLUTION (config s)) in
  let dyeRes := getResolution newCanvas (DYE_RESOLUTION (config s)) in
  let filterType := if supportLinearFiltering (ext s) then LINEAR else NEAREST in
  let '(density, gl) :=
    createDoubleFBO (gl s) (res_width dyeRes) (res_height dyeRes) filterType in
  let '(velocity, gl) :=
    createDoubleFBO gl (res_width simRes) (res_height simRes) filterType in
  let '(divergence, gl) :=
    createFBO gl (res_width simRes) (res_height simRes) NEAREST in
  let '(curl, gl) :=
    createFBO gl (res_width simRes) (res_height simRes) NEAREST in
  let '(pressure, gl) :=
    createDoubleFBO gl (res_width simRes) (res_height simRes) NEAREST in
  MkSim newCanvas (ext s) (config s) gl simRes dyeRes density velocity
        divergence curl pressure (pointer s) (lastTime s).

(** The configuration after the two capability fallbacks. *)
Definition adjust_config (ext : Ext) (config : Config) : Config :=
  let config :=
    if supportLinearFiltering ext then config
    else assign config
           {| pSIM_RESOLUTION :=
                Some (Qcmin (SIM_RESOLUTION config) (FALLBACK_RESOLUTION config));
              pDYE_RESOLUTION := Some (FALLBACK_RESOLUTION config);
              pDENSITY_DISSIPATION := None; pVELOCITY_DISSIPATION := None;
              pPRESSURE := None; pPRESSURE_ITERATIONS := None; pCURL := None;
              pSPLAT_RADIUS := None; pSPLAT_FORCE := None;
              pSHADING := Some false; pCOLORFUL := None; pPAUSED := None;
              pBACK_COLOR := None; pTRANSPARENT := None;
              pFALLBACK_RESOLUTION := None |} in
  if extColorBufferHalfFloat ext then config
  else
    let half := Qc_of_Z (Qcfloor (FALLBACK_RESOLUTION config / Qc_of_Z 2)) in
    assign config
      {| pSIM_RESOLUTION := Some (Qcmin (SIM_RESOLUTION config) half);
         pDYE_RESOLUTION := Some half;
         pDENSITY_DISSIPATION := None; pVELOCITY_DISSIPATION := None;
         pPRESSURE := None;
         pPRESSURE_ITERATIONS :=
           Some (Qcmin (PRESSURE_ITERATIONS config) (Qc_of_Z 15));
         pCURL := Some (Qcmin (CURL config) (Qc_of_Z 20));
         pSPLAT_RADIUS := None; pSPLAT_FORCE := None;
         pSHADING := None; pCOLORFUL := None; pPAUSED := None;
         pBACK_COLOR := None; pTRANSPARENT := None;
         pFALLBACK_RESOLUTION := None |}.

(** One random splat of [multipleSplats]: the colour of
    [generateColor] and the four [Math.random] draws. *)
Record RandomSplat := MkRandomSplat {
  rs_color : Color; rs_x : Qc; rs_y : Qc; rs_dx : Qc; rs_dy : Qc
}.

Definition multipleSplats (rnd : list RandomSplat) (s : Sim) : Sim :=
  fold_left (fun s rs => splat (rs_x rs) (rs_y rs) (rs_dx rs) (rs_dy rs)
                               (rs_color rs) s)
            rnd s.

Definition empty_gl : GL := MkGL ∅ 0 false [].

(** The captured variables before any field is allocated. *)
Definition boot (canvas : Canvas) (ext : Ext) (config : Config) : Sim :=
  let pointer := MkPointer 0 0 0 0 false false (MkColor 0 0 0) in
  MkSim canvas ext config empty_gl (MkResolution 0 0) (MkResolution 0 0)
        (MkDoubleFBO 0 0) (MkDoubleFBO 0 0) 0 0 (MkDoubleFBO 0 0) pointer 0.

(** The body of [createFluidSimulation] for a canvas of the given
    size: configuration, first allocation of the fields, the initial
    [resizeCanvas], the random splats and the first frame. *)
Definition createFluidSimulation (canvas : Canvas) (ext : Ext)
    (rnd : list RandomSplat) : Sim :=
  let s := boot canvas ext (adjust_config ext initial_config) in
  let s := resizeCanvas canvas s in
  let s := resizeCanvas canvas s in
  let s := multipleSplats rnd s in
  update 0 s.

(** *** The returned API *)

Definition setConfig (newConfig : PartialConfig) (s : Sim) : Sim :=
  set_config s (assign (config s) newConfig).

Definition pause (s : Sim) : Sim :=
  let c := config s in
  set_config s
    (MkConfig (SIM_RESOLUTION c) (DYE_RESOLUTION c) (DENSITY_DISSIPATION c)
              (VELOCITY_DISSIPATION c) (PRESSURE c) (PRESSURE_ITERATIONS c)
              (CURL c) (SPLAT_RADIUS c) (SPLAT_FORCE c) (SHADING c)
              (COLORFUL c) true (BACK_COLOR c) (TRANSPARENT c)
              (FALLBACK_RESOLUTION c)).

Definition resume (s : Sim) : Sim :=
  let c := config s in
  let s := set_config s
    (MkConfig (SIM_RESOLUTION c) (DYE_RESOLUTION c) (DENSITY_DISSIPATION c)
              (VELOCITY_DISSIPATION c) (PRESSURE c) (PRESSURE_ITERATIONS c)
              (CURL c) (SPLAT_RADIUS c) (SPLAT_FORCE c) (SHADING c)
              (COLORFUL c) false (BACK_COLOR c) (TRANSPARENT c)
              (FALLBACK_RESOLUTION c)) in
  let s := set_lastTime s 0 in
  update 0 s.

End Driver.

End Fluid.

(** ** The WebGL utility functions *)

Module Utils.

(** The drawing buffer of the context the utilities are handed. *)
Record Context := MkContext {
  drawingBufferWidth : Z;
  drawingBufferHeight : Z
}.

Record Resolution := MkResolution { res_width : Z; res_height : Z }.

Definition getResolution (gl : Context) (resolution : Qc) : Resolution :=
  let aspectRatio :=
    Qc_of_Z (drawingBufferWidth gl) / Qc_of_Z (drawingBufferHeight gl) in
  let aspectRatio :=
    if Qclt_le_dec aspectRatio 1 then 1 / aspectRatio else aspectRatio in
  let max := Qcround (resolution * aspectRatio) in
  let min := Qcround resolution in
  if Z_lt_dec (drawingBufferHeight gl) (drawingBufferWidth gl) then
    {| res_width := max; res_height := min |}
  else
    {| res_width := min; res_height := max |}.

(** [createFBO]: whichever texture format ends up being accepted, the
    function returns a newly created object of size [w] x [h]. *)
Definition createFBO (gl : GL) (w h : Z) (param : filter) : ref * GL :=
  let fbo := MkFBO (Z.to_nat w) (Z.to_nat h) param
                   (replicate (Z.to_nat h) (replicate (Z.to_nat w) vec4_zero)) in
  (nextId gl,
   {| objects := <[nextId gl := fbo]> (objects gl);
      nextId := S (nextId gl);
      BLEND := BLEND gl;
      draws := draws gl |}).

(** The object returned by [createDoubleFBO]; [swap] assigns to its
    [read] and [write] properties. *)
Record DoubleFBO := MkDoubleFBO {
  read : ref;
  write : ref;
  width : Z;
  height : Z;
  texelSizeX : Qc;
  texelSizeY : Qc
}.

Definition createDoubleFBO (gl : GL) (w h : Z) (param : filter)
  : DoubleFBO * GL :=
  let '(fbo1, gl) := createFBO gl w h param in
  let '(fbo2, gl) := createFBO gl w h param in
  ({| read := fbo1; write := fbo2; width := w; height := h;
      texelSizeX := 1 / Qc_of_Z w; texelSizeY := 1 / Qc_of_Z h |}, gl).

Definition swap (this : DoubleFBO) : DoubleFBO :=
  let temp := read this in
  {| read := write this; write := temp; width := width this;
     height := height this; texelSizeX := texelSizeX this;
     texelSizeY := texelSizeY this |}.

Definition correctRadius (gl : Context) (radius : Qc) : Qc :=
  let aspectRatio :=
    Qc_of_Z (drawingBufferWidth gl) / Qc_of_Z (drawingBufferHeight gl) in
  radius * aspectRatio.

Definition correctDeltaX (gl : Context) (delta : Qc) : Qc :=
  let aspectRatio :=
    Qc_of_Z (drawingBufferWidth gl) / Qc_of_Z (drawingBufferHeight gl) in
  aspectRatio * delta.

Definition correctDeltaY (delta : Qc) : Qc := delta.

End Utils.

(** ** Vocabulary of the properties *)

(** The viewport size and the [texelSize] uniform of a draw match the
    sampled texture: neighbouring varyings are one texel apart. *)
Definition matches (t : FBO) (w h : nat) (texelSize : vec2) : Prop :=
  width t = w /\ height t = h /\
  texelSize = Vec2 (1 / Qc_of_nat w) (1 / Qc_of_nat h).

(** The texel array of [t] has the size [t] declares. *)
Definition shaped (t : FBO) : bool :=
  (length (data t) =? height t)%nat
  && forallb (fun row => (length row =? width t)%nat) (data t).

(** The velocity stored in [t] (its [xy] channels) is zero everywhere. *)
Definition is_zero_velocity (t : FBO) : bool :=
  forallb (forallb (fun p => bool_decide (vx p = 0 /\ vy p = 0))) (data t).

(** The field [t] with every texel multiplied by [k]. *)
Definition scale_field (k : Qc) (t : FBO) : FBO :=
  MkFBO (width t) (height t) (param t) (map (map (vec4_scale k)) (data t)).

(** *** Configuration values *)

Definition non_positive (v : Qc) : bool := bool_decide (v <= 0).
Definition out_of_range (d : Qc) : bool := negb (bool_decide (0 < d /\ d <= 1)).

(** An argument of [setConfig] that carries a non-positive resolution,
    a non-positive splat radius or a dissipation outside [(0,1]]. *)
Definition invalid (n : Fluid.PartialConfig) : bool :=
  from_option non_positive false (Fluid.pSIM_RESOLUTION n)
  || from_option non_positive false (Fluid.pDYE_RESOLUTION n)
  || from_option non_positive false (Fluid.pSPLAT_RADIUS n)
  || from_option out_of_range false (Fluid.pDENSITY_DISSIPATION n)
  || from_option out_of_range false (Fluid.pVELOCITY_DISSIPATION n).

(** The configuration [c] with the keys [PRESSURE] and [PAUSED]
    replaced. *)
Definition with_PRESSURE_PAUSED (p : Qc) (paused : bool) (c : Fluid.Config)
  : Fluid.Config :=
  Fluid.assign c
    {| Fluid.pSIM_RESOLUTION := None; Fluid.pDYE_RESOLUTION := None;
       Fluid.pDENSITY_DISSIPATION := None; Fluid.pVELOCITY_DISSIPATION := None;
       Fluid.pPRESSURE := Some p; Fluid.pPRESSURE_ITERATIONS := None;
       Fluid.pCURL := None; Fluid.pSPLAT_RADIUS := None;
       Fluid.pSPLAT_FORCE := None; Fluid.pSHADING := None;
       Fluid.pCOLORFUL := None; Fluid.pPAUSED := Some paused;
       Fluid.pBACK_COLOR := None; Fluid.pTRANSPARENT := None;
       Fluid.pFALLBACK_RESOLUTION := None |}.

(** *** Small concrete simulations *)

(** A simulation on a [cw] x [ch] canvas whose velocity and dye grids
    both have [res] cells along the short side. *)
Definition small_config (res : Z) (iterations : Z) : Fluid.Config :=
  Fluid.assign Fluid.initial_config
    {| Fluid.pSIM_RESOLUTION := Some (Qc_of_Z res);
       Fluid.pDYE_RESOLUTION := Some (Qc_of_Z res);
       Fluid.pDENSITY_DISSIPATION := Some (dec 99 100);
       Fluid.pVELOCITY_DISSIPATION := Some (dec 98 100);
       Fluid.pPRESSURE := None;
       Fluid.pPRESSURE_ITERATIONS := Some (Qc_of_Z iterations);
       Fluid.pCURL := None; Fluid.pSPLAT_RADIUS := None;
       Fluid.pSPLAT_FORCE := None; Fluid.pSHADING := None;
       Fluid.pCOLORFUL := None; Fluid.pPAUSED := None;
       Fluid.pBACK_COLOR := None; Fluid.pTRANSPARENT := None;
       Fluid.pFALLBACK_RESOLUTION := None |}.

Definition small_sim (cw ch res iterations : Z) : Fluid.Sim :=
  Fluid.resizeCanvas (Fluid.MkCanvas cw ch)
    (Fluid.boot (Fluid.MkCanvas cw ch) (Fluid.MkExt true true)
                (small_config res iterations)).

(** The state [s] with the texels of object [r] replaced. *)
Definition with_texels (r : ref) (rows : list (list vec4)) (s : Fluid.Sim)
  : Fluid.Sim :=
  let gl := Fluid.gl s in
  let t := tex gl r in
  Fluid.set_gl s
    {| objects := <[r := MkFBO (width t) (height t) (param t) rows]> (objects gl);
       nextId := nextId gl; BLEND := BLEND gl; draws := draws gl |}.

(** The value of a key after [Object.assign]: the new value when the
    argument has the key, the prior value otherwise. *)
Definition merged {A} (prior : A) (given : option A) (result : A) : Prop :=
  match given with
  | Some v => result = v
  | None => result = prior
  end.

(** *** Draw sequences *)

(** The store after a sequence of draw calls. *)
Definition run_draws `{Builtins} (ds : list DrawCall) (gl : GL) : GL :=
  fold_left (fun gl d => Fluid.blit d gl) ds gl.

(** The draw calls of [n] trips of the pressure loop, starting from the
    double buffer [p]. *)
Fixpoint pressure_draws (n : nat) (p : Fluid.DoubleFBO) (div : ref)
    (ts : vec2) : list DrawCall :=
  match n with
  | O => []
  | S n' =>
      DrawPressure (Fluid.write p) (Fluid.read p) div ts
      :: pressure_draws n' (Fluid.swap p) div ts
  end.

(** The draw calls of one [step] from state [s]. *)
Definition step_draws (dt : Qc) (s : Fluid.Sim) : list DrawCall :=
  let v := Fluid.velocity s in
  let d := Fluid.density s in
  let ts := Fluid.simTexel s in
  let c := Fluid.config s in
  let n := trips (Fluid.PRESSURE_ITERATIONS c) in
  [ DrawCurl (Fluid.curl s) (Fluid.read v) ts;
    DrawVorticity (Fluid.write v) (Fluid.read v) (Fluid.curl s) ts
                  (Fluid.CURL c) dt;
    DrawAdvection (Fluid.read v) (Fluid.write v) (Fluid.write v) ts dt
                  (Fluid.VELOCITY_DISSIPATION c);
    DrawAdvection (Fluid.write d) (Fluid.read v) (Fluid.read d) ts dt
                  (Fluid.DENSITY_DISSIPATION c);
    DrawDivergence (Fluid.divergence s) (Fluid.read v) ts ]
  ++ pressure_draws n (Fluid.pressure s) (Fluid.divergence s) ts
  ++ [ DrawGradientSubtract (Fluid.write v)
         (Fluid.read (Nat.iter n Fluid.swap (Fluid.pressure s)))
         (Fluid.read v) ts ].

(** The draw calls of one [splat] from state [s]. *)
Definition splat_draws (x y dx dy : Qc) (color : Fluid.Color) (s : Fluid.Sim)
  : list DrawCall :=
  let aspectRatio := Fluid.aspect (Fluid.canvas s) in
  let radius := Fluid.SPLAT_RADIUS (Fluid.config s) / Qc_of_Z 100 in
  [ DrawSplat (Fluid.write (Fluid.velocity s)) (Fluid.read (Fluid.velocity s))
              aspectRatio (Vec3 dx dy 0) (Vec2 x y) radius;
    DrawSplat (Fluid.write (Fluid.density s)) (Fluid.read (Fluid.density s))
              aspectRatio
              (Vec3 (Fluid.r color) (Fluid.g color) (Fluid.b color))
              (Vec2 x y) radius ].

(** The six solver stages in the order the specification fixes, with
    [n] pressure iterations. *)
Definition stage_order (n : nat) : list Stage :=
  [SCurl; SVorticity; SAdvection; SAdvection; SDivergence]
  ++ replicate n SPressure ++ [SGradientSubtract].

(** The simulation state with [PRESSURE] and [PAUSED] replaced. *)
Definition retag (p : Qc) (paused : bool) (s : Fluid.Sim) : Fluid.Sim :=
  Fluid.set_config s (with_PRESSURE_PAUSED p paused (Fluid.config s)).

(** The [radius] and [aspectRatio] uniforms of a splat draw. *)
Definition radius_of (d : DrawCall) : option Qc :=
  match d with
  | DrawSplat _ _ _ _ _ radius => Some radius
  | _ => None
  end.

Definition aspect_of (d : DrawCall) : option Qc :=
  match d with
  | DrawSplat _ _ aspectRatio _ _ _ => Some aspectRatio
  | _ => None
  end.

(** The sampler a draw call advects ([uSource]). *)
Definition source_of (d : DrawCall) : option ref :=
  match d with
  | DrawAdvection _ _ uSource _ _ _ => Some uSource
  | _ => None
  end.

(** The draw calls of [applyInputs] from state [s]. *)
Definition input_draws (s : Fluid.Sim) : list DrawCall :=
  let p := Fluid.pointer s in
  if Fluid.moved p && Fluid.down p then
    splat_draws (Fluid.x p / Qc_of_Z (Fluid.canvas_width (Fluid.canvas s)))
                (1 - Fluid.y p / Qc_of_Z (Fluid.canvas_height (Fluid.canvas s)))
                (Qc_of_Z 10 * Fluid.dx p) (- (Qc_of_Z 10 * Fluid.dy p))
                (Fluid.color p) s
  else [].

(** The frame time [update] computes before clamping it. *)
Definition frame_time (time : Qc) (s : Fluid.Sim) : Qc :=
  Fluid.or_zero ((time - Fluid.lastTime s) / Qc_of_Z 1000).

(** The stability ceiling of [dt]: 0.016 s. *)
Definition dt_ceiling : Qc := dec 16 1000.

(** *** Well-formed simulation states *)

(** Object [r] is live and holds a well-shaped [w] x [h] texture with
    filter [p]. *)
Definition live (gl : GL) (r : ref) (w h : nat) (p : filter) : bool :=
  match objects gl !! r with
  | Some t =>
      (width t =? w)%nat && (height t =? h)%nat && bool_decide (param t = p)
      && shaped t
  | None => false
  end.

(** The eight framebuffer objects the driver holds. *)
Definition sim_refs (s : Fluid.Sim) : list ref :=
  [ Fluid.read (Fluid.density s); Fluid.write (Fluid.density s);
    Fluid.read (Fluid.velocity s); Fluid.write (Fluid.velocity s);
    Fluid.divergence s; Fluid.curl s;
    Fluid.read (Fluid.pressure s); Fluid.write (Fluid.pressure s) ].

Definition filterType (s : Fluid.Sim) : filter :=
  if Fluid.supportLinearFiltering (Fluid.ext s) then LINEAR else NEAREST.

Definition sim_width (s : Fluid.Sim) : nat := Z.to_nat (Fluid.res_width (Fluid.simRes s)).
Definition sim_height (s : Fluid.Sim) : nat := Z.to_nat (Fluid.res_height (Fluid.simRes s)).
Definition dye_width (s : Fluid.Sim) : nat := Z.to_nat (Fluid.res_width (Fluid.dyeRes s)).
Definition dye_height (s : Fluid.Sim) : nat := Z.to_nat (Fluid.res_height (Fluid.dyeRes s)).

(** The invariant [resizeCanvas] establishes: the eight objects are
    pairwise distinct and live, the velocity, divergence, curl and
    pressure textures have the simulation resolution, the dye textures
    the dye resolution, and both sides of a double buffer share their
    filter. *)
Definition wf (s : Fluid.Sim) : bool :=
  bool_decide (NoDup (sim_refs s))
  && (0 <=? Fluid.res_width (Fluid.simRes s))%Z
  && (0 <=? Fluid.res_height (Fluid.simRes s))%Z
  && live (Fluid.gl s) (Fluid.read (Fluid.density s)) (dye_width s) (dye_height s) (filterType s)
  && live (Fluid.gl s) (Fluid.write (Fluid.density s)) (dye_width s) (dye_height s) (filterType s)
  && live (Fluid.gl s) (Fluid.read (Fluid.velocity s)) (sim_width s) (sim_height s) (filterType s)
  && live (Fluid.gl s) (Fluid.write (Fluid.velocity s)) (sim_width s) (sim_height s) (filterType s)
  && live (Fluid.gl s) (Fluid.divergence s) (sim_width s) (sim_height s) NEAREST
  && live (Fluid.gl s) (Fluid.curl s) (sim_width s) (sim_height s) NEAREST
  && live (Fluid.gl s) (Fluid.read (Fluid.pressure s)) (sim_width s) (sim_height s) NEAREST
  && live (Fluid.gl s) (Fluid.write (Fluid.pressure s)) (sim_width s) (sim_height s) NEAREST.

(** *** Fields the specification names *)

(** One Jacobi sweep as the specification writes it:
    [pressure'(cell) = 0.25 * (L + R + T + B - divergence(cell))], the
    neighbours read from [p] with clamped addressing. *)
Definition jacobi_cell (div p : FBO) (i j : Z) : vec4 :=
  let L := vx (texel p (i - 1) j) in
  let R := vx (texel p (i + 1) j) in
  let T := vx (texel p i (j + 1)) in
  let B := vx (texel p i (j - 1)) in
  Vec4 (dec 1 4 * (L + R + T + B - vx (texel div i j))) 0 0 1.

Definition jacobi (div p : FBO) : FBO :=
  MkFBO (width p) (height p) (param p)
        (map (fun j => map (fun i => jacobi_cell div p (Z.of_nat i) (Z.of_nat j))
                           (seq 0 (width p)))
             (seq 0 (height p))).

(** The divergence of the velocity field [vel], as the divergence stage
    computes it. *)
Definition divergence_field (vel : FBO) : FBO :=
  MkFBO (width vel) (height vel) NEAREST
        (raster (width vel) (height vel)
                (Vec2 (1 / Qc_of_nat (width vel)) (1 / Qc_of_nat (height vel)))
                (Fluid.divergenceShader vel)).

Definition sum_list (l : list Qc) : Qc := fold_right Qcplus 0 l.

(** Mean of [|div|] over the cells of the grid. *)
Definition mean_abs_divergence (vel : FBO) : Qc :=
  sum_list (map (fun row => sum_list (map (fun c => Qcabs (vx c)) row))
                (data (divergence_field vel)))
  / Qc_of_nat (width vel * height vel).

(** The part of [step] from "Calculate divergence" to "Subtract
    pressure gradient". *)
Definition project `{Builtins} (s : Fluid.Sim) : Fluid.Sim :=
  Fluid.gradientSubtractStage (Fluid.pressureSolve (Fluid.divergenceStage s)).

(** The velocity field the driver currently reads. *)
Definition velocity_field (s : Fluid.Sim) : FBO :=
  tex (Fluid.gl s) (Fluid.read (Fluid.velocity s)).
Definition pressure_field (s : Fluid.Sim) : FBO :=
  tex (Fluid.gl s) (Fluid.read (Fluid.pressure s)).
Definition dye_field (s : Fluid.Sim) : FBO :=
  tex (Fluid.gl s) (Fluid.read (Fluid.density s)).

(** The pressure gradient the gradient-subtraction shader removes from
    the velocity of cell [(i, j)]. *)
Definition grad_x (p : FBO) (i j : Z) : Qc :=
  vx (texel p (i + 1) j) - vx (texel p (i - 1) j).
Definition grad_y (p : FBO) (i j : Z) : Qc :=
  vx (texel p i (j + 1)) - vx (texel p i (j - 1)).

(** Column and row indices clamped to the grid of [p]. *)
Definition cx (p : FBO) (i : Z) : Z := clampZ 0 (Z.of_nat (width p) - 1) i.
Definition cy (p : FBO) (j : Z) : Z := clampZ 0 (Z.of_nat (height p) - 1) j.

(** The divergence, by the stencil of the divergence stage, of the
    pressure gradient field of [p]. *)
Definition divergence_of_gradient (p : FBO) (i j : Z) : Qc :=
  dec 1 2 * (grad_x p (cx p (i + 1)) j - grad_x p (cx p (i - 1)) j
             + grad_y p i (cy p (j + 1)) - grad_y p i (cy p (j - 1))).

Definition divergence_at (vel : FBO) (i j : Z) : Qc :=
  vx (texel (divergence_field vel) i j).

(** What [wf] says, unpacked. *)
Record wf_facts (s : Fluid.Sim) : Prop := {
  wf_nodup : NoDup (sim_refs s);
  wf_width : (0 <= Fluid.res_width (Fluid.simRes s))%Z;
  wf_height : (0 <= Fluid.res_height (Fluid.simRes s))%Z;
  wf_dr : live (Fluid.gl s) (Fluid.read (Fluid.density s))
               (dye_width s) (dye_height s) (filterType s) = true;
  wf_dw : live (Fluid.gl s) (Fluid.write (Fluid.density s))
               (dye_width s) (dye_height s) (filterType s) = true;
  wf_vr : live (Fluid.gl s) (Fluid.read (Fluid.velocity s))
               (sim_width s) (sim_height s) (filterType s) = true;
  wf_vw : live (Fluid.gl s) (Fluid.write (Fluid.velocity s))
               (sim_width s) (sim_height s) (filterType s) = true;
  wf_div : live (Fluid.gl s) (Fluid.divergence s)
                (sim_width s) (sim_height s) NEAREST = true;
  wf_curl : live (Fluid.gl s) (Fluid.curl s)
                 (sim_width s) (sim_height s) NEAREST = true;
  wf_pr : live (Fluid.gl s) (Fluid.read (Fluid.pressure s))
               (sim_width s) (sim_height s) NEAREST = true;
  wf_pw : live (Fluid.gl s) (Fluid.write (Fluid.pressure s))
               (sim_width s) (sim_height s) NEAREST = true
}.


(** The 2 x 1 grid with velocities [(0,0)] and [(1,0)]: uniform
    divergence 1/2. *)
Definition two_cells : Fluid.Sim :=
  with_texels 2 [[Vec4 0 0 0 1; Vec4 1 0 0 1]] (small_sim 2 1 1 20).

(** A 2 x 1 simulation at rest whose dye holds two coloured cells. *)
Definition still_dye : Fluid.Sim :=
  with_texels 0 [[Vec4 1 (dec 1 2) 0 1; Vec4 0 (dec 1 4) 1 1]] (small_sim 2 1 1 1).


(** *** Predicates on whole fields *)

(** Every texel of [t] satisfies [P]. *)
Definition all_texels (P : vec4 -> bool) (t : FBO) : bool :=
  forallb (forallb P) (data t).

(** The x channel of [t] is [c] in every cell. *)
Definition x_is (c : Qc) (t : FBO) : bool :=
  all_texels (fun p => bool_decide (vx p = c)) t.

(** The velocity stored in [t] is [(a, b)] in every cell. *)
Definition velocity_is (a b : Qc) (t : FBO) : bool :=
  all_texels (fun p => bool_decide (vx p = a /\ vy p = b)) t.

(** *** Decay of a field *)







(** *** Feedback between a draw and its target *)

(** The objects whose textures the samplers of a draw call read. *)
Definition samplers_of (d : DrawCall) : list ref :=
  match d with
  | DrawSplat _ uTarget _ _ _ _ => [uTarget]
  | DrawCurl _ uVelocity _ => [uVelocity]
  | DrawVorticity _ uVelocity uCurl _ _ _ => [uVelocity; uCurl]
  | DrawAdvection _ uVelocity uSource _ _ _ => [uVelocity; uSource]
  | DrawDivergence _ uVelocity _ => [uVelocity]
  | DrawPressure _ uPressure uDivergence _ => [uPressure; uDivergence]
  | DrawGradientSubtract _ uPressure uVelocity _ => [uPressure; uVelocity]
  | DrawDisplay uTexture => [uTexture]
  end.

(** The draw call renders into none of the textures it samples. *)
Definition feedback_free (d : DrawCall) : bool :=
  match target_of d with
  | Some t => forallb (fun r => negb (Nat.eqb r t)) (samplers_of d)
  | None => true
  end.

(** What an operation taking [s] to [s'] keeps: the state is still
    well-formed, the grids keep their resolutions and their filter,
    and each draw call issued on the way renders into none of the
    textures it samples. *)
Definition kept (s s' : Fluid.Sim) : Prop :=
  wf s' = true /\
  Fluid.simRes s' = Fluid.simRes s /\
  Fluid.dyeRes s' = Fluid.dyeRes s /\
  Fluid.ext s' = Fluid.ext s /\
  exists issued, draws (Fluid.gl s') = draws (Fluid.gl s) ++ issued /\
                 forallb feedback_free issued = true.

(** ** Pointer input *)

Module Events.

(** [generateColor] as a function of the hue [Math.random()] returned.
    When no case of the [switch] matches, [r], [g] and [b] are never
    assigned: [None]. *)
Definition generateColor (h : Qc) : option Fluid.Color :=
  let s := dec 7 10 in
  let v := dec 8 10 in
  let i := Qcfloor (h * Qc_of_Z 6) in
  let f := h * Qc_of_Z 6 - Qc_of_Z i in
  let p := v * (1 - s) in
  let q := v * (1 - f * s) in
  let t := v * (1 - (1 - f) * s) in
  let rgb :=
    match Z.rem i 6 with
    | 0%Z => Some (v, t, p)
    | 1%Z => Some (q, v, p)
    | 2%Z => Some (p, v, t)
    | 3%Z => Some (p, q, v)
    | 4%Z => Some (t, p, v)
    | 5%Z => Some (v, p, q)
    | _ => None
    end in
  match rgb with
  | Some (r, g, b) =>
      Some (Fluid.MkColor (r * dec 2 10) (g * dec 2 10) (b * dec 2 10))
  | None => None
  end.

(** What a handler reads besides the event: the canvas rectangle of
    [getBoundingClientRect] and [window.devicePixelRatio]. *)
Record View := MkView {
  rect_left : Qc;
  rect_top : Qc;
  devicePixelRatio : Qc
}.

(** The listeners registered on the canvas and on the window; the
    colour is the one [generateColor] returned. *)
Inductive Event :=
  | MouseMove (view : View) (clientX clientY : Qc)
  | MouseDown (color : Fluid.Color)
  | MouseUp
  | TouchMove (view : View) (clientX clientY : Qc)
  | TouchStart (view : View) (clientX clientY : Qc) (color : Fluid.Color)
  | TouchEnd.

Definition mousemove (view : View) (clientX clientY : Qc)
    (pointer : Fluid.Pointer) : Fluid.Pointer :=
  let x := clientX - rect_left view in
  let y := clientY - rect_top view in
  let prevX := Fluid.x pointer in
  let prevY := Fluid.y pointer in
  let px := x * devicePixelRatio view in
  let py := y * devicePixelRatio view in
  let dx := (px - prevX) * 1 in
  let dy := (py - prevY) * 1 in
  Fluid.MkPointer px py dx dy (Fluid.down pointer)
    (bool_decide (0 < Qcabs dx) || bool_decide (0 < Qcabs dy))
    (Fluid.color pointer).

Definition mousedown (color : Fluid.Color) (pointer : Fluid.Pointer)
  : Fluid.Pointer :=
  Fluid.MkPointer (Fluid.x pointer) (Fluid.y pointer) (Fluid.dx pointer)
    (Fluid.dy pointer) true (Fluid.moved pointer) color.

Definition mouseup (pointer : Fluid.Pointer) : Fluid.Pointer :=
  Fluid.MkPointer (Fluid.x pointer) (Fluid.y pointer) (Fluid.dx pointer)
    (Fluid.dy pointer) false (Fluid.moved pointer) (Fluid.color pointer).

Definition touchmove (view : View) (clientX clientY : Qc)
    (pointer : Fluid.Pointer) : Fluid.Pointer :=
  let x := clientX - rect_left view in
  let y := clientY - rect_top view in
  let prevX := Fluid.x pointer in
  let prevY := Fluid.y pointer in
  let px := x * devicePixelRatio view in
  let py := y * devicePixelRatio view in
  let dx := (px - prevX) * Qc_of_Z 10 in
  let dy := (py - prevY) * Qc_of_Z 10 in
  Fluid.MkPointer px py dx dy (Fluid.down pointer)
    (bool_decide (0 < Qcabs dx) || bool_decide (0 < Qcabs dy))
    (Fluid.color pointer).

Definition touchstart (view : View) (clientX clientY : Qc)
    (color : Fluid.Color) (pointer : Fluid.Pointer) : Fluid.Pointer :=
  Fluid.MkPointer ((clientX - rect_left view) * devicePixelRatio view)
    ((clientY - rect_top view) * devicePixelRatio view)
    (Fluid.dx pointer) (Fluid.dy pointer) true (Fluid.moved pointer) color.

Definition touchend (pointer : Fluid.Pointer) : Fluid.Pointer :=
  Fluid.MkPointer (Fluid.x pointer) (Fluid.y pointer) (Fluid.dx pointer)
    (Fluid.dy pointer) false (Fluid.moved pointer) (Fluid.color pointer).

(** An event reaches its listener, which updates the captured
    [pointer]. *)
Definition dispatch (e : Event) (s : Fluid.Sim) : Fluid.Sim :=
  Fluid.set_pointer s
    (match e with
     | MouseMove view clientX clientY =>
         mousemove view clientX clientY (Fluid.pointer s)
     | MouseDown color => mousedown color (Fluid.pointer s)
     | MouseUp => mouseup (Fluid.pointer s)
     | TouchMove view clientX clientY =>
         touchmove view clientX clientY (Fluid.pointer s)
     | TouchStart view clientX clientY color =>
         touchstart view clientX clientY color (Fluid.pointer s)
     | TouchEnd => touchend (Fluid.pointer s)
     end).

End Events.

(** The configuration keys a frame reads: two configurations that agree
    on them. *)
Definition same_frame_keys (c c' : Fluid.Config) : Prop :=
  Fluid.DENSITY_DISSIPATION c = Fluid.DENSITY_DISSIPATION c' /\
  Fluid.VELOCITY_DISSIPATION c = Fluid.VELOCITY_DISSIPATION c' /\
  Fluid.PRESSURE_ITERATIONS c = Fluid.PRESSURE_ITERATIONS c' /\
  Fluid.CURL c = Fluid.CURL c' /\
  Fluid.SPLAT_RADIUS c = Fluid.SPLAT_RADIUS c'.

(** Move events: they neither press nor release the pointer. *)
Definition is_move (e : Events.Event) : bool :=
  match e with
  | Events.MouseMove _ _ _ | Events.TouchMove _ _ _ => true
  | _ => false
  end.

(** The events [es] reach their listeners one after the other. *)
Definition dispatch_all (es : list Events.Event) (s : Fluid.Sim) : Fluid.Sim :=
  fold_left (fun s e => Events.dispatch e s) es s.

(** ** The page script *)

Module Script.

(** The object literal handed to [setConfig]. *)
Definition newConfig : Fluid.PartialConfig :=
  {| Fluid.pSIM_RESOLUTION := Some (Qc_of_Z 512);
     Fluid.pDYE_RESOLUTION := Some (Qc_of_Z 1024);
     Fluid.pDENSITY_DISSIPATION := Some (dec 99 100);
     Fluid.pVELOCITY_DISSIPATION := Some (dec 98 100);
     Fluid.pPRESSURE := Some (dec 8 10);
     Fluid.pPRESSURE_ITERATIONS := Some (Qc_of_Z 20);
     Fluid.pCURL := Some (Qc_of_Z 4);
     Fluid.pSPLAT_RADIUS := Some (dec 12 100);
     Fluid.pSPLAT_FORCE := Some (Qc_of_Z 5000);
     Fluid.pSHADING := Some false;
     Fluid.pCOLORFUL := Some false;
     Fluid.pPAUSED := None;
     Fluid.pBACK_COLOR := None;
     Fluid.pTRANSPARENT := None;
     Fluid.pFALLBACK_RESOLUTION := None |}.

(** The [DOMContentLoaded] listener, when [createFluidSimulation]
    succeeds: the simulation is created, which runs its first frame,
    and then configured. *)
Definition DOMContentLoaded `{Builtins} (canvas : Fluid.Canvas)
    (ext : Fluid.Ext) (rnd : list Fluid.RandomSplat) : Fluid.Sim :=
  Fluid.setConfig newConfig (Fluid.createFluidSimulation canvas ext rnd).

End Script.

(** * Properties *)

(** ** Rational arithmetic *)

Lemma this_Qc_of_Z z : this (Qc_of_Z z) = inject_Z z.
Proof. reflexivity. Qed.

Lemma Qc_eq_Qeq (a b : Qc) : a = b <-> (this a == this b)%Q.
Proof. split; [intros ->; reflexivity | apply Qc_is_canon]. Qed.

Ltac qc_unfold :=
  unfold Qc_of_nat, Qc_of_Z, dec, Qcdiv, Qcminus, Qcplus, Qcmult, Qcopp, Qcinv, Q2Qc in *;
  cbn [this] in *.

(** Transfer an order or equality goal over [Qc] to [Q]. *)
Ltac qc2q :=
  unfold Qclt, Qcle in *;
  repeat match goal with
  | H : @eq Qc _ _ |- _ => rewrite Qc_eq_Qeq in H
  | H : not (@eq Qc _ _) |- _ => rewrite Qc_eq_Qeq in H
  end;
  try match goal with
  | |- @eq Qc _ _ => apply Qc_is_canon
  | |- not (@eq Qc _ _) => rewrite Qc_eq_Qeq
  end;
  qc_unfold; rewrite ?Qred_correct in *.

Lemma Qcfloor_unique (z : Z) (q : Qc) :
  Qc_of_Z z <= q -> q < Qc_of_Z (z + 1) -> Qcfloor q = z.
Proof.
  unfold Qcfloor, Qcle, Qclt. rewrite !this_Qc_of_Z. intros Hlo Hhi.
  pose proof (Qfloor_le q) as H1. pose proof (Qlt_floor q) as H2.
  assert (inject_Z (Qfloor q) < inject_Z (z + 1))%Q as H3 by (eapply Qle_lt_trans; eauto).
  assert (inject_Z z < inject_Z (Qfloor q + 1))%Q as H4 by (eapply Qle_lt_trans; eauto).
  rewrite <- Zlt_Qlt in H3, H4. lia.
Qed.

Lemma Qc_of_Z_add a b : Qc_of_Z (a + b) = Qc_of_Z a + Qc_of_Z b.
Proof. qc2q. rewrite inject_Z_plus. reflexivity. Qed.

Lemma Qc_of_Z_0 : Qc_of_Z 0 = 0.
Proof. by apply Qc_is_canon. Qed.

Lemma Qc_of_Z_1 : Qc_of_Z 1 = 1.
Proof. by apply Qc_is_canon. Qed.

Lemma Qc_of_Z_m1 : Qc_of_Z (-1) = - (1).
Proof. by apply Qc_is_canon. Qed.

Lemma Qcfloor_Z z : Qcfloor (Qc_of_Z z) = z.
Proof. apply Qfloor_Z. Qed.

Lemma Qcfloor_half z : Qcfloor (Qc_of_Z z + dec 1 2) = z.
Proof.
  apply Qcfloor_unique; qc2q; rewrite ?inject_Z_plus; unfold inject_Z; lra.
Qed.


Lemma Qc_of_nat_neq0 (n : nat) : (0 < n)%nat -> Qc_of_nat n <> 0.
Proof.
  intros Hn. qc2q. intros Heq.
  assert (inject_Z 0 < inject_Z (Z.of_nat n))%Q as Hlt by (rewrite <- Zlt_Qlt; lia).
  rewrite Heq in Hlt. unfold inject_Z in Hlt. lra.
Qed.

(** ** Sampling at texel centres *)

Ltac vec4_eq :=
  unfold bilinear, vec4_add, vec4_scale, vec4_zero; cbn [vx vy vz vw];
  f_equal; ring.

Lemma bilinear_0 t00 t10 t01 t11 : bilinear 0 0 t00 t10 t01 t11 = t00.
Proof. destruct t00, t10, t01, t11. vec4_eq. Qed.

(** A coordinate that falls on the centre of texel [(i, j)] reads that
    texel (clamped to the edge), with either filter. *)
Lemma texture2D_texel (t : FBO) (uv : vec2) (i j : Z) :
  x2 uv * Qc_of_nat (width t) = Qc_of_Z i + dec 1 2 ->
  y2 uv * Qc_of_nat (height t) = Qc_of_Z j + dec 1 2 ->
  texture2D t uv = texel t i j.
Proof.
  intros Hu Hv. unfold texture2D. rewrite Hu, Hv.
  destruct (param t).
  - by rewrite !Qcfloor_half.
  - assert (Hc : forall z, Qc_of_Z z + dec 1 2 - dec 1 2 = Qc_of_Z z) by (intros; ring).
    rewrite !Hc, !Qcfloor_Z.
    assert (Hz : forall z, Qc_of_Z z - Qc_of_Z z = 0) by (intros; ring).
    rewrite !Hz. apply bilinear_0.
Qed.

Lemma centre_offset_scale (W c h k : Qc) :
  W <> 0 -> ((c + h) / W + k * (1 / W)) * W = c + k + h.
Proof. intros. field. assumption. Qed.

(** Offsetting a texel centre by whole texels reads the texel that far
    away. *)
Lemma texture2D_centre_offset (t : FBO) (i j : nat) (k l : Z) (uv : vec2) :
  (0 < width t)%nat -> (0 < height t)%nat ->
  x2 uv = (Qc_of_nat i + dec 1 2) / Qc_of_nat (width t)
          + Qc_of_Z k * (1 / Qc_of_nat (width t)) ->
  y2 uv = (Qc_of_nat j + dec 1 2) / Qc_of_nat (height t)
          + Qc_of_Z l * (1 / Qc_of_nat (height t)) ->
  texture2D t uv = texel t (Z.of_nat i + k) (Z.of_nat j + l).
Proof.
  intros Hw Hh Hx Hy. apply texture2D_texel.
  - rewrite Hx, centre_offset_scale by (by apply Qc_of_nat_neq0).
    by rewrite Qc_of_Z_add.
  - rewrite Hy, centre_offset_scale by (by apply Qc_of_nat_neq0).
    by rewrite Qc_of_Z_add.
Qed.

Section Neighbours.
Context (t : FBO) (w h : nat) (ts : vec2) (i j : nat).
Hypothesis Hm : matches t w h ts.
Hypothesis Hi : (i < w)%nat.
Hypothesis Hj : (j < h)%nat.

Local Abbreviation v := (baseVertexShader ts (center w h i j)).

Ltac centre_coord k l :=
  destruct Hm as (Hw & Hh & ->);
  apply (texture2D_centre_offset t i j k l); [lia | lia | |];
  cbn [vUv vL vR vT vB baseVertexShader center vec2_sub vec2_add x2 y2];
  rewrite ?Hw, ?Hh;
  rewrite ?Qc_of_Z_m1, ?Qc_of_Z_1, ?Qc_of_Z_0; ring.

Lemma sample_vUv : texture2D t (vUv v) = texel t (Z.of_nat i) (Z.of_nat j).
Proof.
  rewrite <- (Z.add_0_r (Z.of_nat i)), <- (Z.add_0_r (Z.of_nat j)).
  centre_coord 0%Z 0%Z.
Qed.

Lemma sample_vL : texture2D t (vL v) = texel t (Z.of_nat i - 1) (Z.of_nat j).
Proof.
  rewrite <- (Z.add_0_r (Z.of_nat j)). centre_coord (-1)%Z 0%Z.
Qed.

Lemma sample_vR : texture2D t (vR v) = texel t (Z.of_nat i + 1) (Z.of_nat j).
Proof.
  rewrite <- (Z.add_0_r (Z.of_nat j)). centre_coord 1%Z 0%Z.
Qed.

Lemma sample_vT : texture2D t (vT v) = texel t (Z.of_nat i) (Z.of_nat j + 1).
Proof.
  rewrite <- (Z.add_0_r (Z.of_nat i)). centre_coord 0%Z 1%Z.
Qed.

Lemma sample_vB : texture2D t (vB v) = texel t (Z.of_nat i) (Z.of_nat j - 1).
Proof.
  rewrite <- (Z.add_0_r (Z.of_nat i)). centre_coord 0%Z (-1)%Z.
Qed.

End Neighbours.

(** ** Rasterised fields *)

Lemma nth_map_seq {A} (f : nat -> A) (n k : nat) (d : A) :
  (k < n)%nat -> nth k (map f (seq 0 n)) d = f k.
Proof.
  intros Hk. rewrite (nth_indep _ d (f O)) by (by rewrite length_map, length_seq).
  rewrite (map_nth f). by rewrite seq_nth.
Qed.

Lemma raster_length w h ts f : length (raster w h ts f) = h.
Proof. unfold raster. by rewrite length_map, length_seq. Qed.

Lemma raster_nth i j w h ts f :
  (i < w)%nat -> (j < h)%nat ->
  nth i (nth j (raster w h ts f) []) vec4_zero =
  f (baseVertexShader ts (center w h i j)).
Proof. intros Hi Hj. unfold raster. by rewrite !nth_map_seq. Qed.

Lemma raster_shaped w h p ts f : shaped (MkFBO w h p (raster w h ts f)) = true.
Proof.
  unfold shaped. cbn. rewrite raster_length, Nat.eqb_refl. cbn.
  apply forallb_forall. intros row Hin. unfold raster in Hin.
  apply in_map_iff in Hin as (j & <- & _).
  rewrite length_map, length_seq. apply Nat.eqb_refl.
Qed.

(** Two draws that agree at every pixel centre produce the same field. *)
Lemma raster_ext w h ts ts' f g :
  (forall i j, (i < w)%nat -> (j < h)%nat ->
     f (baseVertexShader ts (center w h i j)) =
     g (baseVertexShader ts' (center w h i j))) ->
  raster w h ts f = raster w h ts' g.
Proof.
  intros Hfg. unfold raster. apply map_ext_in. intros j Hj.
  apply map_ext_in. intros i Hi.
  apply in_seq in Hj, Hi. apply Hfg; lia.
Qed.

Lemma clampZ_in (n : nat) (i : nat) :
  (i < n)%nat -> Z.to_nat (clampZ 0 (Z.of_nat n - 1) (Z.of_nat i)) = i.
Proof. unfold clampZ. lia. Qed.

Lemma texel_in (t : FBO) (i j : nat) :
  (i < width t)%nat -> (j < height t)%nat ->
  texel t (Z.of_nat i) (Z.of_nat j) = nth i (nth j (data t) []) vec4_zero.
Proof. intros Hi Hj. unfold texel. by rewrite !clampZ_in. Qed.

Lemma shaped_spec (t : FBO) :
  shaped t = true ->
  length (data t) = height t /\
  forall j, (j < height t)%nat -> length (nth j (data t) []) = width t.
Proof.
  unfold shaped. rewrite andb_true_iff, Nat.eqb_eq, forallb_forall.
  intros [Hlen Hrows]. split; [done|]. intros j Hj.
  apply Nat.eqb_eq, Hrows, nth_In. lia.
Qed.

(** A well-shaped texture is the table of its texels. *)
Lemma data_texels (t : FBO) :
  shaped t = true ->
  data t = map (fun j => map (fun i => texel t (Z.of_nat i) (Z.of_nat j))
                             (seq 0 (width t)))
               (seq 0 (height t)).
Proof.
  intros Hs. apply shaped_spec in Hs as [Hlen Hrows].
  apply (nth_ext _ _ [] []).
  { by rewrite length_map, length_seq. }
  intros j Hj. rewrite Hlen in Hj. rewrite nth_map_seq by done.
  apply (nth_ext _ _ vec4_zero vec4_zero).
  { by rewrite length_map, length_seq, Hrows. }
  intros i Hi. rewrite Hrows in Hi by done.
  rewrite nth_map_seq by done. by rewrite texel_in.
Qed.

(** A field drawn over a viewport of the size of a well-shaped texture
    equals that texture when every pixel equals the texel below it. *)
Lemma raster_data (t : FBO) ts f :
  shaped t = true ->
  (forall i j, (i < width t)%nat -> (j < height t)%nat ->
     f (baseVertexShader ts (center (width t) (height t) i j)) =
     texel t (Z.of_nat i) (Z.of_nat j)) ->
  raster (width t) (height t) ts f = data t.
Proof.
  intros Hs Hf. etrans; [|symmetry; apply (data_texels t Hs)]. unfold raster.
  apply map_ext_in. intros j Hj. apply map_ext_in. intros i Hi.
  apply in_seq in Hj, Hi. apply Hf; lia.
Qed.

(** ** Configuration *)

(** C2, as stated, fails: [setConfig] stores a negative resolution. *)
Lemma setConfig_stores_invalid :
  let s := small_sim 2 1 1 1 in
  let n := {| Fluid.pSIM_RESOLUTION := Some (Qc_of_Z (-1));
              Fluid.pDYE_RESOLUTION := None;
              Fluid.pDENSITY_DISSIPATION := Some (Qc_of_Z 3);
              Fluid.pVELOCITY_DISSIPATION := None;
              Fluid.pPRESSURE := None; Fluid.pPRESSURE_ITERATIONS := None;
              Fluid.pCURL := None; Fluid.pSPLAT_RADIUS := None;
              Fluid.pSPLAT_FORCE := None; Fluid.pSHADING := None;
              Fluid.pCOLORFUL := None; Fluid.pPAUSED := None;
              Fluid.pBACK_COLOR := None; Fluid.pTRANSPARENT := None;
              Fluid.pFALLBACK_RESOLUTION := None |} in
  invalid n = true /\
  Fluid.config (Fluid.setConfig n s) <> Fluid.config s /\
  Fluid.SIM_RESOLUTION (Fluid.config (Fluid.setConfig n s)) = Qc_of_Z (-1) /\
  Fluid.DENSITY_DISSIPATION (Fluid.config (Fluid.setConfig n s)) = Qc_of_Z 3.
Proof.
  cbv zeta. split; [by vm_compute|]. split; [|split; reflexivity].
  intros Heq. apply (f_equal Fluid.SIM_RESOLUTION) in Heq.
  by apply (f_equal this) in Heq.
Qed.

(** C2 (amended).  [setConfig] performs no validation and never
    rejects: every key present in its argument, whatever its value,
    overwrites the live configuration, every absent key keeps its prior
    value, and nothing else in the simulation state changes. *)
Theorem setConfig_merges_unchecked (n : Fluid.PartialConfig) (s : Fluid.Sim) :
  let c := Fluid.config s in
  let c' := Fluid.config (Fluid.setConfig n s) in
  merged (Fluid.SIM_RESOLUTION c) (Fluid.pSIM_RESOLUTION n) (Fluid.SIM_RESOLUTION c') /\
  merged (Fluid.DYE_RESOLUTION c) (Fluid.pDYE_RESOLUTION n) (Fluid.DYE_RESOLUTION c') /\
  merged (Fluid.DENSITY_DISSIPATION c) (Fluid.pDENSITY_DISSIPATION n)
         (Fluid.DENSITY_DISSIPATION c') /\
  merged (Fluid.VELOCITY_DISSIPATION c) (Fluid.pVELOCITY_DISSIPATION n)
         (Fluid.VELOCITY_DISSIPATION c') /\
  merged (Fluid.PRESSURE c) (Fluid.pPRESSURE n) (Fluid.PRESSURE c') /\
  merged (Fluid.PRESSURE_ITERATIONS c) (Fluid.pPRESSURE_ITERATIONS n)
         (Fluid.PRESSURE_ITERATIONS c') /\
  merged (Fluid.CURL c) (Fluid.pCURL n) (Fluid.CURL c') /\
  merged (Fluid.SPLAT_RADIUS c) (Fluid.pSPLAT_RADIUS n) (Fluid.SPLAT_RADIUS c') /\
  merged (Fluid.SPLAT_FORCE c) (Fluid.pSPLAT_FORCE n) (Fluid.SPLAT_FORCE c') /\
  merged (Fluid.SHADING c) (Fluid.pSHADING n) (Fluid.SHADING c') /\
  merged (Fluid.COLORFUL c) (Fluid.pCOLORFUL n) (Fluid.COLORFUL c') /\
  merged (Fluid.PAUSED c) (Fluid.pPAUSED n) (Fluid.PAUSED c') /\
  merged (Fluid.BACK_COLOR c) (Fluid.pBACK_COLOR n) (Fluid.BACK_COLOR c') /\
  merged (Fluid.TRANSPARENT c) (Fluid.pTRANSPARENT n) (Fluid.TRANSPARENT c') /\
  merged (Fluid.FALLBACK_RESOLUTION c) (Fluid.pFALLBACK_RESOLUTION n)
         (Fluid.FALLBACK_RESOLUTION c') /\
  Fluid.set_config (Fluid.setConfig n s) c = s.
Proof.
  destruct s, n; cbn.
  repeat match goal with
         | |- merged _ ?o _ /\ _ => split; [by destruct o|]
         end.
  reflexivity.
Qed.

(** ** Double buffers *)

Lemma Fluid_swap_iter (d : Fluid.DoubleFBO) (k : nat) :
  Nat.iter k Fluid.swap d = if Nat.even k then d else Fluid.swap d.
Proof.
  induction k as [|k IH]; [done|].
  rewrite Nat.even_succ, <- Nat.negb_even.
  change (Nat.iter (S k) Fluid.swap d) with (Fluid.swap (Nat.iter k Fluid.swap d)).
  rewrite IH. destruct (Nat.even k), d; reflexivity.
Qed.

Lemma Utils_swap_iter (d : Utils.DoubleFBO) (k : nat) :
  Nat.iter k Utils.swap d = if Nat.even k then d else Utils.swap d.
Proof.
  induction k as [|k IH]; [done|].
  rewrite Nat.even_succ, <- Nat.negb_even.
  change (Nat.iter (S k) Utils.swap d) with (Utils.swap (Nat.iter k Utils.swap d)).
  rewrite IH. destruct (Nat.even k), d; reflexivity.
Qed.

Lemma Fluid_createDoubleFBO_spec gl w h p :
  let '(d, gl') := Fluid.createDoubleFBO gl w h p in
  Fluid.fbo1 d = nextId gl /\ Fluid.fbo2 d = S (nextId gl) /\
  nextId gl' = S (S (nextId gl)) /\
  objects gl' =
    <[S (nextId gl) := MkFBO (Z.to_nat w) (Z.to_nat h) p
        (replicate (Z.to_nat h) (replicate (Z.to_nat w) vec4_zero))]>
      (<[nextId gl := MkFBO (Z.to_nat w) (Z.to_nat h) p
           (replicate (Z.to_nat h) (replicate (Z.to_nat w) vec4_zero))]>
         (objects gl)) /\
  BLEND gl' = BLEND gl /\ draws gl' = draws gl.
Proof. cbn. repeat split. Qed.

(** C9.  The two sides of a double buffer are distinct objects when it
    is created, [swap] exchanges the two references and touches nothing
    else (it takes and returns only the pair of references, never the
    object store), and after any number of swaps the read side and the
    write side are still the two distinct objects allocated at
    creation.  This holds for the closure-based buffer of the
    simulation and for the property-based buffer of the utilities. *)
Theorem double_buffer_never_aliases (gl : GL) (w h : Z) (p : filter) (k : nat) :
  (let '(d, gl') := Fluid.createDoubleFBO gl w h p in
   let d' := Nat.iter k Fluid.swap d in
   Fluid.read d <> Fluid.write d /\
   is_Some (objects gl' !! Fluid.read d) /\
   is_Some (objects gl' !! Fluid.write d) /\
   Fluid.read (Fluid.swap d') = Fluid.write d' /\
   Fluid.write (Fluid.swap d') = Fluid.read d' /\
   Fluid.read d' <> Fluid.write d' /\
   (Fluid.read d' = Fluid.read d /\ Fluid.write d' = Fluid.write d \/
    Fluid.read d' = Fluid.write d /\ Fluid.write d' = Fluid.read d)) /\
  (let '(d, gl') := Utils.createDoubleFBO gl w h p in
   let d' := Nat.iter k Utils.swap d in
   Utils.read d <> Utils.write d /\
   is_Some (objects gl' !! Utils.read d) /\
   is_Some (objects gl' !! Utils.write d) /\
   Utils.read (Utils.swap d') = Utils.write d' /\
   Utils.write (Utils.swap d') = Utils.read d' /\
   Utils.read d' <> Utils.write d' /\
   (Utils.read d' = Utils.read d /\ Utils.write d' = Utils.write d \/
    Utils.read d' = Utils.write d /\ Utils.write d' = Utils.read d)).
Proof.
  split.
  - cbn. rewrite Fluid_swap_iter.
    assert (nextId gl <> S (nextId gl)) by lia.
    destruct (Nat.even k); cbn; unfold Fluid.read, Fluid.write; cbn;
      repeat split; auto;
      rewrite ?lookup_insert_eq, ?(lookup_insert_ne _ (S (nextId gl))) by lia;
      rewrite ?lookup_insert_eq; eauto.
  - cbn. rewrite Utils_swap_iter.
    assert (nextId gl <> S (nextId gl)) by lia.
    destruct (Nat.even k); cbn;
      repeat split; auto;
      rewrite ?lookup_insert_eq, ?(lookup_insert_ne _ (S (nextId gl))) by lia;
      rewrite ?lookup_insert_eq; eauto.
Qed.

(** ** Grid resolution *)

Lemma Qcround_mono (a b : Qc) : a <= b -> (Qcround a <= Qcround b)%Z.
Proof.
  intros Hab. unfold Qcround, Qcfloor. apply Qfloor_resp_le. qc2q. lra.
Qed.

Lemma Qc_of_Z_pos (z : Z) : (0 < z)%Z -> 0 < Qc_of_Z z.
Proof.
  intros Hz. qc2q. change 0%Q with (inject_Z 0). by rewrite <- Zlt_Qlt.
Qed.

Lemma Qc_of_Z_neq0 (z : Z) : (0 < z)%Z -> Qc_of_Z z <> 0.
Proof.
  intros Hz Heq. apply Qc_of_Z_pos in Hz. rewrite Heq in Hz.
  by apply Qclt_not_eq in Hz.
Qed.

Lemma ratio_lt_1 (a b : Z) :
  (0 < a)%Z -> (0 < b)%Z -> (Qc_of_Z a / Qc_of_Z b < 1 <-> (a < b)%Z).
Proof.
  intros Ha Hb.
  assert (0 < inject_Z b)%Q as Hb' by (change 0%Q with (inject_Z 0); by rewrite <- Zlt_Qlt).
  rewrite (Zlt_Qlt a b). qc2q. split; intros Hlt.
  - assert (inject_Z a == (inject_Z a * / inject_Z b) * inject_Z b)%Q as Hab
      by (field; lra).
    set (x := (inject_Z a * / inject_Z b)%Q) in *.
    assert (0 < (1 - x) * inject_Z b)%Q by (apply Qmult_lt_0_compat; lra). lra.
  - apply Qlt_shift_div_r; [done|lra].
Qed.

Lemma grow_by_ratio (r a : Qc) : 0 <= r -> 1 <= a -> r <= r * a.
Proof.
  intros Hr Ha. qc2q.
  assert (0 <= this r * (this a - 1))%Q by (apply Qmult_le_0_compat; lra). lra.
Qed.

Lemma ratio_ge_1 (a b : Z) :
  (0 < a)%Z -> (0 < b)%Z -> (b <= a)%Z -> 1 <= Qc_of_Z a / Qc_of_Z b.
Proof.
  intros Ha Hb Hle.
  destruct (Qclt_le_dec (Qc_of_Z a / Qc_of_Z b) 1) as [Hlt|Hge]; [|done].
  apply (proj1 (ratio_lt_1 a b Ha Hb)) in Hlt. lia.
Qed.

(** C8, as stated, fails: on a 200 x 100 canvas the target 128 yields a
    256 x 128 grid, whose larger side is not the target. *)
Lemma getResolution_long_side_not_target :
  let r := Fluid.getResolution (Fluid.MkCanvas 200 100) (Qc_of_Z 128) in
  Fluid.res_width r = 256%Z /\ Fluid.res_height r = 128%Z /\
  Z.max (Fluid.res_width r) (Fluid.res_height r) <> Qcround (Qc_of_Z 128).
Proof. by vm_compute. Qed.

(** The sides of the grid, in exact arithmetic. *)
Lemma getResolution_sides (cw ch : Z) (resolution : Qc) :
  (0 < cw)%Z -> (0 < ch)%Z -> 0 <= resolution ->
  let r := Fluid.getResolution (Fluid.MkCanvas cw ch) resolution in
  let u := Utils.getResolution (Utils.MkContext cw ch) resolution in
  let ratio := Qc_of_Z (Z.max cw ch) / Qc_of_Z (Z.min cw ch) in
  Z.min (Fluid.res_width r) (Fluid.res_height r) = Qcround resolution /\
  Z.max (Fluid.res_width r) (Fluid.res_height r) = Qcround (resolution * ratio) /\
  ((cw < ch)%Z -> Fluid.res_width r = Qcround resolution) /\
  ((ch <= cw)%Z -> Fluid.res_height r = Qcround resolution) /\
  Utils.res_width u = Fluid.res_width r /\
  Utils.res_height u = Fluid.res_height r.
Proof.
  intros Hcw Hch Hres. cbv zeta.
  unfold Fluid.getResolution, Utils.getResolution, Fluid.aspect.
  cbn [Fluid.canvas_width Fluid.canvas_height Utils.drawingBufferWidth
       Utils.drawingBufferHeight].
  pose proof (Qc_of_Z_neq0 cw Hcw) as Hcw0.
  pose proof (Qc_of_Z_neq0 ch Hch) as Hch0.
  destruct (Qclt_le_dec (Qc_of_Z cw / Qc_of_Z ch) 1) as [Hlt|Hge].
  - pose proof (proj1 (ratio_lt_1 cw ch Hcw Hch) Hlt) as Hlt'.
    rewrite (Z.max_r cw ch), (Z.min_l cw ch) by lia.
    assert (Heq : resolution / (Qc_of_Z cw / Qc_of_Z ch)
                  = resolution * (Qc_of_Z ch / Qc_of_Z cw)) by (by field).
    assert (Heq' : resolution * (1 / (Qc_of_Z cw / Qc_of_Z ch))
                  = resolution * (Qc_of_Z ch / Qc_of_Z cw)) by (by field).
    rewrite Heq, Heq'.
    assert (Hmono : (Qcround resolution
                     <= Qcround (resolution * (Qc_of_Z ch / Qc_of_Z cw)))%Z).
    { apply Qcround_mono, grow_by_ratio; [done|]. apply ratio_ge_1; lia. }
    destruct (Z_lt_dec ch cw); [lia|].
    cbn [Fluid.res_width Fluid.res_height Utils.res_width Utils.res_height].
    repeat split; try lia.
  - assert (Hle : (ch <= cw)%Z).
    { destruct (Z_lt_dec cw ch) as [Hlt|]; [|lia].
      apply (proj2 (ratio_lt_1 cw ch Hcw Hch)) in Hlt.
      by apply Qclt_not_le in Hlt. }
    rewrite (Z.max_l cw ch), (Z.min_r cw ch) by lia.
    assert (Hmono : (Qcround resolution
                     <= Qcround (resolution * (Qc_of_Z cw / Qc_of_Z ch)))%Z).
    { apply Qcround_mono, grow_by_ratio; done. }
    cbn [Fluid.res_width Fluid.res_height].
    destruct (Z_lt_dec ch cw) as [Hlt|Hnlt];
      cbn [Utils.res_width Utils.res_height].
    + repeat split; try lia.
    + assert (cw = ch) as -> by lia.
      assert (Hone : resolution * (Qc_of_Z ch / Qc_of_Z ch) = resolution)
        by (by field).
      rewrite Hone. repeat split; lia.
Qed.


Lemma Qcfloor_spec (q : Qc) :
  Qc_of_Z (Qcfloor q) <= q /\ q < Qc_of_Z (Qcfloor q) + 1.
Proof.
  pose proof (Qfloor_le q) as H1. pose proof (Qlt_floor q) as H2.
  unfold Qcfloor. split.
  - unfold Qcle. by rewrite this_Qc_of_Z.
  - rewrite <- Qc_of_Z_1, <- Qc_of_Z_add. unfold Qclt. by rewrite this_Qc_of_Z.
Qed.

(** Rounding moves a number by less than one. *)
Lemma Qcround_near (x : Qc) : Qcabs (Qc_of_Z (Qcround x) - x) < 1.
Proof.
  unfold Qcround. destruct (Qcfloor_spec (x + dec 1 2)) as [Hlo Hhi].
  set (k := Qc_of_Z (Qcfloor (x + dec 1 2))) in *. clearbody k.
  unfold Qcabs. destruct (Qclt_le_dec (k - x) 0); qc2q; lra.
Qed.

(** C8 (amended).  For a canvas with positive sides of at most 2^20
    pixels and a target resolution between 0 and 2^20, the derived
    grid has its smaller dimension equal to the rounded target, lying
    along the short side of the canvas, and its larger dimension
    within one of the target scaled by the long-side / short-side
    ratio.  The same holds of the utility version of [getResolution],
    which works from the drawing-buffer size; the two versions agree
    on the short side and differ by at most one on the long side. *)
Theorem getResolution_short_side_is_target (cw ch : Z) (resolution : Qc) :
  (0 < cw <= 1048576)%Z -> (0 < ch <= 1048576)%Z ->
  0 <= resolution -> resolution <= Qc_of_Z 1048576 ->
  let r := Fluid.getResolution (Fluid.MkCanvas cw ch) resolution in
  let u := Utils.getResolution (Utils.MkContext cw ch) resolution in
  let scaled := resolution * (Qc_of_Z (Z.max cw ch) / Qc_of_Z (Z.min cw ch)) in
  Z.min (Fluid.res_width r) (Fluid.res_height r) = Qcround resolution /\
  ((cw < ch)%Z -> Fluid.res_width r = Qcround resolution) /\
  ((ch <= cw)%Z -> Fluid.res_height r = Qcround resolution) /\
  Qcabs (Qc_of_Z (Z.max (Fluid.res_width r) (Fluid.res_height r)) - scaled) < 1 /\
  Z.min (Utils.res_width u) (Utils.res_height u) = Qcround resolution /\
  ((cw < ch)%Z -> Utils.res_width u = Qcround resolution) /\
  ((ch <= cw)%Z -> Utils.res_height u = Qcround resolution) /\
  Qcabs (Qc_of_Z (Z.max (Utils.res_width u) (Utils.res_height u)) - scaled) < 1 /\
  (Z.abs (Z.max (Utils.res_width u) (Utils.res_height u)
          - Z.max (Fluid.res_width r) (Fluid.res_height r)) <= 1)%Z.
Proof.
  intros [Hcw _] [Hch _] Hres _.
  destruct (getResolution_sides cw ch resolution Hcw Hch Hres)
    as (Hmin & Hmax & Hw & Hh & Huw & Huh).
  cbv zeta in *. rewrite Huw, Huh, Hmin, Hmax.
  split_and!; try done; try apply Qcround_near.
  - lia.
Qed.

Lemma getResolution_short_side_is_target_witness :
  let r := Fluid.getResolution (Fluid.MkCanvas 256 391) (Qc_of_Z 128) in
  Z.min (Fluid.res_width r) (Fluid.res_height r) = Qcround (Qc_of_Z 128) /\
  Qcabs (Qc_of_Z (Z.max (Fluid.res_width r) (Fluid.res_height r))
         - Qc_of_Z 128 * (Qc_of_Z (Z.max 256 391) / Qc_of_Z (Z.min 256 391))) < 1.
Proof.
  pose proof (getResolution_short_side_is_target 256 391 (Qc_of_Z 128)) as H.
  cbv zeta in *.
  destruct H as (H1 & _ & _ & H2 & _);
    [lia | lia | by vm_compute | by vm_compute |].
  split; [exact H1 | exact H2].
Defined.

(** ** The draw calls of the driver *)

Section Driver.
Context `{Builtins}.

Lemma draws_blit d gl : draws (Fluid.blit d gl) = draws gl ++ [d].
Proof. reflexivity. Qed.

Lemma draws_run_draws ds gl : draws (run_draws ds gl) = draws gl ++ ds.
Proof.
  revert gl. induction ds as [|d ds IH]; intros gl; cbn.
  - by rewrite app_nil_r.
  - unfold run_draws in IH. rewrite IH, draws_blit, <- app_assoc. done.
Qed.

Lemma run_draws_app ds ds' gl :
  run_draws (ds ++ ds') gl = run_draws ds' (run_draws ds gl).
Proof. apply fold_left_app. Qed.

Lemma BLEND_run_draws ds gl : BLEND (run_draws ds gl) = BLEND gl.
Proof.
  revert gl. induction ds as [|d ds IH]; intros gl; cbn; [done|].
  unfold run_draws in IH. by rewrite IH.
Qed.

Lemma nextId_run_draws ds gl : nextId (run_draws ds gl) = nextId gl.
Proof.
  revert gl. induction ds as [|d ds IH]; intros gl; cbn; [done|].
  unfold run_draws in IH. by rewrite IH.
Qed.

Lemma swap_swap d : Fluid.swap (Fluid.swap d) = d.
Proof. by destruct d. Qed.

(** The pressure loop, in closed form. *)
Lemma pressure_loop_eq (n : nat) (s : Fluid.Sim) :
  Nat.iter n Fluid.pressureIteration s =
  Fluid.set_pressure
    (Fluid.set_gl s
       (run_draws (pressure_draws n (Fluid.pressure s) (Fluid.divergence s)
                                  (Fluid.simTexel s))
                  (Fluid.gl s)))
    (Nat.iter n Fluid.swap (Fluid.pressure s)).
Proof.
  revert s. induction n as [|n IH]; intros s.
  - by destruct s.
  - rewrite !Nat.iter_succ_r, IH. by destruct s.
Qed.

(** [step], in closed form: the store after its draw calls, the
    velocity and dye buffers swapped an odd number of times, the
    pressure buffer swapped once per iteration. *)
Lemma step_eq (dt : Qc) (s : Fluid.Sim) :
  Fluid.step dt s =
  Fluid.MkSim (Fluid.canvas s) (Fluid.ext s) (Fluid.config s)
    (run_draws (step_draws dt s) (Fluid.set_BLEND false (Fluid.gl s)))
    (Fluid.simRes s) (Fluid.dyeRes s)
    (Fluid.swap (Fluid.density s)) (Fluid.swap (Fluid.velocity s))
    (Fluid.divergence s) (Fluid.curl s)
    (Nat.iter (trips (Fluid.PRESSURE_ITERATIONS (Fluid.config s))) Fluid.swap
              (Fluid.pressure s))
    (Fluid.pointer s) (Fluid.lastTime s).
Proof.
  unfold Fluid.step, Fluid.gradientSubtractStage, Fluid.pressureSolve.
  rewrite pressure_loop_eq.
  unfold step_draws. rewrite !run_draws_app.
  destruct s as [cv ex c g sr dr [d1 d2] [v1 v2] dv cu p po lt]. reflexivity.
Qed.

Lemma splat_eq x y dx dy color (s : Fluid.Sim) :
  Fluid.splat x y dx dy color s =
  Fluid.set_density
    (Fluid.set_velocity
       (Fluid.set_gl s (run_draws (splat_draws x y dx dy color s) (Fluid.gl s)))
       (Fluid.swap (Fluid.velocity s)))
    (Fluid.swap (Fluid.density s)).
Proof. by destruct s. Qed.

End Driver.

Section Frames.
Context `{Builtins}.

Lemma stage_of_pressure_draws n p div ts :
  map stage_of (pressure_draws n p div ts) = replicate n SPressure.
Proof.
  revert p. induction n as [|n IH]; intros p; cbn; [done|]. by rewrite IH.
Qed.

Lemma dt_of_pressure_draws n p div ts :
  map dt_of (pressure_draws n p div ts) = replicate n None.
Proof.
  revert p. induction n as [|n IH]; intros p; cbn; [done|]. by rewrite IH.
Qed.

Lemma applyInputs_draws (s : Fluid.Sim) :
  draws (Fluid.gl (Fluid.applyInputs s)) = draws (Fluid.gl s) ++ input_draws s.
Proof.
  unfold Fluid.applyInputs, input_draws.
  destruct (Fluid.moved (Fluid.pointer s) && Fluid.down (Fluid.pointer s)).
  - rewrite splat_eq. cbn -[run_draws splat_draws].
    rewrite draws_run_draws. by destruct s.
  - by rewrite app_nil_r.
Qed.

Lemma applyInputs_frame (s : Fluid.Sim) :
  Fluid.config (Fluid.applyInputs s) = Fluid.config s /\
  Fluid.simRes (Fluid.applyInputs s) = Fluid.simRes s /\
  Fluid.divergence (Fluid.applyInputs s) = Fluid.divergence s /\
  Fluid.curl (Fluid.applyInputs s) = Fluid.curl s /\
  Fluid.pressure (Fluid.applyInputs s) = Fluid.pressure s.
Proof.
  unfold Fluid.applyInputs.
  destruct (Fluid.moved (Fluid.pointer s) && Fluid.down (Fluid.pointer s));
    by destruct s.
Qed.

Lemma Qcmin_spec (a b : Qc) :
  (b < a -> Qcmin a b = b) /\ (a <= b -> Qcmin a b = a).
Proof.
  unfold Qcmin. destruct (Qclt_le_dec b a) as [Hlt|Hle]; split; intros Hab;
    try done.
  - by apply Qcle_not_lt in Hab.
  - by apply Qclt_not_le in Hab.
Qed.

(** C4.  Every call of [update] (one animation frame) issues, after
    the draws of the pending pointer input and before the display
    draw, the draw calls of [step] in the fixed order curl, vorticity
    confinement, advection of velocity, advection of dye, divergence,
    the pressure iterations, gradient subtraction.  The [dt] uniform of
    the stages that have one (vorticity and both advections) is the
    frame time clamped to the ceiling 0.016 s: the ceiling when the
    frame time exceeds it, the frame time itself otherwise. *)
Theorem update_runs_stages_in_order (time : Qc) (s : Fluid.Sim) :
  let dt := Qcmin (frame_time time s) dt_ceiling in
  let s1 := Fluid.applyInputs (Fluid.set_lastTime s time) in
  let ds := step_draws dt s1 in
  let n := trips (Fluid.PRESSURE_ITERATIONS (Fluid.config s)) in
  draws (Fluid.gl (Fluid.update time s)) =
    draws (Fluid.gl s) ++ input_draws (Fluid.set_lastTime s time) ++ ds
    ++ [DrawDisplay (Fluid.write (Fluid.density s1))] /\
  Forall (fun d => stage_of d = SSplat) (input_draws (Fluid.set_lastTime s time)) /\
  draws (Fluid.gl (Fluid.step dt s1)) = draws (Fluid.gl s1) ++ ds /\
  map stage_of ds = stage_order n /\
  map dt_of ds = [None; Some dt; Some dt; Some dt; None]
                 ++ replicate n None ++ [None] /\
  map source_of ds !! 2%nat = Some (Some (Fluid.write (Fluid.velocity s1))) /\
  map target_of ds !! 2%nat = Some (Some (Fluid.read (Fluid.velocity s1))) /\
  map source_of ds !! 3%nat = Some (Some (Fluid.read (Fluid.density s1))) /\
  map target_of ds !! 3%nat = Some (Some (Fluid.write (Fluid.density s1))) /\
  (dt_ceiling < frame_time time s -> dt = dt_ceiling) /\
  (frame_time time s <= dt_ceiling -> dt = frame_time time s).
Proof.
  cbv zeta.
  set (s0 := Fluid.set_lastTime s time).
  set (s1 := Fluid.applyInputs s0).
  set (dt := Qcmin (frame_time time s) dt_ceiling).
  assert (Hcfg : Fluid.config s1 = Fluid.config s).
  { unfold s1. destruct (applyInputs_frame s0) as [-> _]. by destruct s. }
  repeat split.
  - unfold Fluid.update. fold (frame_time time s). fold dt_ceiling. fold dt.
    fold s0. fold s1. unfold Fluid.render. rewrite step_eq.
    cbn -[run_draws step_draws]. rewrite draws_run_draws.
    cbn -[run_draws step_draws]. unfold s1 at 1. rewrite applyInputs_draws.
    unfold s0 at 1. rewrite <- !app_assoc. by destruct s.
  - unfold input_draws.
    destruct (Fluid.moved (Fluid.pointer s0) && Fluid.down (Fluid.pointer s0));
      repeat constructor.
  - rewrite step_eq. cbn -[run_draws step_draws]. by rewrite draws_run_draws.
  - unfold step_draws, stage_order. rewrite Hcfg.
    rewrite !map_app, stage_of_pressure_draws. reflexivity.
  - unfold step_draws. rewrite Hcfg.
    rewrite !map_app, dt_of_pressure_draws. reflexivity.
  - apply (Qcmin_spec (frame_time time s) dt_ceiling).
  - apply (Qcmin_spec (frame_time time s) dt_ceiling).
Qed.

(** ** Configuration keys [step] does not read *)

Lemma step_draws_retag p b dt (s : Fluid.Sim) :
  step_draws dt (retag p b s) = step_draws dt s.
Proof. destruct s. reflexivity. Qed.

Lemma step_retag q c dt s : Fluid.step dt (retag q c s) = retag q c (Fluid.step dt s).
Proof.
  rewrite !step_eq, step_draws_retag. destruct s. reflexivity.
Qed.

Lemma pause_retag s' : Fluid.pause s' = retag (Fluid.PRESSURE (Fluid.config s')) true s'.
Proof. destruct s' as [? ? [] ? ? ? ? ? ? ? ? ? ?]. reflexivity. Qed.

Lemma retag_frame p b (s : Fluid.Sim) :
  Fluid.gl (retag p b s) = Fluid.gl s /\
  Fluid.velocity (retag p b s) = Fluid.velocity s /\
  Fluid.density (retag p b s) = Fluid.density s /\
  Fluid.pressure (retag p b s) = Fluid.pressure s /\
  Fluid.canvas (retag p b s) = Fluid.canvas s.
Proof. by destruct s. Qed.

(** C10.  [step] reads neither [PRESSURE] nor [PAUSED]: two runs from
    states that differ only in these two configuration keys issue the
    same draw calls and end with the same object store, the same
    buffers and the same remaining state; only the two keys themselves
    still differ.  In particular [pause()] does not change what a
    subsequent [step] computes. *)
Theorem step_ignores_PRESSURE_and_PAUSED
    (p : Qc) (paused : bool) (dt : Qc) (s : Fluid.Sim) :
  Fluid.step dt (retag p paused s) = retag p paused (Fluid.step dt s) /\
  Fluid.gl (Fluid.step dt (retag p paused s)) = Fluid.gl (Fluid.step dt s) /\
  Fluid.velocity (Fluid.step dt (retag p paused s))
    = Fluid.velocity (Fluid.step dt s) /\
  Fluid.density (Fluid.step dt (retag p paused s))
    = Fluid.density (Fluid.step dt s) /\
  Fluid.pressure (Fluid.step dt (retag p paused s))
    = Fluid.pressure (Fluid.step dt s) /\
  Fluid.step dt (Fluid.pause s) = Fluid.pause (Fluid.step dt s).
Proof.
  rewrite step_retag. split; [reflexivity|].
  destruct (retag_frame p paused (Fluid.step dt s)) as (-> & -> & -> & -> & _).
  repeat split.
  rewrite !pause_retag, step_retag. f_equal.
  rewrite step_eq. reflexivity.
Qed.
End Frames.

(** Unfold the projections of a destructed simulation state. *)
Ltac sim_simpl :=
  unfold sim_refs, sim_width, sim_height, dye_width, dye_height, filterType,
    pressure_field, velocity_field, dye_field, Fluid.simTexel, Fluid.draw in *;
  cbn [Fluid.canvas Fluid.ext Fluid.config Fluid.gl Fluid.simRes Fluid.dyeRes
       Fluid.density Fluid.velocity Fluid.divergence Fluid.curl Fluid.pressure
       Fluid.pointer Fluid.lastTime Fluid.set_gl Fluid.set_config
       Fluid.set_density Fluid.set_velocity Fluid.set_pressure
       Fluid.set_pointer Fluid.set_lastTime
       Fluid.read Fluid.write Fluid.swap Fluid.fbo1 Fluid.fbo2] in *.

(** ** The object store under draw calls *)

Section Store.
Context `{Builtins}.

Lemma live_spec gl r w h p :
  live gl r w h p = true ->
  exists t, objects gl !! r = Some t /\ width t = w /\ height t = h /\
            param t = p /\ shaped t = true.
Proof.
  unfold live. destruct (objects gl !! r) as [t|]; [|done].
  rewrite !andb_true_iff, !Nat.eqb_eq, bool_decide_eq_true.
  intros [[[Hw Hh] Hp] Hs]. by exists t.
Qed.

Lemma live_intro gl r t :
  objects gl !! r = Some t -> shaped t = true ->
  live gl r (width t) (height t) (param t) = true.
Proof.
  intros Hr Hs. unfold live. rewrite Hr, !Nat.eqb_refl, Hs.
  by rewrite bool_decide_eq_true_2.
Qed.

Lemma tex_lookup gl r t : objects gl !! r = Some t -> tex gl r = t.
Proof. unfold tex. by intros ->. Qed.

(** A draw with blending disabled replaces the texels of its target
    by the rasterised fragment shader and leaves every other object
    alone. *)
Lemma blit_objects d gl r t :
  target_of d = Some r -> objects gl !! r = Some t -> BLEND gl = false ->
  objects (Fluid.blit d gl) =
  <[r := MkFBO (width t) (height t) (param t)
               (raster (width t) (height t) (Fluid.texelSize_of d)
                       (Fluid.fragment gl d))]> (objects gl).
Proof. intros Ht Hr Hb. unfold Fluid.blit. cbn. by rewrite Ht, Hr, Hb. Qed.

Lemma blit_other d gl r :
  target_of d <> Some r -> objects (Fluid.blit d gl) !! r = objects gl !! r.
Proof.
  intros Hne. unfold Fluid.blit. cbn.
  destruct (target_of d) as [t|]; [|done].
  destruct (objects gl !! t); [|done].
  apply lookup_insert_ne. congruence.
Qed.

Lemma blit_BLEND d gl : BLEND (Fluid.blit d gl) = BLEND gl.
Proof. reflexivity. Qed.

Lemma blit_live_target d gl r w h p :
  target_of d = Some r -> BLEND gl = false -> live gl r w h p = true ->
  live (Fluid.blit d gl) r w h p = true.
Proof.
  intros Ht Hb Hl. apply live_spec in Hl as (t & Hr & <- & <- & <- & Hs).
  unfold live. rewrite (blit_objects d gl r t Ht Hr Hb), lookup_insert_eq. cbn.
  rewrite !Nat.eqb_refl, raster_shaped. by rewrite bool_decide_eq_true_2.
Qed.

Lemma blit_live_other d gl r w h p :
  target_of d <> Some r -> live (Fluid.blit d gl) r w h p = live gl r w h p.
Proof. intros Hne. unfold live. by rewrite blit_other. Qed.

Lemma tex_blit_other d gl r :
  target_of d <> Some r -> tex (Fluid.blit d gl) r = tex gl r.
Proof. intros Hne. unfold tex. by rewrite blit_other. Qed.

Lemma tex_blit_target d gl r t :
  target_of d = Some r -> objects gl !! r = Some t -> BLEND gl = false ->
  tex (Fluid.blit d gl) r =
  MkFBO (width t) (height t) (param t)
        (raster (width t) (height t) (Fluid.texelSize_of d) (Fluid.fragment gl d)).
Proof.
  intros Ht Hr Hb. unfold tex.
  by rewrite (blit_objects d gl r t Ht Hr Hb), lookup_insert_eq.
Qed.

End Store.

(** ** The shaders, cell by cell *)

Section Cells.
Context `{Builtins}.
Context (w h : nat) (ts : vec2) (i j : nat).
Hypothesis Hi : (i < w)%nat.
Hypothesis Hj : (j < h)%nat.

Local Abbreviation v := (baseVertexShader ts (center w h i j)).

Lemma pressure_cell (p div : FBO) :
  matches p w h ts -> matches div w h ts ->
  Fluid.pressureShader p div v = jacobi_cell div p (Z.of_nat i) (Z.of_nat j).
Proof.
  intros Hp Hd. unfold Fluid.pressureShader, jacobi_cell.
  rewrite (sample_vL p w h ts i j), (sample_vR p w h ts i j),
    (sample_vT p w h ts i j), (sample_vB p w h ts i j),
    (sample_vUv div w h ts i j) by done.
  f_equal. ring.
Qed.

Lemma divergence_cell (vel : FBO) :
  matches vel w h ts ->
  Fluid.divergenceShader vel v =
  Vec4 (dec 1 2 * (vx (texel vel (Z.of_nat i + 1) (Z.of_nat j))
                   - vx (texel vel (Z.of_nat i - 1) (Z.of_nat j))
                   + vy (texel vel (Z.of_nat i) (Z.of_nat j + 1))
                   - vy (texel vel (Z.of_nat i) (Z.of_nat j - 1)))) 0 0 1.
Proof.
  intros Hv. unfold Fluid.divergenceShader.
  by rewrite (sample_vL vel w h ts i j), (sample_vR vel w h ts i j),
    (sample_vT vel w h ts i j), (sample_vB vel w h ts i j).
Qed.

Lemma curl_cell (vel : FBO) :
  matches vel w h ts ->
  Fluid.curlShader vel v =
  Vec4 (dec 1 2 * (vy (texel vel (Z.of_nat i + 1) (Z.of_nat j))
                   - vy (texel vel (Z.of_nat i - 1) (Z.of_nat j))
                   - vx (texel vel (Z.of_nat i) (Z.of_nat j + 1))
                   + vx (texel vel (Z.of_nat i) (Z.of_nat j - 1)))) 0 0 1.
Proof.
  intros Hv. unfold Fluid.curlShader.
  by rewrite (sample_vL vel w h ts i j), (sample_vR vel w h ts i j),
    (sample_vT vel w h ts i j), (sample_vB vel w h ts i j).
Qed.

Lemma gradientSubtract_cell (p vel : FBO) :
  matches p w h ts -> matches vel w h ts ->
  Fluid.gradientSubtractShader p vel v =
  Vec4 (vx (texel vel (Z.of_nat i) (Z.of_nat j))
        - (vx (texel p (Z.of_nat i + 1) (Z.of_nat j))
           - vx (texel p (Z.of_nat i - 1) (Z.of_nat j))))
       (vy (texel vel (Z.of_nat i) (Z.of_nat j))
        - (vx (texel p (Z.of_nat i) (Z.of_nat j + 1))
           - vx (texel p (Z.of_nat i) (Z.of_nat j - 1))))
       0 1.
Proof.
  intros Hp Hv. unfold Fluid.gradientSubtractShader.
  by rewrite (sample_vL p w h ts i j), (sample_vR p w h ts i j),
    (sample_vT p w h ts i j), (sample_vB p w h ts i j),
    (sample_vUv vel w h ts i j).
Qed.

End Cells.

(** ** The pressure loop *)

Section Pressure.
Context `{Builtins}.

Lemma matches_intro (t : FBO) (w h : nat) :
  width t = w -> height t = h ->
  matches t w h (Vec2 (1 / Qc_of_nat w) (1 / Qc_of_nat h)).
Proof. by intros <- <-. Qed.

Lemma jacobi_raster (p div : FBO) (w h : nat) (ts : vec2) :
  matches p w h ts -> matches div w h ts ->
  raster w h ts (Fluid.pressureShader p div) = data (jacobi div p).
Proof.
  intros Hp Hd. pose proof Hp as (Hw & Hh & _). unfold jacobi, raster. cbn.
  rewrite Hw, Hh. apply map_ext_in. intros j Hj. apply map_ext_in. intros i Hi.
  apply in_seq in Hi, Hj. apply pressure_cell; [lia|lia|done|done].
Qed.

Lemma jacobi_shaped div p : shaped (jacobi div p) = true.
Proof.
  unfold shaped, jacobi. cbn. rewrite length_map, length_seq, Nat.eqb_refl. cbn.
  apply forallb_forall. intros row Hin. apply in_map_iff in Hin as (j & <- & _).
  rewrite length_map, length_seq. apply Nat.eqb_refl.
Qed.

Section Loop.
Context (w h : nat) (pp pd : filter) (div : ref).
Local Abbreviation ts := (Vec2 (1 / Qc_of_nat w) (1 / Qc_of_nat h)).

(** One pressure draw writes the Jacobi sweep of the read side into
    the write side. *)
Lemma pressure_draw gl pr pw :
  pr <> pw -> div <> pr -> div <> pw ->
  live gl pr w h pp = true -> live gl pw w h pp = true ->
  live gl div w h pd = true -> BLEND gl = false ->
  let gl' := Fluid.blit (DrawPressure pw pr div ts) gl in
  tex gl' pw = jacobi (tex gl div) (tex gl pr) /\
  tex gl' pr = tex gl pr /\
  live gl' pr w h pp = true /\ live gl' pw w h pp = true /\
  (forall r, r <> pw -> objects gl' !! r = objects gl !! r) /\
  BLEND gl' = false.
Proof.
  intros Hne Hd1 Hd2 Hpr Hpw Hdiv Hb gl'.
  pose proof Hpr as (tr & Hr & Hwr & Hhr & Hpr' & Hsr)%live_spec.
  pose proof Hpw as (tw & Hw & Hww & Hhw & Hpw' & Hsw)%live_spec.
  pose proof Hdiv as (td & Hd & Hwd & Hhd & Hpd' & Hsd)%live_spec.
  repeat split.
  - unfold gl'. rewrite (tex_blit_target _ gl pw tw) by done.
    cbn [Fluid.texelSize_of Fluid.fragment].
    rewrite (tex_lookup _ _ _ Hr), (tex_lookup _ _ _ Hd).
    rewrite Hww, Hhw, (jacobi_raster tr td w h ts)
      by (by apply matches_intro).
    unfold jacobi. by rewrite Hwr, Hhr, Hpr', Hpw'.
  - apply tex_blit_other. cbn. congruence.
  - unfold gl'. rewrite blit_live_other; [done|cbn; congruence].
  - by apply blit_live_target.
  - intros r Hr'. apply blit_other. cbn. congruence.
  - done.
Qed.

Lemma run_pressure_draws (n : nat) : forall gl pr pw,
  pr <> pw -> div <> pr -> div <> pw ->
  live gl pr w h pp = true -> live gl pw w h pp = true ->
  live gl div w h pd = true -> BLEND gl = false ->
  let gl' := run_draws (pressure_draws n (Fluid.MkDoubleFBO pr pw) div ts) gl in
  tex gl' (Fluid.read (Nat.iter n Fluid.swap (Fluid.MkDoubleFBO pr pw)))
    = Nat.iter n (jacobi (tex gl div)) (tex gl pr) /\
  live gl' pr w h pp = true /\ live gl' pw w h pp = true /\
  (forall r, r <> pr -> r <> pw -> objects gl' !! r = objects gl !! r) /\
  BLEND gl' = false.
Proof.
  induction n as [|n IH]; intros gl pr pw Hne Hd1 Hd2 Hpr Hpw Hdiv Hb.
  - cbn. repeat split; done.
  - cbv zeta. rewrite !Nat.iter_succ_r.
    change (pressure_draws (S n) (Fluid.MkDoubleFBO pr pw) div ts)
      with (DrawPressure pw pr div ts
              :: pressure_draws n (Fluid.MkDoubleFBO pw pr) div ts).
    change (run_draws (?d :: ?ds) gl) with (run_draws ds (Fluid.blit d gl)).
    change (Fluid.swap (Fluid.MkDoubleFBO pr pw)) with (Fluid.MkDoubleFBO pw pr).
    destruct (pressure_draw gl pr pw) as (Htw & Htr & Hlr & Hlw & Hoth & Hb');
      try done.
    set (gl1 := Fluid.blit (DrawPressure pw pr div ts) gl) in *.
    assert (Hdiv1 : live gl1 div w h pd = true).
    { unfold live. rewrite Hoth by done. exact Hdiv. }
    destruct (IH gl1 pw pr) as (Ht & Hl1 & Hl2 & Hoth' & Hb''); try done.
    repeat split; try done.
    + rewrite Ht, Htw. f_equal. unfold tex. by rewrite Hoth.
    + intros r Hr1 Hr2. rewrite Hoth' by done. by apply Hoth.
Qed.

End Loop.
End Pressure.

(** ** Well-formed states *)

Section WellFormed.
Context `{Builtins}.

Lemma zip_with_length_eq {A B C} (f : A -> B -> C) l k :
  length l = length k -> length (zip_with f l k) = length l.
Proof. intros Hlen. rewrite length_zip_with. lia. Qed.

Lemma blend_shaped (t : FBO) ts f :
  shaped t = true ->
  shaped (MkFBO (width t) (height t) (param t)
                (Fluid.blend (raster (width t) (height t) ts f) (data t))) = true.
Proof.
  intros Hs. pose proof (shaped_spec t Hs) as [Hlen Hrows].
  unfold shaped, Fluid.blend. cbn.
  rewrite zip_with_length_eq by (by rewrite raster_length).
  rewrite raster_length, Nat.eqb_refl. cbn.
  apply forallb_forall. intros row Hin.
  apply list_elem_of_In, list_elem_of_lookup in Hin as [j Hj].
  apply lookup_zip_with_Some in Hj as (src & dst & -> & Hsrc & Hdst).
  apply Nat.eqb_eq.
  assert (Hjh : (j < height t)%nat).
  { apply lookup_lt_Some in Hdst. lia. }
  assert (length src = width t) as Hsl.
  { pose proof (raster_shaped (width t) (height t) NEAREST ts f) as Hr.
    apply shaped_spec in Hr as [_ Hr]. cbn in Hr.
    rewrite <- (Hr j Hjh). f_equal. symmetry. by apply nth_lookup_Some. }
  assert (length dst = width t) as Hdl.
  { rewrite <- (Hrows j Hjh). f_equal. symmetry. by apply nth_lookup_Some. }
  rewrite length_zip_with. lia.
Qed.

(** Every draw call keeps every live object live, with its size and
    filter, whether blending is enabled or not. *)
Lemma blit_live d gl r w h p :
  live gl r w h p = true -> live (Fluid.blit d gl) r w h p = true.
Proof.
  intros Hl. destruct (decide (target_of d = Some r)) as [Ht|Hne];
    [|by rewrite blit_live_other].
  destruct (BLEND gl) eqn:Hb; [|by apply blit_live_target].
  apply live_spec in Hl as (t & Hr & <- & <- & <- & Hs).
  unfold live, Fluid.blit. cbn. rewrite Ht, Hr, Hb, lookup_insert_eq. cbn.
  rewrite !Nat.eqb_refl, blend_shaped by done. by rewrite bool_decide_eq_true_2.
Qed.

Lemma run_draws_live ds gl r w h p :
  live gl r w h p = true -> live (run_draws ds gl) r w h p = true.
Proof.
  revert gl. induction ds as [|d ds IH]; intros gl Hl; [done|].
  apply IH. by apply blit_live.
Qed.

Lemma set_BLEND_live b gl r w h p :
  live (Fluid.set_BLEND b gl) r w h p = live gl r w h p.
Proof. reflexivity. Qed.

Lemma wf_iff (s : Fluid.Sim) : wf s = true <-> wf_facts s.
Proof.
  unfold wf. rewrite !andb_true_iff, bool_decide_eq_true, !Z.leb_le. split.
  - intros [[[[[[[[[[? ?] ?] ?] ?] ?] ?] ?] ?] ?] ?]. by constructor.
  - intros []. repeat split; done.
Qed.

Lemma simTexel_matches (s : Fluid.Sim) :
  wf_facts s ->
  Fluid.simTexel s = Vec2 (1 / Qc_of_nat (sim_width s)) (1 / Qc_of_nat (sim_height s)).
Proof.
  intros [_ Hw Hh _ _ _ _ _ _ _ _]. unfold Fluid.simTexel, sim_width, sim_height, Qc_of_nat.
  by rewrite !Z2Nat.id.
Qed.

(** The distinctness facts used below. *)
Lemma wf_distinct (s : Fluid.Sim) :
  wf_facts s ->
  let dr := Fluid.read (Fluid.density s) in
  let dw := Fluid.write (Fluid.density s) in
  let vr := Fluid.read (Fluid.velocity s) in
  let vw := Fluid.write (Fluid.velocity s) in
  let pr := Fluid.read (Fluid.pressure s) in
  let pw := Fluid.write (Fluid.pressure s) in
  let dv := Fluid.divergence s in
  let cu := Fluid.curl s in
  dr <> dw /\ vr <> vw /\ pr <> pw /\
  dr <> vr /\ dr <> vw /\ dw <> vr /\ dw <> vw /\
  dv <> pr /\ dv <> pw /\ dv <> vr /\ dv <> vw /\
  cu <> vr /\ cu <> vw /\ pr <> vr /\ pr <> vw /\ pw <> vr /\ pw <> vw /\
  dv <> cu /\ dv <> dr /\ dv <> dw /\ cu <> dr /\ cu <> dw /\
  cu <> pr /\ cu <> pw /\ pr <> dr /\ pr <> dw /\ pw <> dr /\ pw <> dw.
Proof.
  intros [Hnd _ _ _ _ _ _ _ _ _ _]. unfold sim_refs in Hnd. cbv zeta.
  rewrite !NoDup_cons in Hnd. set_solver.
Qed.

End WellFormed.

(** ** Pressure projection *)

Section Projection.
Context `{Builtins}.

Lemma trips_of_nat (k : nat) : trips (Qc_of_nat k) = k.
Proof.
  unfold trips, Qc_of_nat. cbn [this Qc_of_Z]. rewrite Qceiling_Z. lia.
Qed.

Lemma length_pressure_draws n p div ts : length (pressure_draws n p div ts) = n.
Proof. revert p. induction n as [|n IH]; intros p; cbn; [done|]. by rewrite IH. Qed.

Lemma pressureIteration_eq (s : Fluid.Sim) :
  Fluid.pressureIteration s = Nat.iter 1 Fluid.pressureIteration s.
Proof. reflexivity. Qed.

Lemma texel_size_nat (z1 z2 : Z) :
  (0 <= z1)%Z -> (0 <= z2)%Z ->
  Vec2 (1 / Qc_of_Z z1) (1 / Qc_of_Z z2)
  = Vec2 (1 / Qc_of_nat (Z.to_nat z1)) (1 / Qc_of_nat (Z.to_nat z2)).
Proof. intros H1 H2. unfold Qc_of_nat. by rewrite !Z2Nat.id. Qed.

(** The store after [n] trips of the pressure loop from a well-formed
    state. *)
Lemma pressure_loop_fields (n : nat) (s : Fluid.Sim) :
  wf_facts s -> BLEND (Fluid.gl s) = false ->
  let s' := Nat.iter n Fluid.pressureIteration s in
  pressure_field s' =
    Nat.iter n (jacobi (tex (Fluid.gl s) (Fluid.divergence s))) (pressure_field s) /\
  (forall r, r <> Fluid.read (Fluid.pressure s) ->
             r <> Fluid.write (Fluid.pressure s) ->
             objects (Fluid.gl s') !! r = objects (Fluid.gl s) !! r) /\
  BLEND (Fluid.gl s') = false /\
  wf_facts s'.
Proof.
  intros Hwf Hb. cbv zeta. rewrite pressure_loop_eq.
  pose proof (wf_distinct s Hwf) as Hd. cbv zeta in Hd.
  destruct Hwf as [Hnd Hw Hh Hdr Hdw Hvr Hvw Hdiv Hcurl Hpr Hpw].
  destruct s as [cv ex c g sr dr [d1 d2] [v1 v2] dv cu [pr pw] po lt].
  sim_simpl. rewrite (texel_size_nat _ _ Hw Hh).
  destruct (run_pressure_draws (Z.to_nat (Fluid.res_width sr))
              (Z.to_nat (Fluid.res_height sr)) NEAREST NEAREST dv n g pr pw)
    as (Ht & Hl1 & Hl2 & Hoth & Hb'); try done; try tauto.
  split; [exact Ht|]. split; [exact Hoth|]. split; [exact Hb'|].
  rewrite Fluid_swap_iter.
  destruct (Nat.even n); constructor; sim_simpl; try done;
    try (apply run_draws_live; done).
  assert (Hperm : [d1; d2; v1; v2; dv; cu; pw; pr] ≡ₚ [d1; d2; v1; v2; dv; cu; pr; pw])
    by (do 6 apply perm_skip; apply perm_swap).
  by rewrite Hperm.
Qed.

(** C3.  From a well-formed state, the pressure loop of [step] issues
    exactly one pressure draw per trip, as many trips as
    [PRESSURE_ITERATIONS] says and never fewer (there is no convergence
    test); every trip renders into the write side the Jacobi sweep
    [0.25 * (L + R + T + B - divergence)] of the read side, which it
    leaves intact, and then swaps the two sides.  After the loop the
    read side holds the [n]-fold Jacobi sweep of the field the loop
    started from. *)
Theorem pressure_solve_is_fixed_count_jacobi (s : Fluid.Sim) :
  wf s = true -> BLEND (Fluid.gl s) = false ->
  let n := trips (Fluid.PRESSURE_ITERATIONS (Fluid.config s)) in
  let div := tex (Fluid.gl s) (Fluid.divergence s) in
  let s1 := Fluid.pressureIteration s in
  let s' := Fluid.pressureSolve s in
  (* one trip *)
  pressure_field s1 = jacobi div (pressure_field s) /\
  tex (Fluid.gl s1) (Fluid.write (Fluid.pressure s1)) = pressure_field s /\
  Fluid.pressure s1 = Fluid.swap (Fluid.pressure s) /\
  draws (Fluid.gl s1) =
    draws (Fluid.gl s)
    ++ [DrawPressure (Fluid.write (Fluid.pressure s)) (Fluid.read (Fluid.pressure s))
                     (Fluid.divergence s) (Fluid.simTexel s)] /\
  (* the loop *)
  (forall k : nat, Fluid.PRESSURE_ITERATIONS (Fluid.config s) = Qc_of_nat k -> n = k) /\
  draws (Fluid.gl s') =
    draws (Fluid.gl s)
    ++ pressure_draws n (Fluid.pressure s) (Fluid.divergence s) (Fluid.simTexel s) /\
  length (pressure_draws n (Fluid.pressure s) (Fluid.divergence s)
                         (Fluid.simTexel s)) = n /\
  Fluid.pressure s' = Nat.iter n Fluid.swap (Fluid.pressure s) /\
  pressure_field s' = Nat.iter n (jacobi div) (pressure_field s) /\
  tex (Fluid.gl s') (Fluid.divergence s') = div.
Proof.
  intros Hwf%wf_iff Hb. cbv zeta.
  pose proof (wf_distinct s Hwf) as Hd. cbv zeta in Hd.
  destruct (pressure_loop_fields 1 s Hwf Hb) as (Hf1 & Hoth1 & _ & _).
  destruct (pressure_loop_fields
              (trips (Fluid.PRESSURE_ITERATIONS (Fluid.config s))) s Hwf Hb)
    as (Hfn & Hothn & _ & _).
  cbv zeta in *. unfold Fluid.pressureSolve.
  change (Nat.iter 1 Fluid.pressureIteration s) with (Fluid.pressureIteration s) in *.
  split_and!.
  - exact Hf1.
  - destruct s as [? ? ? ? ? ? ? ? ? ? [pr pw] ? ?].
    unfold Fluid.pressureIteration. sim_simpl.
    apply tex_blit_other. cbn. intuition congruence.
  - by destruct s.
  - by destruct s.
  - intros k ->. apply trips_of_nat.
  - rewrite pressure_loop_eq. destruct s; cbn -[run_draws pressure_draws].
    by rewrite draws_run_draws.
  - apply length_pressure_draws.
  - rewrite pressure_loop_eq. by destruct s.
  - exact Hfn.
  - unfold tex. rewrite pressure_loop_eq.
    rewrite pressure_loop_eq in Hothn.
    destruct s; cbn -[run_draws pressure_draws] in *.
    rewrite Hothn; [done| |]; intuition congruence.
Qed.

End Projection.

Lemma pressure_solve_is_fixed_count_jacobi_witness :
  pressure_field (@Fluid.pressureSolve approx_builtins two_cells)
  = Nat.iter 20 (jacobi (tex (Fluid.gl two_cells) (Fluid.divergence two_cells)))
             (pressure_field two_cells).
Proof.
  destruct (@pressure_solve_is_fixed_count_jacobi approx_builtins two_cells)
    as (_ & _ & _ & _ & _ & _ & _ & _ & Hp & _); [by vm_compute | by vm_compute |].
  exact Hp.
Defined.


(** ** Invariance of well-formedness *)

Section Invariant.
Context `{Builtins}.

Lemma draw_wf (s : Fluid.Sim) (d : DrawCall) :
  wf_facts s -> wf_facts (Fluid.draw s d).
Proof.
  intros [Hnd Hw Hh Hdr Hdw Hvr Hvw Hdiv Hcurl Hpr Hpw].
  destruct s as [cv ex c g sr dr [d1 d2] [v1 v2] dv cu [pr pw] po lt].
  constructor; sim_simpl; try done; by apply blit_live.
Qed.

Lemma set_BLEND_wf (s : Fluid.Sim) (b : bool) :
  wf_facts s -> wf_facts (Fluid.set_gl s (Fluid.set_BLEND b (Fluid.gl s))).
Proof.
  intros [Hnd Hw Hh Hdr Hdw Hvr Hvw Hdiv Hcurl Hpr Hpw].
  destruct s as [cv ex c g sr dr [d1 d2] [v1 v2] dv cu [pr pw] po lt].
  constructor; sim_simpl; done.
Qed.

Lemma swap_velocity_wf (s : Fluid.Sim) :
  wf_facts s -> wf_facts (Fluid.set_velocity s (Fluid.swap (Fluid.velocity s))).
Proof.
  intros [Hnd Hw Hh Hdr Hdw Hvr Hvw Hdiv Hcurl Hpr Hpw].
  destruct s as [cv ex c g sr dr [d1 d2] [v1 v2] dv cu [pr pw] po lt].
  constructor; sim_simpl; try done.
  assert (Hperm : [d1; d2; v2; v1; dv; cu; pr; pw] ≡ₚ [d1; d2; v1; v2; dv; cu; pr; pw])
    by (do 2 apply perm_skip; apply perm_swap).
  by rewrite Hperm.
Qed.

Lemma swap_density_wf (s : Fluid.Sim) :
  wf_facts s -> wf_facts (Fluid.set_density s (Fluid.swap (Fluid.density s))).
Proof.
  intros [Hnd Hw Hh Hdr Hdw Hvr Hvw Hdiv Hcurl Hpr Hpw].
  destruct s as [cv ex c g sr dr [d1 d2] [v1 v2] dv cu [pr pw] po lt].
  constructor; sim_simpl; try done.
  assert (Hperm : [d2; d1; v1; v2; dv; cu; pr; pw] ≡ₚ [d1; d2; v1; v2; dv; cu; pr; pw])
    by apply perm_swap.
  by rewrite Hperm.
Qed.

Lemma swap_pressure_wf (s : Fluid.Sim) :
  wf_facts s -> wf_facts (Fluid.set_pressure s (Fluid.swap (Fluid.pressure s))).
Proof.
  intros [Hnd Hw Hh Hdr Hdw Hvr Hvw Hdiv Hcurl Hpr Hpw].
  destruct s as [cv ex c g sr dr [d1 d2] [v1 v2] dv cu [pr pw] po lt].
  constructor; sim_simpl; try done.
  assert (Hperm : [d1; d2; v1; v2; dv; cu; pw; pr] ≡ₚ [d1; d2; v1; v2; dv; cu; pr; pw])
    by (do 6 apply perm_skip; apply perm_swap).
  by rewrite Hperm.
Qed.

Lemma set_pointer_wf (s : Fluid.Sim) p :
  wf_facts s -> wf_facts (Fluid.set_pointer s p).
Proof. intros []. destruct s. by constructor. Qed.

Lemma set_lastTime_wf (s : Fluid.Sim) t :
  wf_facts s -> wf_facts (Fluid.set_lastTime s t).
Proof. intros []. destruct s. by constructor. Qed.

Lemma set_config_wf (s : Fluid.Sim) c :
  wf_facts s -> wf_facts (Fluid.set_config s c).
Proof. intros []. destruct s. by constructor. Qed.

Lemma pressureIteration_wf (s : Fluid.Sim) :
  wf_facts s -> wf_facts (Fluid.pressureIteration s).
Proof. intros Hwf. unfold Fluid.pressureIteration. by apply swap_pressure_wf, draw_wf. Qed.

Lemma iter_wf (f : Fluid.Sim -> Fluid.Sim) (n : nat) (s : Fluid.Sim) :
  (forall s, wf_facts s -> wf_facts (f s)) -> wf_facts s -> wf_facts (Nat.iter n f s).
Proof. intros Hf Hs. induction n as [|n IH]; [done|]. by apply Hf. Qed.

Lemma splat_wf x y dx dy color (s : Fluid.Sim) :
  wf_facts s -> wf_facts (Fluid.splat x y dx dy color s).
Proof.
  intros Hwf. unfold Fluid.splat.
  by apply swap_density_wf, draw_wf, swap_velocity_wf, draw_wf.
Qed.

Lemma applyInputs_wf (s : Fluid.Sim) : wf_facts s -> wf_facts (Fluid.applyInputs s).
Proof.
  intros Hwf. unfold Fluid.applyInputs.
  destruct (Fluid.moved (Fluid.pointer s) && Fluid.down (Fluid.pointer s)); [|done].
  by apply splat_wf, set_pointer_wf.
Qed.

Lemma step_wf dt (s : Fluid.Sim) : wf_facts s -> wf_facts (Fluid.step dt s).
Proof.
  intros Hwf. unfold Fluid.step, Fluid.gradientSubtractStage, Fluid.pressureSolve,
    Fluid.divergenceStage, Fluid.advectDensity, Fluid.advectVelocity,
    Fluid.vorticityStage, Fluid.curlStage.
  apply swap_velocity_wf, draw_wf, iter_wf; [apply pressureIteration_wf|].
  apply draw_wf, swap_density_wf, draw_wf, swap_velocity_wf, draw_wf,
    swap_velocity_wf, draw_wf, draw_wf. by apply set_BLEND_wf.
Qed.

Lemma render_wf (s : Fluid.Sim) : wf_facts s -> wf_facts (Fluid.render s).
Proof. intros Hwf. unfold Fluid.render. by apply draw_wf, set_BLEND_wf. Qed.

Lemma update_wf time (s : Fluid.Sim) : wf_facts s -> wf_facts (Fluid.update time s).
Proof.
  intros Hwf. unfold Fluid.update.
  by apply render_wf, step_wf, applyInputs_wf, set_lastTime_wf.
Qed.

End Invariant.

(** ** Divergence after projection *)

Section Divergence.
Context `{Builtins}.

Lemma texel_clamp (t : FBO) (i j : Z) : texel t i j = texel t (cx t i) (cy t j).
Proof.
  assert (Hidem : forall hi a, clampZ 0 hi (clampZ 0 hi a) = clampZ 0 hi a)
    by (intros; unfold clampZ; lia).
  unfold texel, cx, cy. by rewrite !Hidem.
Qed.

Lemma cx_in (t : FBO) (i : Z) :
  (0 < width t)%nat ->
  exists i' : nat, cx t i = Z.of_nat i' /\ (i' < width t)%nat.
Proof.
  intros Hw. exists (Z.to_nat (cx t i)). unfold cx, clampZ. lia.
Qed.

Lemma cy_in (t : FBO) (j : Z) :
  (0 < height t)%nat ->
  exists j' : nat, cy t j = Z.of_nat j' /\ (j' < height t)%nat.
Proof.
  intros Hh. exists (Z.to_nat (cy t j)). unfold cy, clampZ. lia.
Qed.

Lemma cx_nat (t : FBO) (i : nat) : (i < width t)%nat -> cx t (Z.of_nat i) = Z.of_nat i.
Proof. unfold cx, clampZ. lia. Qed.

Lemma cy_nat (t : FBO) (j : nat) : (j < height t)%nat -> cy t (Z.of_nat j) = Z.of_nat j.
Proof. unfold cy, clampZ. lia. Qed.

Lemma texel_raster (w h : nat) (p : filter) ts f (i j : nat) :
  (i < w)%nat -> (j < h)%nat ->
  texel (MkFBO w h p (raster w h ts f)) (Z.of_nat i) (Z.of_nat j)
  = f (baseVertexShader ts (center w h i j)).
Proof.
  intros Hi Hj. rewrite texel_in by done. cbn. by apply raster_nth.
Qed.

(** The divergence field, cell by cell. *)
Lemma divergence_at_cell (vel : FBO) (i j : nat) :
  (i < width vel)%nat -> (j < height vel)%nat ->
  divergence_at vel (Z.of_nat i) (Z.of_nat j) =
  dec 1 2 * (vx (texel vel (Z.of_nat i + 1) (Z.of_nat j))
             - vx (texel vel (Z.of_nat i - 1) (Z.of_nat j))
             + vy (texel vel (Z.of_nat i) (Z.of_nat j + 1))
             - vy (texel vel (Z.of_nat i) (Z.of_nat j - 1))).
Proof.
  intros Hi Hj. unfold divergence_at, divergence_field.
  rewrite texel_raster by done.
  rewrite (divergence_cell (width vel) (height vel)) by (done || by apply matches_intro).
  done.
Qed.

(** Subtracting the gradient of [p] from [vel] changes the divergence
    of every cell by the divergence of that gradient. *)
Lemma divergence_after_subtraction (vel vel' p : FBO) :
  width vel' = width vel -> height vel' = height vel ->
  width p = width vel -> height p = height vel ->
  (forall i j : nat, (i < width vel)%nat -> (j < height vel)%nat ->
     vx (texel vel' (Z.of_nat i) (Z.of_nat j))
       = vx (texel vel (Z.of_nat i) (Z.of_nat j)) - grad_x p (Z.of_nat i) (Z.of_nat j) /\
     vy (texel vel' (Z.of_nat i) (Z.of_nat j))
       = vy (texel vel (Z.of_nat i) (Z.of_nat j)) - grad_y p (Z.of_nat i) (Z.of_nat j)) ->
  forall i j : nat, (i < width vel)%nat -> (j < height vel)%nat ->
    divergence_at vel' (Z.of_nat i) (Z.of_nat j) =
    divergence_at vel (Z.of_nat i) (Z.of_nat j)
    - divergence_of_gradient p (Z.of_nat i) (Z.of_nat j).
Proof.
  intros Hw' Hh' Hwp Hhp Hcell i j Hi Hj.
  rewrite !divergence_at_cell by lia.
  unfold divergence_of_gradient.
  assert (Hx : forall a : Z,
    vx (texel vel' a (Z.of_nat j)) =
    vx (texel vel a (Z.of_nat j)) - grad_x p (cx p a) (Z.of_nat j)).
  { intros a. rewrite (texel_clamp vel'), (texel_clamp vel).
    destruct (cx_in vel a) as (a' & Ha & Ha'); [lia|].
    assert (cx vel' a = cx vel a) as -> by (unfold cx; by rewrite Hw').
    assert (cx p a = cx vel a) as -> by (unfold cx; by rewrite Hwp).
    assert (cy vel' (Z.of_nat j) = Z.of_nat j) as -> by (apply cy_nat; lia).
    rewrite (cy_nat vel j) by done. rewrite Ha. by apply Hcell. }
  assert (Hy : forall b : Z,
    vy (texel vel' (Z.of_nat i) b) =
    vy (texel vel (Z.of_nat i) b) - grad_y p (Z.of_nat i) (cy p b)).
  { intros b. rewrite (texel_clamp vel'), (texel_clamp vel).
    destruct (cy_in vel b) as (b' & Hb & Hb'); [lia|].
    assert (cy vel' b = cy vel b) as -> by (unfold cy; by rewrite Hh').
    assert (cy p b = cy vel b) as -> by (unfold cy; by rewrite Hhp).
    assert (cx vel' (Z.of_nat i) = Z.of_nat i) as -> by (apply cx_nat; lia).
    rewrite (cx_nat vel i) by done. rewrite Hb. by apply Hcell. }
  rewrite !Hx, !Hy. ring.
Qed.

End Divergence.

Section Project.
Context `{Builtins}.

Lemma live_tex gl r w h p :
  live gl r w h p = true ->
  objects gl !! r = Some (tex gl r) /\ width (tex gl r) = w /\
  height (tex gl r) = h /\ param (tex gl r) = p /\ shaped (tex gl r) = true.
Proof.
  intros (t & Hr & Hw & Hh & Hp & Hs)%live_spec.
  by rewrite (tex_lookup _ _ _ Hr).
Qed.

(** The fields after the projection part of [step]. *)
Lemma project_fields (s : Fluid.Sim) :
  wf_facts s -> BLEND (Fluid.gl s) = false ->
  let n := trips (Fluid.PRESSURE_ITERATIONS (Fluid.config s)) in
  let v := velocity_field s in
  let p := pressure_field (project s) in
  let w := sim_width s in
  let h := sim_height s in
  p = Nat.iter n (jacobi (divergence_field v)) (pressure_field s) /\
  width p = w /\ height p = h /\ width v = w /\ height v = h /\
  velocity_field (project s) =
    MkFBO w h (filterType s)
          (raster w h (Vec2 (1 / Qc_of_nat w) (1 / Qc_of_nat h))
                  (Fluid.gradientSubtractShader p v)) /\
  wf_facts (project s) /\ BLEND (Fluid.gl (project s)) = false.
Proof.
  intros Hwf Hb. cbv zeta.
  pose proof (wf_distinct s Hwf) as Hd. cbv zeta in Hd.
  set (s1 := Fluid.divergenceStage s).
  assert (Hwf1 : wf_facts s1) by (by apply draw_wf).
  assert (Hb1 : BLEND (Fluid.gl s1) = false) by (by destruct s).
  destruct (pressure_loop_fields
              (trips (Fluid.PRESSURE_ITERATIONS (Fluid.config s))) s1 Hwf1 Hb1)
    as (Hp2 & Hoth2 & Hb2 & Hwf2).
  cbv zeta in *.
  assert (Hwf3 : wf_facts (project s)).
  { unfold project, Fluid.gradientSubtractStage. by apply swap_velocity_wf, draw_wf. }
  unfold project, Fluid.pressureSolve, Fluid.gradientSubtractStage in *.
  change (Fluid.config (Fluid.divergenceStage s)) with (Fluid.config s) in *.
  fold s1 in Hwf3 |- *.
  set (s2 := Nat.iter (trips (Fluid.PRESSURE_ITERATIONS (Fluid.config s)))
                      Fluid.pressureIteration s1) in *.
  assert (Hproj : Fluid.velocity s2 = Fluid.velocity s /\
                  Fluid.simRes s2 = Fluid.simRes s /\
                  Fluid.ext s2 = Fluid.ext s /\
                  Fluid.divergence s2 = Fluid.divergence s).
  { unfold s2. rewrite pressure_loop_eq. by destruct s. }
  destruct Hproj as (Hv2 & Hsr2 & Hex2 & Hdv2).
  pose proof (simTexel_matches s Hwf) as Hts.
  destruct Hwf as [Hnd Hw Hh Hdr Hdw Hvr Hvw Hdiv Hcurl Hpr Hpw].
  pose proof (live_tex _ _ _ _ _ Hvr) as (Hovr & Hwvr & Hhvr & Hpvr & Hsvr).
  pose proof (live_tex _ _ _ _ _ Hdiv) as (Hodv & Hwdv & Hhdv & Hpdv & Hsdv).
  (* the divergence stage *)
  assert (Hdiv1 : tex (Fluid.gl s1) (Fluid.divergence s)
                  = divergence_field (velocity_field s)).
  { unfold s1, Fluid.divergenceStage, Fluid.draw.
    cbn [Fluid.gl Fluid.set_gl].
    erewrite tex_blit_target; [|reflexivity|exact Hodv|exact Hb].
    cbn [Fluid.texelSize_of Fluid.fragment]. unfold divergence_field, velocity_field.
    by rewrite Hts, Hwdv, Hhdv, Hpdv, Hwvr, Hhvr. }
  assert (Hoth1 : forall r, r <> Fluid.divergence s ->
            objects (Fluid.gl s1) !! r = objects (Fluid.gl s) !! r).
  { intros r Hr. unfold s1, Fluid.divergenceStage, Fluid.draw.
    cbn [Fluid.gl Fluid.set_gl]. apply blit_other. cbn. congruence. }
  assert (Hpr1 : Fluid.pressure s1 = Fluid.pressure s) by (by destruct s).
  assert (Hdv1 : Fluid.divergence s1 = Fluid.divergence s) by (by destruct s).
  assert (Hpf1 : pressure_field s1 = pressure_field s).
  { unfold pressure_field, tex. rewrite Hpr1, Hoth1; [done|]. intuition congruence. }
  rewrite Hdv1, Hdiv1, Hpf1 in Hp2. rewrite Hpr1 in Hoth2.
  (* the state before the last draw *)
  destruct Hwf2 as [_ _ _ _ _ Hvr2 Hvw2 _ _ Hpr2 _].
  unfold sim_width, sim_height, filterType in Hvr2, Hvw2, Hpr2.
  rewrite ?Hv2, ?Hsr2, ?Hex2 in Hvr2, Hvw2, Hpr2.
  fold (sim_width s) (sim_height s) (filterType s) in Hvr2, Hvw2, Hpr2.
  pose proof (live_tex _ _ _ _ _ Hvw2) as (Hovw2 & Hwvw2 & Hhvw2 & Hpvw2 & _).
  pose proof (live_tex _ _ _ _ _ Hpr2) as (_ & Hwp2 & Hhp2 & _ & _).
  assert (Hvr2' : tex (Fluid.gl s2) (Fluid.read (Fluid.velocity s)) = velocity_field s).
  { unfold velocity_field, tex. rewrite Hoth2, Hoth1; [done| | |]; intuition congruence. }
  assert (Hsim2 : Fluid.simTexel s2 = Fluid.simTexel s).
  { unfold Fluid.simTexel. by rewrite Hsr2. }
  (* the pressure field survives the last draw *)
  assert (Hpfinal : pressure_field
            (Fluid.set_velocity
               (Fluid.draw s2
                  (DrawGradientSubtract (Fluid.write (Fluid.velocity s2))
                     (Fluid.read (Fluid.pressure s2))
                     (Fluid.read (Fluid.velocity s2)) (Fluid.simTexel s2)))
               (Fluid.swap
                  (Fluid.velocity
                     (Fluid.draw s2
                        (DrawGradientSubtract (Fluid.write (Fluid.velocity s2))
                           (Fluid.read (Fluid.pressure s2))
                           (Fluid.read (Fluid.velocity s2)) (Fluid.simTexel s2))))))
          = pressure_field s2).
  { assert (Hne : Fluid.read (Fluid.pressure s2) <> Fluid.write (Fluid.velocity s2)).
    { rewrite Hv2. unfold s2. rewrite pressure_loop_eq, Hpr1.
      cbn [Fluid.pressure Fluid.set_pressure]. rewrite Fluid_swap_iter.
      destruct (Nat.even _), (Fluid.pressure s) as [pr pw]; cbn in *;
        intuition congruence. }
    destruct s2 as [? ? ? ? ? ? ? [] ? ? [] ? ?]. unfold pressure_field. sim_simpl.
    apply tex_blit_other. cbn in *. congruence. }
  rewrite Hpfinal. split_and!.
  - exact Hp2.
  - exact Hwp2.
  - exact Hhp2.
  - exact Hwvr.
  - exact Hhvr.
  - unfold velocity_field at 1.
    assert (Hgl : forall s0 d, Fluid.gl (Fluid.set_velocity (Fluid.draw s0 d)
                   (Fluid.swap (Fluid.velocity (Fluid.draw s0 d))))
                   = Fluid.blit d (Fluid.gl s0)) by (by intros []).
    assert (Hrd : forall s0 d, Fluid.read (Fluid.velocity (Fluid.set_velocity (Fluid.draw s0 d)
                   (Fluid.swap (Fluid.velocity (Fluid.draw s0 d)))))
                   = Fluid.write (Fluid.velocity s0)) by (by intros [? ? ? ? ? ? ? [] ? ? ? ? ?]).
    rewrite Hgl, Hrd, Hv2. rewrite ?Hv2 in Hovw2, Hwvw2, Hhvw2, Hpvw2.
    erewrite tex_blit_target; [|reflexivity|exact Hovw2|exact Hb2].
    cbn [Fluid.texelSize_of Fluid.fragment].
    rewrite Hwvw2, Hhvw2, Hpvw2, Hsim2, Hts, Hvr2', Hex2. reflexivity.
  - exact Hwf3.
  - by destruct s2.
Qed.

End Project.

Section ProjectionClaim.
Context `{Builtins}.

Lemma divergence_shader_at (vel : FBO) (i j : nat) :
  (i < width vel)%nat -> (j < height vel)%nat ->
  Fluid.divergenceShader vel
    (baseVertexShader (Vec2 (1 / Qc_of_nat (width vel)) (1 / Qc_of_nat (height vel)))
                      (center (width vel) (height vel) i j))
  = Vec4 (divergence_at vel (Z.of_nat i) (Z.of_nat j)) 0 0 1.
Proof.
  intros Hi Hj. rewrite divergence_at_cell by done.
  by rewrite (divergence_cell (width vel) (height vel)) by (done || by apply matches_intro).
Qed.

Lemma mean_abs_divergence_ext (vel vel' : FBO) :
  width vel' = width vel -> height vel' = height vel ->
  (forall i j : nat, (i < width vel)%nat -> (j < height vel)%nat ->
     divergence_at vel' (Z.of_nat i) (Z.of_nat j)
     = divergence_at vel (Z.of_nat i) (Z.of_nat j)) ->
  mean_abs_divergence vel' = mean_abs_divergence vel.
Proof.
  intros Hw Hh Hdiv. unfold mean_abs_divergence, divergence_field.
  cbn [data].
  assert (Hdata :
    raster (width vel') (height vel')
           (Vec2 (1 / Qc_of_nat (width vel')) (1 / Qc_of_nat (height vel')))
           (Fluid.divergenceShader vel')
    = raster (width vel) (height vel)
             (Vec2 (1 / Qc_of_nat (width vel)) (1 / Qc_of_nat (height vel)))
             (Fluid.divergenceShader vel)).
  { rewrite <- Hw, <- Hh. apply raster_ext. intros i j Hi Hj.
    rewrite divergence_shader_at by done.
    rewrite Hw, Hh in *. rewrite divergence_shader_at by done.
    f_equal. by apply Hdiv. }
  by rewrite Hdata, Hw, Hh.
Qed.

(** C1 (amended).  From a well-formed state with blending off, the
    divergence, pressure-iteration and gradient-subtraction stages
    leave in the pressure buffer the [n]-fold Jacobi sweep of whatever
    that buffer held (it is not cleared), subtract from every cell's
    velocity the centred pressure difference [(R - L, T - B)], and so
    change every cell's divergence by exactly minus the divergence of
    that pressure gradient.  No decrease of the mean absolute
    divergence follows: whenever the resulting pressure field is
    spatially uniform the mean absolute divergence is unchanged. *)
Theorem projection_subtracts_pressure_gradient (s : Fluid.Sim) :
  wf s = true -> BLEND (Fluid.gl s) = false ->
  let n := trips (Fluid.PRESSURE_ITERATIONS (Fluid.config s)) in
  let v := velocity_field s in
  let v' := velocity_field (project s) in
  let p := pressure_field (project s) in
  p = Nat.iter n (jacobi (divergence_field v)) (pressure_field s) /\
  (forall i j : nat, (i < sim_width s)%nat -> (j < sim_height s)%nat ->
     texel v' (Z.of_nat i) (Z.of_nat j)
       = Vec4 (vx (texel v (Z.of_nat i) (Z.of_nat j)) - grad_x p (Z.of_nat i) (Z.of_nat j))
              (vy (texel v (Z.of_nat i) (Z.of_nat j)) - grad_y p (Z.of_nat i) (Z.of_nat j))
              0 1 /\
     divergence_at v' (Z.of_nat i) (Z.of_nat j)
       = divergence_at v (Z.of_nat i) (Z.of_nat j)
         - divergence_of_gradient p (Z.of_nat i) (Z.of_nat j)) /\
  ((forall i j i' j' : Z, vx (texel p i j) = vx (texel p i' j')) ->
   mean_abs_divergence v' = mean_abs_divergence v).
Proof.
  intros Hwf%wf_iff Hb. cbv zeta.
  destruct (project_fields s Hwf Hb) as (Hp & Hwp & Hhp & Hwv & Hhv & Hv' & _ & _).
  cbv zeta in *.
  set (p := pressure_field (project s)) in *.
  set (v := velocity_field s) in *.
  set (v' := velocity_field (project s)) in *.
  assert (Hcell : forall i j : nat, (i < sim_width s)%nat -> (j < sim_height s)%nat ->
            texel v' (Z.of_nat i) (Z.of_nat j)
            = Vec4 (vx (texel v (Z.of_nat i) (Z.of_nat j)) - grad_x p (Z.of_nat i) (Z.of_nat j))
                   (vy (texel v (Z.of_nat i) (Z.of_nat j)) - grad_y p (Z.of_nat i) (Z.of_nat j))
                   0 1).
  { intros i j Hi Hj. rewrite Hv', texel_raster by done.
    rewrite (gradientSubtract_cell (sim_width s) (sim_height s))
      by (done || (by rewrite <- ?Hwp, <- ?Hhp; apply matches_intro)
               || (by rewrite <- ?Hwv, <- ?Hhv; apply matches_intro)).
    done. }
  assert (Hw' : width v' = width v) by (by rewrite Hv', Hwv).
  assert (Hh' : height v' = height v) by (by rewrite Hv', Hhv).
  assert (Hdiv : forall i j : nat, (i < sim_width s)%nat -> (j < sim_height s)%nat ->
            divergence_at v' (Z.of_nat i) (Z.of_nat j)
            = divergence_at v (Z.of_nat i) (Z.of_nat j)
              - divergence_of_gradient p (Z.of_nat i) (Z.of_nat j)).
  { intros i j Hi Hj.
    apply (divergence_after_subtraction v v' p); try lia.
    intros a b Ha Hb'. rewrite Hcell by lia. done. }
  split_and!.
  - exact Hp.
  - intros i j Hi Hj. split; [by apply Hcell | by apply Hdiv].
  - intros Hunif. apply mean_abs_divergence_ext; [done|done|].
    intros i j Hi Hj. rewrite Hdiv by lia.
    unfold divergence_of_gradient, grad_x, grad_y.
    rewrite (Hunif (cx p (Z.of_nat i + 1) + 1)%Z (Z.of_nat j) 0%Z 0%Z).
    rewrite (Hunif (cx p (Z.of_nat i + 1) - 1)%Z (Z.of_nat j) 0%Z 0%Z).
    rewrite (Hunif (cx p (Z.of_nat i - 1) + 1)%Z (Z.of_nat j) 0%Z 0%Z).
    rewrite (Hunif (cx p (Z.of_nat i - 1) - 1)%Z (Z.of_nat j) 0%Z 0%Z).
    rewrite (Hunif (Z.of_nat i) (cy p (Z.of_nat j + 1) + 1)%Z 0%Z 0%Z).
    rewrite (Hunif (Z.of_nat i) (cy p (Z.of_nat j + 1) - 1)%Z 0%Z 0%Z).
    rewrite (Hunif (Z.of_nat i) (cy p (Z.of_nat j - 1) + 1)%Z 0%Z 0%Z).
    rewrite (Hunif (Z.of_nat i) (cy p (Z.of_nat j - 1) - 1)%Z 0%Z 0%Z).
    ring.
Qed.

End ProjectionClaim.

(** C1, as stated, fails: on the 2 x 1 grid, with a zero pressure
    buffer and 20 iterations, the mean absolute divergence is 1/2
    before the projection and still 1/2 after it. *)
Lemma projection_does_not_reduce_divergence :
  wf two_cells = true /\ BLEND (Fluid.gl two_cells) = false /\
  trips (Fluid.PRESSURE_ITERATIONS (Fluid.config two_cells)) = 20%nat /\
  mean_abs_divergence (velocity_field two_cells) = dec 1 2 /\
  mean_abs_divergence (velocity_field (@project approx_builtins two_cells)) = dec 1 2 /\
  ~ (mean_abs_divergence (velocity_field (@project approx_builtins two_cells))
     < mean_abs_divergence (velocity_field two_cells)).
Proof.
  split_and!; try (apply (bool_decide_unpack _); by vm_compute).
Qed.

Lemma projection_subtracts_pressure_gradient_witness :
  pressure_field (@project approx_builtins two_cells)
  = Nat.iter 20 (jacobi (divergence_field (velocity_field two_cells)))
             (pressure_field two_cells).
Proof.
  destruct (@projection_subtracts_pressure_gradient approx_builtins two_cells)
    as (Hp & _); [by vm_compute | by vm_compute |].
  exact Hp.
Defined.

(** ** Advection under zero velocity *)

Section Advection.
Context `{Builtins}.

Lemma sample_center (t : FBO) (w h i j : nat) :
  width t = w -> height t = h -> (i < w)%nat -> (j < h)%nat ->
  texture2D t (center w h i j) = texel t (Z.of_nat i) (Z.of_nat j).
Proof.
  intros <- <- Hi Hj.
  rewrite <- (Z.add_0_r (Z.of_nat i)), <- (Z.add_0_r (Z.of_nat j)).
  apply texture2D_centre_offset; [lia|lia| |]; cbn [center x2 y2];
    rewrite Qc_of_Z_0; ring.
Qed.

Lemma zero_velocity_texel (vel : FBO) (i j : Z) :
  is_zero_velocity vel = true ->
  vx (texel vel i j) = 0 /\ vy (texel vel i j) = 0.
Proof.
  unfold is_zero_velocity, texel. intros Hz.
  rewrite forallb_forall in Hz.
  set (row := nth _ (data vel) []).
  assert (Hrow : forallb (fun p => bool_decide (vx p = 0 /\ vy p = 0)) row = true).
  { unfold row. destruct (nth_in_or_default (Z.to_nat (clampZ 0 (Z.of_nat (height vel) - 1) j))
                            (data vel) []) as [Hin| ->]; [by apply Hz|done]. }
  rewrite forallb_forall in Hrow.
  destruct (nth_in_or_default (Z.to_nat (clampZ 0 (Z.of_nat (width vel) - 1) i))
              row vec4_zero) as [Hin| ->]; [|done].
  specialize (Hrow _ Hin). by apply bool_decide_eq_true in Hrow.
Qed.

Lemma zero_velocity_sample (vel : FBO) (uv : vec2) :
  is_zero_velocity vel = true ->
  vx (texture2D vel uv) = 0 /\ vy (texture2D vel uv) = 0.
Proof.
  intros Hz. unfold texture2D. destruct (param vel).
  - by apply zero_velocity_texel.
  - unfold bilinear, vec4_add, vec4_scale. cbn [vx vy].
    repeat match goal with
           | |- context [texel vel ?a ?b] =>
               let Hx := fresh in let Hy := fresh in
               destruct (zero_velocity_texel vel a b Hz) as [Hx Hy];
               rewrite ?Hx, ?Hy; clear Hx Hy
           end.
    split; ring.
Qed.

Lemma advection_cell (vel src : FBO) ts dt d (w h i j : nat) :
  is_zero_velocity vel = true -> width src = w -> height src = h ->
  (i < w)%nat -> (j < h)%nat ->
  Fluid.advectionShader vel src ts dt d (baseVertexShader ts (center w h i j))
  = vec4_scale d (texel src (Z.of_nat i) (Z.of_nat j)).
Proof.
  intros Hz Hw Hh Hi Hj. unfold Fluid.advectionShader. cbn [vUv baseVertexShader].
  destruct (zero_velocity_sample vel (center w h i j) Hz) as [-> ->].
  f_equal. rewrite <- (sample_center src w h i j) by done.
  f_equal. destruct (center w h i j) as [u v]. cbn [x2 y2]. f_equal; ring.
Qed.

Lemma advection_raster (vel src : FBO) ts dt d :
  is_zero_velocity vel = true -> shaped src = true ->
  raster (width src) (height src) ts (Fluid.advectionShader vel src ts dt d)
  = data (scale_field d src).
Proof.
  intros Hz Hs. unfold scale_field. cbn [data].
  trans (map (map (vec4_scale d))
              (map (fun j => map (fun i => texel src (Z.of_nat i) (Z.of_nat j))
                                 (seq 0 (width src)))
                   (seq 0 (height src)))).
  2: { by rewrite <- data_texels. }
  unfold raster. rewrite List.map_map.
  apply map_ext_in. intros j Hj. rewrite List.map_map. apply map_ext_in. intros i Hi.
  apply in_seq in Hi, Hj. apply advection_cell; (done || lia).
Qed.

(** One advection draw with a zero velocity field writes the source
    field scaled by the dissipation. *)
Lemma advection_draw gl target uVelocity uSource ts dt d w h p :
  live gl target w h p = true -> live gl uSource w h p = true ->
  is_zero_velocity (tex gl uVelocity) = true -> BLEND gl = false ->
  tex (Fluid.blit (DrawAdvection target uVelocity uSource ts dt d) gl) target
  = scale_field d (tex gl uSource).
Proof.
  intros Ht Hs Hz Hb.
  pose proof (live_tex _ _ _ _ _ Ht) as (Hot & Hwt & Hht & Hpt & _).
  pose proof (live_tex _ _ _ _ _ Hs) as (_ & Hws & Hhs & Hps & Hss).
  erewrite tex_blit_target; [|reflexivity|exact Hot|exact Hb].
  cbn [Fluid.texelSize_of Fluid.fragment].
  rewrite Hwt, Hht, Hpt, <- Hws, <- Hhs, advection_raster by done.
  unfold scale_field. cbn [data]. by rewrite Hps.
Qed.

Lemma scale_field_zero_velocity d t :
  is_zero_velocity t = true -> is_zero_velocity (scale_field d t) = true.
Proof.
  unfold is_zero_velocity, scale_field. cbn [data]. rewrite !forallb_forall.
  intros Hz row (row0 & <- & Hin)%in_map_iff. specialize (Hz row0 Hin).
  rewrite forallb_forall in *. intros c (c0 & <- & Hin0)%in_map_iff.
  specialize (Hz c0 Hin0). apply bool_decide_eq_true in Hz as [Hx Hy].
  apply bool_decide_eq_true. cbn. rewrite Hx, Hy. split; ring.
Qed.



(** One dye advection from a well-formed state with zero velocity. *)
Lemma advectDensity_fields dt (s : Fluid.Sim) :
  wf_facts s -> BLEND (Fluid.gl s) = false ->
  is_zero_velocity (velocity_field s) = true ->
  let s' := Fluid.advectDensity dt s in
  dye_field s' = scale_field (Fluid.DENSITY_DISSIPATION (Fluid.config s)) (dye_field s) /\
  velocity_field s' = velocity_field s /\
  Fluid.config s' = Fluid.config s /\
  wf_facts s' /\ BLEND (Fluid.gl s') = false.
Proof.
  intros Hwf Hb Hz. cbv zeta.
  assert (Hwf' : wf_facts (Fluid.advectDensity dt s)).
  { unfold Fluid.advectDensity. by apply swap_density_wf, draw_wf. }
  pose proof (wf_distinct s Hwf) as Hd. cbv zeta in Hd.
  destruct Hwf as [Hnd Hw Hh Hdr Hdw Hvr Hvw Hdiv Hcurl Hpr Hpw].
  destruct s as [cv ex c g sr dr [d1 d2] [v1 v2] dv cu [pr pw] po lt].
  unfold Fluid.advectDensity. sim_simpl. split_and!; try done.
  - by apply (advection_draw g d2 v1 d1 _ dt _ _ _ _ Hdw Hdr).
  - apply tex_blit_other. cbn. intuition congruence.
Qed.

Lemma advectVelocity_fields dt (s : Fluid.Sim) :
  wf_facts s -> BLEND (Fluid.gl s) = false ->
  is_zero_velocity (velocity_field s) = true ->
  let s' := Fluid.advectVelocity dt s in
  velocity_field s' = scale_field (Fluid.VELOCITY_DISSIPATION (Fluid.config s)) (velocity_field s) /\
  Fluid.config s' = Fluid.config s /\
  wf_facts s' /\ BLEND (Fluid.gl s') = false.
Proof.
  intros Hwf Hb Hz. cbv zeta.
  assert (Hwf' : wf_facts (Fluid.advectVelocity dt s)).
  { unfold Fluid.advectVelocity. by apply swap_velocity_wf, draw_wf. }
  destruct Hwf as [Hnd Hw Hh Hdr Hdw Hvr Hvw Hdiv Hcurl Hpr Hpw].
  destruct s as [cv ex c g sr dr [d1 d2] [v1 v2] dv cu [pr pw] po lt].
  unfold Fluid.advectVelocity. sim_simpl. split_and!; try done.
  by apply (advection_draw g v2 v1 v1 _ dt _ _ _ _ Hvw Hvr).
Qed.



End Advection.

(** ** Decay under zero velocity *)


Section Dissipation.
Context `{Builtins}.











End Dissipation.



(** ** Splats *)

Section Splat.
Context `{Builtins}.

(** The Gaussian weight of the splat shader at coordinate [uv]. *)
Lemma splat_cell (uTarget : FBO) aspectRatio color point radius ts (w h i j : nat) :
  width uTarget = w -> height uTarget = h -> (i < w)%nat -> (j < h)%nat ->
  let uv := center w h i j in
  let px := (x2 uv - x2 point) * aspectRatio in
  let py := y2 uv - y2 point in
  let k := gl_exp (- (px * px + py * py) / radius) in
  let base := texel uTarget (Z.of_nat i) (Z.of_nat j) in
  Fluid.splatShader uTarget aspectRatio color point radius
                    (baseVertexShader ts uv)
  = Vec4 (vx base + k * x3 color) (vy base + k * y3 color)
         (vz base + k * z3 color) 1.
Proof.
  intros Hw Hh Hi Hj. cbv zeta. unfold Fluid.splatShader.
  cbn [vUv baseVertexShader vec2_sub x2 y2 x3 y3 z3 dot2].
  by rewrite sample_center.
Qed.

Lemma blend_px_opaque (src dst : vec4) : vw src = 1 -> Fluid.blend_px src dst = src.
Proof.
  intros Hw. destruct src as [a b c d], dst. cbn in Hw. subst d.
  unfold Fluid.blend_px, vec4_add, vec4_scale. cbn. f_equal; ring.
Qed.

Lemma blend_row_opaque (src dst : list vec4) :
  length src = length dst -> Forall (fun p => vw p = 1) src ->
  zip_with Fluid.blend_px src dst = src.
Proof.
  revert dst. induction src as [|p src IH]; intros [|q dst] Hlen Hop; try done.
  cbn in *. inversion Hop; subst. rewrite blend_px_opaque by done.
  f_equal. apply IH; [lia|done].
Qed.

Lemma blend_opaque (src dst : list (list vec4)) :
  Forall2 (fun row row' => length row = length row') src dst ->
  Forall (Forall (fun p => vw p = 1)) src ->
  Fluid.blend src dst = src.
Proof.
  intros Hlen. induction Hlen as [|row row' src dst Hr Hrest IH]; intros Hop; [done|].
  unfold Fluid.blend in *. cbn. inversion Hop; subst.
  rewrite blend_row_opaque by done. f_equal. by apply IH.
Qed.

Lemma raster_opaque w h ts f :
  (forall v, vw (f v) = 1) -> Forall (Forall (fun p => vw p = 1)) (raster w h ts f).
Proof.
  intros Hf. unfold raster. apply Forall_forall.
  intros row (j & <- & _)%list_elem_of_In%in_map_iff.
  apply Forall_forall. intros p (i & <- & _)%list_elem_of_In%in_map_iff. apply Hf.
Qed.

Lemma raster_same_shape (t : FBO) ts f :
  shaped t = true ->
  Forall2 (fun row row' => length row = length row')
          (raster (width t) (height t) ts f) (data t).
Proof.
  intros Hs. pose proof (shaped_spec t Hs) as [Hlen Hrows].
  apply Forall2_same_length_lookup. split.
  { by rewrite raster_length. }
  intros j row row' Hrow Hrow'.
  assert (Hj : (j < height t)%nat) by (apply lookup_lt_Some in Hrow'; lia).
  pose proof (raster_shaped (width t) (height t) NEAREST ts f) as Hr.
  apply shaped_spec in Hr as [_ Hr]. cbn in Hr.
  rewrite <- (nth_lookup_Some _ _ [] _ Hrow), <- (nth_lookup_Some _ _ [] _ Hrow').
  by rewrite Hr, Hrows.
Qed.

(** A splat draw writes base plus weighted colour into its target,
    whether blending is enabled or not: its fragments are opaque. *)
Lemma splat_draw gl target uTarget aspectRatio color point radius w h p :
  live gl target w h p = true ->
  tex (Fluid.blit (DrawSplat target uTarget aspectRatio color point radius) gl) target
  = MkFBO w h p (raster w h (Vec2 0 0)
                        (Fluid.splatShader (tex gl uTarget) aspectRatio color point radius)).
Proof.
  intros Ht. pose proof (live_tex _ _ _ _ _ Ht) as (Hot & Hwt & Hht & Hpt & Hst).
  destruct (BLEND gl) eqn:Hb.
  - unfold tex at 1, Fluid.blit. cbn [objects target_of]. rewrite Hot, Hb, lookup_insert_eq.
    cbn [default Fluid.texelSize_of Fluid.fragment].
    rewrite blend_opaque.
    + by rewrite Hwt, Hht, Hpt.
    + by apply raster_same_shape.
    + by apply raster_opaque.
  - erewrite tex_blit_target; [|reflexivity|exact Hot|exact Hb].
    cbn [Fluid.texelSize_of Fluid.fragment]. by rewrite Hwt, Hht, Hpt.
Qed.

End Splat.

Section SplatClaims.
Context `{Builtins}.

(** The velocity and dye fields after one [splat]. *)
Lemma splat_fields x y dx dy color (s : Fluid.Sim) :
  wf_facts s ->
  let asp := Fluid.aspect (Fluid.canvas s) in
  let radius := Fluid.SPLAT_RADIUS (Fluid.config s) / Qc_of_Z 100 in
  velocity_field (Fluid.splat x y dx dy color s)
  = MkFBO (sim_width s) (sim_height s) (filterType s)
      (raster (sim_width s) (sim_height s) (Vec2 0 0)
         (Fluid.splatShader (velocity_field s) asp (Vec3 dx dy 0) (Vec2 x y) radius)) /\
  dye_field (Fluid.splat x y dx dy color s)
  = MkFBO (dye_width s) (dye_height s) (filterType s)
      (raster (dye_width s) (dye_height s) (Vec2 0 0)
         (Fluid.splatShader (dye_field s) asp
            (Vec3 (Fluid.r color) (Fluid.g color) (Fluid.b color)) (Vec2 x y) radius)).
Proof.
  intros Hwf. cbv zeta.
  pose proof (wf_distinct s Hwf) as Hd. cbv zeta in Hd.
  destruct Hwf as [Hnd Hw Hh Hdr Hdw Hvr Hvw Hdiv Hcurl Hpr Hpw].
  destruct s as [cv ex c g sr dr [d1 d2] [v1 v2] dv cu [pr pw] po lt].
  unfold Fluid.splat. sim_simpl. split.
  - rewrite tex_blit_other by (cbn; intuition congruence).
    by apply splat_draw.
  - rewrite (splat_draw _ d2 d1 _ _ _ _ _ _ _ (blit_live _ _ _ _ _ _ Hdw)).
    rewrite tex_blit_other by (cbn; intuition congruence). done.
Qed.

(** C6.  From a well-formed state, a splat adds to every velocity cell
    the impulse weighted by [exp(-|p|^2 / radius)], where [p] is the
    cell's offset from the splat point with its x-component multiplied
    by the aspect ratio; two splats at the same point with impulses
    [I1] and [I2] leave the same velocity field as one splat with
    impulse [I1 + I2], and the dye field behaves alike when the colours
    add up. *)
Theorem splat_impulses_add (x y dx1 dy1 dx2 dy2 : Qc) (c1 c2 c : Fluid.Color)
    (s : Fluid.Sim) :
  wf s = true ->
  velocity_field (Fluid.splat x y dx2 dy2 c2 (Fluid.splat x y dx1 dy1 c1 s))
  = velocity_field (Fluid.splat x y (dx1 + dx2) (dy1 + dy2) c s) /\
  (Fluid.r c = Fluid.r c1 + Fluid.r c2 -> Fluid.g c = Fluid.g c1 + Fluid.g c2 ->
   Fluid.b c = Fluid.b c1 + Fluid.b c2 ->
   dye_field (Fluid.splat x y dx2 dy2 c2 (Fluid.splat x y dx1 dy1 c1 s))
   = dye_field (Fluid.splat x y (dx1 + dx2) (dy1 + dy2) c s)) /\
  (forall i j : nat, (i < sim_width s)%nat -> (j < sim_height s)%nat ->
     let uv := center (sim_width s) (sim_height s) i j in
     let px := (x2 uv - x) * Fluid.aspect (Fluid.canvas s) in
     let py := y2 uv - y in
     let k := gl_exp (- (px * px + py * py)
                      / (Fluid.SPLAT_RADIUS (Fluid.config s) / Qc_of_Z 100)) in
     let base := texel (velocity_field s) (Z.of_nat i) (Z.of_nat j) in
     texel (velocity_field (Fluid.splat x y dx1 dy1 c1 s)) (Z.of_nat i) (Z.of_nat j)
     = Vec4 (vx base + k * dx1) (vy base + k * dy1) (vz base + k * 0) 1).
Proof.
  intros Hwf%wf_iff.
  pose proof (splat_wf x y dx1 dy1 c1 s Hwf) as Hwf1.
  destruct (splat_fields x y dx1 dy1 c1 s Hwf) as [Hv1 Hd1].
  destruct (splat_fields x y dx2 dy2 c2 _ Hwf1) as [Hv2 Hd2].
  destruct (splat_fields x y (dx1 + dx2) (dy1 + dy2) c s Hwf) as [Hv Hd].
  cbv zeta in *.
  assert (Hsame : sim_width (Fluid.splat x y dx1 dy1 c1 s) = sim_width s /\
                  sim_height (Fluid.splat x y dx1 dy1 c1 s) = sim_height s /\
                  dye_width (Fluid.splat x y dx1 dy1 c1 s) = dye_width s /\
                  dye_height (Fluid.splat x y dx1 dy1 c1 s) = dye_height s /\
                  filterType (Fluid.splat x y dx1 dy1 c1 s) = filterType s /\
                  Fluid.canvas (Fluid.splat x y dx1 dy1 c1 s) = Fluid.canvas s /\
                  Fluid.config (Fluid.splat x y dx1 dy1 c1 s) = Fluid.config s)
    by (by destruct s).
  destruct Hsame as (Hsw & Hsh & Hdw & Hdh & Hft & Hcv & Hcf).
  rewrite Hsw, Hsh, Hdw, Hdh, Hft, Hcv, Hcf in *.
  destruct Hwf as [_ _ _ Hldr _ Hlvr _ _ _ _ _].
  pose proof (live_tex _ _ _ _ _ Hlvr) as (_ & Hwv & Hhv & _ & _).
  pose proof (live_tex _ _ _ _ _ Hldr) as (_ & Hwd & Hhd & _ & _).
  fold (velocity_field s) in Hwv, Hhv. fold (dye_field s) in Hwd, Hhd.
  split_and!.
  - rewrite Hv2, Hv. f_equal. apply raster_ext. intros i j Hi Hj.
    rewrite !(splat_cell _ _ _ _ _ _ (sim_width s) (sim_height s) i j)
      by (done || by rewrite Hv1).
    rewrite Hv1, texel_raster by done.
    rewrite (splat_cell _ _ _ _ _ _ (sim_width s) (sim_height s) i j) by done.
    cbn [vx vy vz x3 y3 z3]. f_equal; ring.
  - intros Hr Hg Hb'. rewrite Hd2, Hd. f_equal. apply raster_ext. intros i j Hi Hj.
    rewrite !(splat_cell _ _ _ _ _ _ (dye_width s) (dye_height s) i j)
      by (done || by rewrite Hd1).
    rewrite Hd1, texel_raster by done.
    rewrite (splat_cell _ _ _ _ _ _ (dye_width s) (dye_height s) i j) by done.
    cbn [vx vy vz x3 y3 z3]. rewrite Hr, Hg, Hb'. f_equal; ring.
  - intros i j Hi Hj. cbv zeta. rewrite Hv1, texel_raster by done.
    by rewrite (splat_cell _ _ _ _ _ _ (sim_width s) (sim_height s) i j).
Qed.

(** C7 (amended).  Every [splat] issues two splat draws, velocity
    first and dye second, whose [radius] uniform is
    [SPLAT_RADIUS / 100] whatever the shape of the canvas, and whose
    [aspectRatio] uniform is [canvas.width / canvas.height]; the shader
    multiplies only the x-component of the offset from the splat point
    by that aspect ratio before the Gaussian falloff. *)
Theorem splat_radius_ignores_aspect (x y dx dy : Qc) (color : Fluid.Color)
    (s : Fluid.Sim) :
  let radius := Fluid.SPLAT_RADIUS (Fluid.config s) / Qc_of_Z 100 in
  let asp := Fluid.aspect (Fluid.canvas s) in
  draws (Fluid.gl (Fluid.splat x y dx dy color s))
  = draws (Fluid.gl s)
    ++ [ DrawSplat (Fluid.write (Fluid.velocity s)) (Fluid.read (Fluid.velocity s))
                   asp (Vec3 dx dy 0) (Vec2 x y) radius;
         DrawSplat (Fluid.write (Fluid.density s)) (Fluid.read (Fluid.density s))
                   asp (Vec3 (Fluid.r color) (Fluid.g color) (Fluid.b color))
                   (Vec2 x y) radius ] /\
  (forall canvas',
     map radius_of (splat_draws x y dx dy color
                      (Fluid.MkSim canvas' (Fluid.ext s) (Fluid.config s) (Fluid.gl s)
                         (Fluid.simRes s) (Fluid.dyeRes s) (Fluid.density s)
                         (Fluid.velocity s) (Fluid.divergence s) (Fluid.curl s)
                         (Fluid.pressure s) (Fluid.pointer s) (Fluid.lastTime s)))
     = [Some radius; Some radius]) /\
  (forall uTarget aspectRatio c point r v,
     Fluid.splatShader uTarget aspectRatio c point r v
     = let px := (x2 (vUv v) - x2 point) * aspectRatio in
       let py := y2 (vUv v) - y2 point in
       let k := gl_exp (- (px * px + py * py) / r) in
       let base := texture2D uTarget (vUv v) in
       Vec4 (vx base + k * x3 c) (vy base + k * y3 c) (vz base + k * z3 c) 1).
Proof.
  cbv zeta. split_and!.
  - rewrite splat_eq. destruct s. cbn -[run_draws]. by rewrite draws_run_draws.
  - done.
  - done.
Qed.

End SplatClaims.

(** C7, as stated, fails: on a 4 x 2 canvas (aspect ratio 2) with the
    configured radius 0.12 both splat draws use the radius 0.0012,
    which is neither the configured radius scaled by the aspect ratio
    nor the radius actually passed scaled by it. *)
Lemma splat_radius_not_scaled_by_aspect :
  let s := small_sim 4 2 1 1 in
  let s' := @Fluid.splat approx_builtins (dec 1 2) (dec 1 2) 1 0 (Fluid.MkColor 1 1 1) s in
  let ctx := Utils.MkContext 4 2 in
  Fluid.aspect (Fluid.canvas s) = Qc_of_Z 2 /\
  Fluid.SPLAT_RADIUS (Fluid.config s) = dec 12 100 /\
  map radius_of (draws (Fluid.gl s')) = [Some (dec 12 10000); Some (dec 12 10000)] /\
  dec 12 10000 <> Utils.correctRadius ctx (Fluid.SPLAT_RADIUS (Fluid.config s)) /\
  dec 12 10000
  <> Utils.correctRadius ctx (Fluid.SPLAT_RADIUS (Fluid.config s) / Qc_of_Z 100).
Proof.
  cbv zeta. split_and!; apply (bool_decide_unpack _); by vm_compute.
Qed.

Lemma splat_impulses_add_witness :
  velocity_field
    (@Fluid.splat approx_builtins (dec 1 2) (dec 1 2) 0 1 (Fluid.MkColor 0 1 0)
       (@Fluid.splat approx_builtins (dec 1 2) (dec 1 2) 1 0 (Fluid.MkColor 1 0 0)
          (small_sim 4 2 1 1)))
  = velocity_field
      (@Fluid.splat approx_builtins (dec 1 2) (dec 1 2) (1 + 0) (0 + 1)
         (Fluid.MkColor 1 1 0) (small_sim 4 2 1 1)).
Proof.
  destruct (@splat_impulses_add approx_builtins (dec 1 2) (dec 1 2) 1 0 0 1
              (Fluid.MkColor 1 0 0) (Fluid.MkColor 0 1 0) (Fluid.MkColor 1 1 0)
              (small_sim 4 2 1 1)) as (Hv & _); [by vm_compute|].
  exact Hv.
Defined.

(** * Further properties of the driver *)

(** ** Allocation *)

Section Allocation.
Context `{Builtins}.

Lemma replicate_shaped (w h : nat) (p : filter) :
  shaped (MkFBO w h p (replicate h (replicate w vec4_zero))) = true.
Proof.
  unfold shaped. cbn. rewrite length_replicate, Nat.eqb_refl. cbn.
  apply forallb_forall. intros row Hin%list_elem_of_In%elem_of_replicate.
  destruct Hin as [-> _]. rewrite length_replicate. apply Nat.eqb_refl.
Qed.

Lemma Qcround_nonneg (q : Qc) : 0 <= q -> (0 <= Qcround q)%Z.
Proof.
  intros Hq. unfold Qcround, Qcfloor.
  change 0%Z with (Qfloor 0). apply Qfloor_resp_le. qc2q. lra.
Qed.

Lemma getResolution_nonneg (cw ch : Z) (resolution : Qc) :
  (0 < cw)%Z -> (0 < ch)%Z -> 0 <= resolution ->
  let r := Fluid.getResolution (Fluid.MkCanvas cw ch) resolution in
  (0 <= Fluid.res_width r)%Z /\ (0 <= Fluid.res_height r)%Z.
Proof.
  intros Hcw Hch Hres. cbv zeta.
  unfold Fluid.getResolution, Fluid.aspect.
  cbn [Fluid.canvas_width Fluid.canvas_height].
  pose proof (Qc_of_Z_pos cw Hcw) as Hcw0. pose proof (Qc_of_Z_pos ch Hch) as Hch0.
  assert (Hr : 0 < Qc_of_Z cw / Qc_of_Z ch).
  { unfold Qcdiv. apply Qcmult_pos_pos; [done|]. by apply Qcinv_pos. }
  destruct (Qclt_le_dec _ 1); cbn [Fluid.res_width Fluid.res_height];
    split; apply Qcround_nonneg; try done.
  - unfold Qcdiv. apply Qcmult_nonneg_nonneg; [done|].
    apply Qclt_le_weak. by apply Qcinv_pos.
  - apply Qcmult_nonneg_nonneg; [done|]. by apply Qclt_le_weak.
Qed.

(** [resizeCanvas] in closed form: eight allocations in a row. *)
Lemma resizeCanvas_eq (cv : Fluid.Canvas) (s : Fluid.Sim) :
  let sr := Fluid.getResolution cv (Fluid.SIM_RESOLUTION (Fluid.config s)) in
  let dr := Fluid.getResolution cv (Fluid.DYE_RESOLUTION (Fluid.config s)) in
  let n := nextId (Fluid.gl s) in
  let zero r p :=
    MkFBO (Z.to_nat (Fluid.res_width r)) (Z.to_nat (Fluid.res_height r)) p
      (replicate (Z.to_nat (Fluid.res_height r))
                 (replicate (Z.to_nat (Fluid.res_width r)) vec4_zero)) in
  Fluid.resizeCanvas cv s =
  Fluid.MkSim cv (Fluid.ext s) (Fluid.config s)
    {| objects :=
         <[S (S (S (S (S (S (S n)))))) := zero sr NEAREST]>
         (<[S (S (S (S (S (S n))))) := zero sr NEAREST]>
         (<[S (S (S (S (S n)))) := zero sr NEAREST]>
         (<[S (S (S (S n))) := zero sr NEAREST]>
         (<[S (S (S n)) := zero sr (filterType s)]>
         (<[S (S n) := zero sr (filterType s)]>
         (<[S n := zero dr (filterType s)]>
         (<[n := zero dr (filterType s)]> (objects (Fluid.gl s)))))))));
       nextId := S (S (S (S (S (S (S (S n)))))));
       BLEND := BLEND (Fluid.gl s);
       draws := draws (Fluid.gl s) |}
    sr dr
    (Fluid.MkDoubleFBO n (S n))
    (Fluid.MkDoubleFBO (S (S n)) (S (S (S n))))
    (S (S (S (S n)))) (S (S (S (S (S n)))))
    (Fluid.MkDoubleFBO (S (S (S (S (S (S n)))))) (S (S (S (S (S (S (S n))))))))
    (Fluid.pointer s) (Fluid.lastTime s).
Proof. reflexivity. Qed.

(** [resizeCanvas] leaves a well-formed state. *)
Lemma resizeCanvas_wf (cw ch : Z) (s : Fluid.Sim) :
  (0 < cw)%Z -> (0 < ch)%Z -> 0 <= Fluid.SIM_RESOLUTION (Fluid.config s) ->
  wf_facts (Fluid.resizeCanvas (Fluid.MkCanvas cw ch) s).
Proof.
  intros Hcw Hch Hres.
  destruct (getResolution_nonneg cw ch _ Hcw Hch Hres) as [Hw Hh]. cbv zeta in Hw, Hh.
  pose proof (resizeCanvas_eq (Fluid.MkCanvas cw ch) s) as Heq. cbv beta zeta in Heq.
  set (s' := Fluid.resizeCanvas (Fluid.MkCanvas cw ch) s) in *.
  set (sr := Fluid.getResolution _ (Fluid.SIM_RESOLUTION _)) in *.
  set (dr := Fluid.getResolution _ (Fluid.DYE_RESOLUTION _)) in *.
  set (n := nextId (Fluid.gl s)) in *.
  set (zv := MkFBO (Z.to_nat (Fluid.res_width sr)) _ (filterType s) _) in Heq.
  set (zn := MkFBO (Z.to_nat (Fluid.res_width sr)) _ NEAREST _) in Heq.
  set (zd := MkFBO (Z.to_nat (Fluid.res_width dr)) _ (filterType s) _) in Heq.
  assert (Hlive : forall (m : gmap nat FBO) r (t : FBO) g,
             objects g = m -> m !! r = Some t ->
             shaped t = true ->
             live g r (width t) (height t) (param t) = true).
  { intros m r t g <- Hr Hs. unfold live. rewrite Hr.
    rewrite !Nat.eqb_refl, Hs. cbn. by rewrite bool_decide_eq_true_2. }
  assert (Hzv : shaped zv = true) by apply replicate_shaped.
  assert (Hzn : shaped zn = true) by apply replicate_shaped.
  assert (Hzd : shaped zd = true) by apply replicate_shaped.
  clearbody s'. subst s'.
  constructor; sim_simpl; try done.
  - repeat (apply NoDup_cons; split; [set_solver by lia|]). apply NoDup_nil_2.
  - apply (Hlive _ _ zd _ eq_refl); [cbn [objects]|done].
    rewrite !(lookup_insert_ne _ (S _)) by lia. by rewrite lookup_insert_eq.
  - apply (Hlive _ _ zd _ eq_refl); [cbn [objects]|done].
    rewrite !(lookup_insert_ne _ (S (S _))) by lia. by rewrite lookup_insert_eq.
  - apply (Hlive _ _ zv _ eq_refl); [cbn [objects]|done].
    rewrite !(lookup_insert_ne _ (S (S (S _)))) by lia. by rewrite lookup_insert_eq.
  - apply (Hlive _ _ zv _ eq_refl); [cbn [objects]|done].
    rewrite !(lookup_insert_ne _ (S (S (S (S _))))) by lia. by rewrite lookup_insert_eq.
  - apply (Hlive _ _ zn _ eq_refl); [cbn [objects]|done].
    rewrite !(lookup_insert_ne _ (S (S (S (S (S _)))))) by lia.
    by rewrite lookup_insert_eq.
  - apply (Hlive _ _ zn _ eq_refl); [cbn [objects]|done].
    rewrite !(lookup_insert_ne _ (S (S (S (S (S (S _))))))) by lia.
    by rewrite lookup_insert_eq.
  - apply (Hlive _ _ zn _ eq_refl); [cbn [objects]|done].
    rewrite !(lookup_insert_ne _ (S (S (S (S (S (S (S _)))))))) by lia.
    by rewrite lookup_insert_eq.
  - apply (Hlive _ _ zn _ eq_refl); [cbn [objects]|done]. by rewrite lookup_insert_eq.
Qed.

Lemma getResolution_pos (cw ch : Z) (resolution : Qc) :
  (0 < cw)%Z -> (0 < ch)%Z -> dec 1 2 <= resolution ->
  let r := Fluid.getResolution (Fluid.MkCanvas cw ch) resolution in
  (1 <= Fluid.res_width r)%Z /\ (1 <= Fluid.res_height r)%Z.
Proof.
  intros Hcw Hch Hres. cbv zeta.
  assert (Hone : forall q, resolution <= q -> (1 <= Qcround q)%Z).
  { intros q Hq. change 1%Z with (Qcround (dec 1 2)).
    apply Qcround_mono. by apply Qcle_trans with resolution. }
  assert (Hres0 : 0 <= resolution).
  { apply Qcle_trans with (dec 1 2); [by apply (bool_decide_unpack _)|done]. }
  pose proof (Qc_of_Z_neq0 cw Hcw) as Hcw0.
  pose proof (Qc_of_Z_neq0 ch Hch) as Hch0.
  unfold Fluid.getResolution, Fluid.aspect.
  cbn [Fluid.canvas_width Fluid.canvas_height].
  destruct (Qclt_le_dec (Qc_of_Z cw / Qc_of_Z ch) 1) as [Hlt|Hge];
    cbn [Fluid.res_width Fluid.res_height]; split; apply Hone;
    try apply Qcle_refl.
  - apply (proj1 (ratio_lt_1 cw ch Hcw Hch)) in Hlt.
    replace (resolution / (Qc_of_Z cw / Qc_of_Z ch))
      with (resolution * (Qc_of_Z ch / Qc_of_Z cw)) by (by field).
    apply grow_by_ratio; [done|]. apply ratio_ge_1; lia.
  - by apply grow_by_ratio.
Qed.

(** X1.  [resizeCanvas] on a canvas with positive sides, with
    [SIM_RESOLUTION] and [DYE_RESOLUTION] of at least one half (so
    that every side of every grid rounds to at least one cell), yields
    a well-formed state: it allocates eight new objects, pairwise
    distinct, of the sizes [getResolution] derives, every grid has at
    least one cell along each side, and every field starts out zero
    whatever the fields held before. *)
Theorem resizeCanvas_allocates_fresh_zero_fields (cw ch : Z) (s : Fluid.Sim) :
  (0 < cw)%Z -> (0 < ch)%Z ->
  dec 1 2 <= Fluid.SIM_RESOLUTION (Fluid.config s) ->
  dec 1 2 <= Fluid.DYE_RESOLUTION (Fluid.config s) ->
  let s' := Fluid.resizeCanvas (Fluid.MkCanvas cw ch) s in
  let zero w h := MkFBO w h (filterType s) (replicate h (replicate w vec4_zero)) in
  wf s' = true /\
  nextId (Fluid.gl s') = (nextId (Fluid.gl s) + 8)%nat /\
  sim_refs s' = seq (nextId (Fluid.gl s)) 8 /\
  Fluid.simRes s' = Fluid.getResolution (Fluid.MkCanvas cw ch)
                      (Fluid.SIM_RESOLUTION (Fluid.config s)) /\
  Fluid.dyeRes s' = Fluid.getResolution (Fluid.MkCanvas cw ch)
                      (Fluid.DYE_RESOLUTION (Fluid.config s)) /\
  (0 < sim_width s')%nat /\ (0 < sim_height s')%nat /\
  (0 < dye_width s')%nat /\ (0 < dye_height s')%nat /\
  velocity_field s' = zero (sim_width s') (sim_height s') /\
  dye_field s' = zero (dye_width s') (dye_height s') /\
  data (pressure_field s')
    = replicate (sim_height s') (replicate (sim_width s') vec4_zero) /\
  Fluid.config s' = Fluid.config s /\
  draws (Fluid.gl s') = draws (Fluid.gl s).
Proof.
  intros Hcw Hch Hsim Hdye s' zero.
  assert (Hres : 0 <= Fluid.SIM_RESOLUTION (Fluid.config s)).
  { apply Qcle_trans with (dec 1 2); [by apply (bool_decide_unpack _)|done]. }
  pose proof (resizeCanvas_wf cw ch s Hcw Hch Hres) as Hwf. fold s' in Hwf.
  destruct (getResolution_pos cw ch _ Hcw Hch Hsim) as [Hsw Hsh].
  destruct (getResolution_pos cw ch _ Hcw Hch Hdye) as [Hdw Hdh].
  cbv zeta in Hsw, Hsh, Hdw, Hdh.
  pose proof (resizeCanvas_eq (Fluid.MkCanvas cw ch) s) as Heq. cbv beta zeta in Heq.
  fold s' in Heq.
  set (sr := Fluid.getResolution _ (Fluid.SIM_RESOLUTION _)) in *.
  set (dr := Fluid.getResolution _ (Fluid.DYE_RESOLUTION _)) in *.
  set (n := nextId (Fluid.gl s)) in *.
  clearbody s'. subst s'. unfold zero.
  split_and!.
  - by apply wf_iff.
  - cbn. lia.
  - reflexivity.
  - reflexivity.
  - reflexivity.
  - sim_simpl. clear -Hsw. lia.
  - sim_simpl. clear -Hsh. lia.
  - sim_simpl. clear -Hdw. lia.
  - sim_simpl. clear -Hdh. lia.
  - sim_simpl. unfold tex. cbn [objects].
    rewrite !(lookup_insert_ne _ (S (S (S _)))) by lia. by rewrite lookup_insert_eq.
  - sim_simpl. unfold tex. cbn [objects].
    rewrite !(lookup_insert_ne _ (S _)) by lia. by rewrite lookup_insert_eq.
  - sim_simpl. unfold tex. cbn [objects].
    rewrite !(lookup_insert_ne _ (S (S (S (S (S (S (S _)))))))) by lia.
    by rewrite lookup_insert_eq.
  - reflexivity.
  - reflexivity.
Qed.

End Allocation.

Lemma resizeCanvas_allocates_fresh_zero_fields_witness :
  wf (Fluid.resizeCanvas (Fluid.MkCanvas 2 1) (small_sim 4 2 1 1)) = true /\
  nextId (Fluid.gl (Fluid.resizeCanvas (Fluid.MkCanvas 2 1) (small_sim 4 2 1 1)))
  = (nextId (Fluid.gl (small_sim 4 2 1 1)) + 8)%nat.
Proof.
  destruct (resizeCanvas_allocates_fresh_zero_fields 2 1 (small_sim 4 2 1 1))
    as (Hwf & Hn & _);
    [lia | lia | apply (bool_decide_unpack _); by vm_compute
    | apply (bool_decide_unpack _); by vm_compute |].
  split; [exact Hwf | exact Hn].
Defined.

(** ** The frame invariant *)

Section FrameInvariant.
Context `{Builtins}.

Lemma multipleSplats_wf rnd (s : Fluid.Sim) :
  wf_facts s -> wf_facts (Fluid.multipleSplats rnd s).
Proof.
  revert s. induction rnd as [|rs rnd IH]; intros s Hwf; [done|].
  cbn. apply IH. by apply splat_wf.
Qed.

End FrameInvariant.

(** ** Whole-field predicates *)

Lemma all_texels_texel (P : vec4 -> bool) (t : FBO) (i j : Z) :
  shaped t = true -> (0 < width t)%nat -> (0 < height t)%nat ->
  all_texels P t = true -> P (texel t i j) = true.
Proof.
  intros Hs Hw Hh Hall. pose proof (shaped_spec t Hs) as [Hlen Hrows].
  unfold all_texels in Hall. rewrite forallb_forall in Hall. unfold texel.
  set (b := Z.to_nat (clampZ 0 (Z.of_nat (height t) - 1) j)).
  set (a := Z.to_nat (clampZ 0 (Z.of_nat (width t) - 1) i)).
  assert (Hb : (b < height t)%nat) by (unfold b, clampZ; lia).
  assert (Ha : (a < width t)%nat) by (unfold a, clampZ; lia).
  assert (Hrow : In (nth b (data t) []) (data t)) by (apply nth_In; lia).
  specialize (Hall _ Hrow). rewrite forallb_forall in Hall.
  apply Hall, nth_In. rewrite Hrows by done. done.
Qed.

Lemma raster_all_texels (P : vec4 -> bool) w h p ts f :
  (forall i j, (i < w)%nat -> (j < h)%nat ->
     P (f (baseVertexShader ts (center w h i j))) = true) ->
  all_texels P (MkFBO w h p (raster w h ts f)) = true.
Proof.
  intros Hf. unfold all_texels, raster. cbn [data]. apply forallb_forall.
  intros row (j & <- & Hj%in_seq)%in_map_iff. apply forallb_forall.
  intros c (i & <- & Hi%in_seq)%in_map_iff. apply Hf; lia.
Qed.

Lemma x_is_texel c t i j :
  shaped t = true -> (0 < width t)%nat -> (0 < height t)%nat ->
  x_is c t = true -> vx (texel t i j) = c.
Proof.
  intros Hs Hw Hh Hx.
  exact (bool_decide_eq_true_1 _ (all_texels_texel _ t i j Hs Hw Hh Hx)).
Qed.

Lemma velocity_is_texel a b t i j :
  shaped t = true -> (0 < width t)%nat -> (0 < height t)%nat ->
  velocity_is a b t = true -> vx (texel t i j) = a /\ vy (texel t i j) = b.
Proof.
  intros Hs Hw Hh Hx.
  exact (bool_decide_eq_true_1 _ (all_texels_texel _ t i j Hs Hw Hh Hx)).
Qed.

Lemma velocity_is_zero t : velocity_is 0 0 t = is_zero_velocity t.
Proof. reflexivity. Qed.

(** ** Stage by stage *)

Section Stages.
Context `{Builtins}.

(** A draw of the driver into a live target, blending off. *)
Lemma draw_fields (s : Fluid.Sim) (d : DrawCall) (t : nat) w h p :
  wf_facts s -> BLEND (Fluid.gl s) = false -> target_of d = Some t ->
  live (Fluid.gl s) t w h p = true ->
  let s' := Fluid.draw s d in
  tex (Fluid.gl s') t
    = MkFBO w h p (raster w h (Fluid.texelSize_of d) (Fluid.fragment (Fluid.gl s) d)) /\
  (forall r, r <> t -> tex (Fluid.gl s') r = tex (Fluid.gl s) r) /\
  BLEND (Fluid.gl s') = false /\ wf_facts s'.
Proof.
  intros Hwf Hb Ht Hl. cbv zeta.
  pose proof (live_tex _ _ _ _ _ Hl) as (Hot & Hwt & Hht & Hpt & _).
  split_and!.
  - destruct s. sim_simpl.
    erewrite tex_blit_target; [|exact Ht|exact Hot|exact Hb].
    by rewrite Hwt, Hht, Hpt.
  - intros r Hr. destruct s. sim_simpl. apply tex_blit_other. congruence.
  - by destruct s.
  - by apply draw_wf.
Qed.

(** The divergence stage writes zero wherever it runs on a uniform
    velocity field, and so does the curl stage. *)
Lemma uniform_velocity_cells a b (vel : FBO) ts (w h i j : nat) :
  shaped vel = true -> matches vel w h ts -> velocity_is a b vel = true ->
  (i < w)%nat -> (j < h)%nat ->
  Fluid.divergenceShader vel (baseVertexShader ts (center w h i j)) = Vec4 0 0 0 1 /\
  Fluid.curlShader vel (baseVertexShader ts (center w h i j)) = Vec4 0 0 0 1.
Proof.
  intros Hs Hm Hu Hi Hj. pose proof Hm as (Hw & Hh & _).
  assert (Hx : forall i j, vx (texel vel i j) = a /\ vy (texel vel i j) = b).
  { intros. apply velocity_is_texel; (done || lia). }
  rewrite (divergence_cell w h ts i j), (curl_cell w h ts i j) by done.
  repeat match goal with
         | |- context [texel vel ?u ?v] =>
             let Hu := fresh in let Hv := fresh in
             destruct (Hx u v) as [Hu Hv]; rewrite ?Hu, ?Hv; clear Hu Hv
         end.
  split; f_equal; ring.
Qed.

(** The vorticity shader adds no force where the magnitude of the curl
    is the same in the four neighbouring cells. *)
Lemma vorticity_cell_balanced (vel cu : FBO) curl dt ts (w h i j : nat) :
  matches vel w h ts -> matches cu w h ts -> (i < w)%nat -> (j < h)%nat ->
  Qcabs (vx (texel cu (Z.of_nat i) (Z.of_nat j + 1)))
    = Qcabs (vx (texel cu (Z.of_nat i) (Z.of_nat j - 1))) ->
  Qcabs (vx (texel cu (Z.of_nat i + 1) (Z.of_nat j)))
    = Qcabs (vx (texel cu (Z.of_nat i - 1) (Z.of_nat j))) ->
  Fluid.vorticityShader vel cu curl dt (baseVertexShader ts (center w h i j))
  = Vec4 (vx (texel vel (Z.of_nat i) (Z.of_nat j)))
         (vy (texel vel (Z.of_nat i) (Z.of_nat j))) 0 1.
Proof.
  intros Hv Hc Hi Hj HTB HRL. unfold Fluid.vorticityShader.
  rewrite (sample_vL cu w h ts i j), (sample_vR cu w h ts i j),
    (sample_vT cu w h ts i j), (sample_vB cu w h ts i j),
    (sample_vUv cu w h ts i j), (sample_vUv vel w h ts i j) by done.
  rewrite HTB, HRL. cbv zeta. cbn [x2 y2].
  match goal with |- context [gl_sqrt ?e] => generalize (gl_sqrt e) end.
  intros len. unfold Qcdiv. f_equal; ring.
Qed.

End Stages.

Section Rest.
Context `{Builtins}.

Lemma run_draws_other ds gl r :
  Forall (fun d => target_of d <> Some r) ds ->
  objects (run_draws ds gl) !! r = objects gl !! r.
Proof.
  revert gl. induction ds as [|d ds IH]; intros gl Hall; [done|].
  inversion Hall; subst. cbn. unfold run_draws in IH. rewrite IH by done.
  by apply blit_other.
Qed.

Lemma pressure_draws_targets n pr pw div ts :
  Forall (fun d => target_of d = Some pr \/ target_of d = Some pw)
         (pressure_draws n (Fluid.MkDoubleFBO pr pw) div ts).
Proof.
  revert pr pw. induction n as [|n IH]; intros pr pw; [constructor|].
  cbn. constructor; [by right|].
  eapply Forall_impl; [apply IH|]. cbn. tauto.
Qed.

Lemma project_eq (s : Fluid.Sim) :
  let n := trips (Fluid.PRESSURE_ITERATIONS (Fluid.config s)) in
  project s =
  Fluid.MkSim (Fluid.canvas s) (Fluid.ext s) (Fluid.config s)
    (run_draws
       ([DrawDivergence (Fluid.divergence s) (Fluid.read (Fluid.velocity s))
                        (Fluid.simTexel s)]
        ++ pressure_draws n (Fluid.pressure s) (Fluid.divergence s) (Fluid.simTexel s)
        ++ [DrawGradientSubtract (Fluid.write (Fluid.velocity s))
              (Fluid.read (Nat.iter n Fluid.swap (Fluid.pressure s)))
              (Fluid.read (Fluid.velocity s)) (Fluid.simTexel s)])
       (Fluid.gl s))
    (Fluid.simRes s) (Fluid.dyeRes s) (Fluid.density s)
    (Fluid.swap (Fluid.velocity s)) (Fluid.divergence s) (Fluid.curl s)
    (Nat.iter n Fluid.swap (Fluid.pressure s)) (Fluid.pointer s) (Fluid.lastTime s).
Proof.
  cbv zeta. unfold project, Fluid.gradientSubtractStage, Fluid.pressureSolve.
  rewrite pressure_loop_eq, !run_draws_app.
  destruct s as [cv ex c g sr dr [d1 d2] [v1 v2] dv cu p po lt]. reflexivity.
Qed.

(** The projection stages never touch the dye. *)
Lemma project_dye (s : Fluid.Sim) :
  wf_facts s -> dye_field (project s) = dye_field s.
Proof.
  intros Hwf. pose proof (wf_distinct s Hwf) as Hd. cbv zeta in Hd.
  rewrite project_eq. unfold dye_field, tex.
  cbn [Fluid.gl Fluid.density]. rewrite run_draws_other; [done|].
  apply Forall_app. split; [|apply Forall_app; split].
  - constructor; [|constructor]. cbn. intuition congruence.
  - destruct (Fluid.pressure s) as [pr pw] eqn:Hp.
    eapply Forall_impl; [apply pressure_draws_targets|].
    cbn. intros d [-> | ->]; cbn in Hd; intuition congruence.
  - constructor; [|constructor]. cbn. intuition congruence.
Qed.

Lemma set_BLEND_fields (s : Fluid.Sim) b :
  let s' := Fluid.set_gl s (Fluid.set_BLEND b (Fluid.gl s)) in
  velocity_field s' = velocity_field s /\ dye_field s' = dye_field s /\
  pressure_field s' = pressure_field s /\ Fluid.config s' = Fluid.config s /\
  BLEND (Fluid.gl s') = b.
Proof. by destruct s. Qed.

(** Curl and vorticity confinement on a fluid at rest. *)
Lemma curl_vorticity_at_rest dt (s : Fluid.Sim) :
  wf_facts s -> BLEND (Fluid.gl s) = false ->
  is_zero_velocity (velocity_field s) = true ->
  let s' := Fluid.vorticityStage dt (Fluid.curlStage s) in
  is_zero_velocity (velocity_field s') = true /\
  dye_field s' = dye_field s /\ pressure_field s' = pressure_field s /\
  Fluid.config s' = Fluid.config s /\ wf_facts s' /\ BLEND (Fluid.gl s') = false.
Proof.
  intros Hwf Hb Hz. cbv zeta.
  pose proof (wf_distinct s Hwf) as Hd. cbv zeta in Hd.
  pose proof (simTexel_matches s Hwf) as Hts.
  pose proof (wf_curl s Hwf) as Hlc. pose proof (wf_vr s Hwf) as Hlvr.
  pose proof (live_tex _ _ _ _ _ Hlvr) as (_ & Hwv & Hhv & _ & Hsv).
  destruct (draw_fields s (DrawCurl (Fluid.curl s) (Fluid.read (Fluid.velocity s))
                                    (Fluid.simTexel s)) _ _ _ _ Hwf Hb eq_refl Hlc)
    as (Hc1 & Hoth1 & Hb1 & Hwf1).
  fold (Fluid.curlStage s) in *. set (s1 := Fluid.curlStage s) in *.
  assert (Hsame1 : Fluid.velocity s1 = Fluid.velocity s /\ Fluid.curl s1 = Fluid.curl s
                   /\ Fluid.simTexel s1 = Fluid.simTexel s
                   /\ Fluid.config s1 = Fluid.config s
                   /\ Fluid.density s1 = Fluid.density s
                   /\ Fluid.pressure s1 = Fluid.pressure s
                   /\ sim_width s1 = sim_width s /\ sim_height s1 = sim_height s
                   /\ filterType s1 = filterType s) by (by destruct s).
  destruct Hsame1 as (Hv1 & Hcu1 & Hts1 & Hcf1 & Hde1 & Hpr1 & Hsw1 & Hsh1 & Hft1).
  pose proof (wf_vw s1 Hwf1) as Hlvw1. rewrite Hv1, Hsw1, Hsh1, Hft1 in Hlvw1.
  destruct (draw_fields s1
              (DrawVorticity (Fluid.write (Fluid.velocity s)) (Fluid.read (Fluid.velocity s))
                 (Fluid.curl s) (Fluid.simTexel s) (Fluid.CURL (Fluid.config s)) dt)
              _ _ _ _ Hwf1 Hb1 eq_refl Hlvw1) as (Hv2 & Hoth2 & Hb2 & Hwf2).
  assert (Hstage : Fluid.vorticityStage dt s1
            = Fluid.set_velocity
                (Fluid.draw s1
                   (DrawVorticity (Fluid.write (Fluid.velocity s))
                      (Fluid.read (Fluid.velocity s)) (Fluid.curl s)
                      (Fluid.simTexel s) (Fluid.CURL (Fluid.config s)) dt))
                (Fluid.swap (Fluid.velocity s))) by (by destruct s).
  rewrite Hstage.
  set (s2 := Fluid.draw s1 _) in *.
  assert (Hfields : forall d, velocity_field (Fluid.set_velocity s2 (Fluid.swap d))
                              = tex (Fluid.gl s2) (Fluid.write d) /\
                    dye_field (Fluid.set_velocity s2 (Fluid.swap d)) = dye_field s2 /\
                    pressure_field (Fluid.set_velocity s2 (Fluid.swap d)) = pressure_field s2 /\
                    Fluid.config (Fluid.set_velocity s2 (Fluid.swap d)) = Fluid.config s2 /\
                    BLEND (Fluid.gl (Fluid.set_velocity s2 (Fluid.swap d))) = BLEND (Fluid.gl s2)).
  { intros []. by destruct s2. }
  destruct (Hfields (Fluid.velocity s)) as (-> & -> & -> & -> & ->).
  assert (Hproj2 : Fluid.density s2 = Fluid.density s /\ Fluid.pressure s2 = Fluid.pressure s
                   /\ Fluid.config s2 = Fluid.config s /\ Fluid.velocity s2 = Fluid.velocity s)
    by (by destruct s).
  destruct Hproj2 as (Hde2 & Hpr2 & Hcf2 & Hve2).
  split_and!.
  - rewrite Hv2. cbn [Fluid.texelSize_of Fluid.fragment].
    rewrite Hoth1 by intuition congruence. rewrite Hc1.
    cbn [Fluid.texelSize_of Fluid.fragment]. fold (velocity_field s).
    rewrite <- velocity_is_zero. apply raster_all_texels. intros i j Hi Hj.
    set (C := MkFBO (sim_width s) (sim_height s) NEAREST _).
    assert (Hm : matches (velocity_field s) (sim_width s) (sim_height s) (Fluid.simTexel s)).
    { rewrite Hts. by apply matches_intro. }
    assert (Hcm : matches C (sim_width s) (sim_height s) (Fluid.simTexel s)).
    { rewrite Hts. by apply matches_intro. }
    assert (Hcz : forall a b, vx (texel C a b) = 0).
    { intros a b. apply x_is_texel.
      - exact (raster_shaped _ _ _ _ _).
      - exact (Nat.le_lt_trans _ _ _ (Nat.le_0_l i) Hi).
      - exact (Nat.le_lt_trans _ _ _ (Nat.le_0_l j) Hj).
      - apply raster_all_texels. intros i' j' Hi' Hj'.
        destruct (uniform_velocity_cells 0 0 (velocity_field s) (Fluid.simTexel s)
                    (sim_width s) (sim_height s) i' j' Hsv Hm Hz Hi' Hj') as [_ ->].
        by apply bool_decide_eq_true_2. }
    rewrite (vorticity_cell_balanced _ _ _ _ _ (sim_width s) (sim_height s) i j
               Hm Hcm Hi Hj); [|by rewrite !Hcz..].
    destruct (zero_velocity_texel (velocity_field s) (Z.of_nat i) (Z.of_nat j) Hz)
      as [-> ->]. by apply bool_decide_eq_true_2.
  - unfold dye_field. rewrite Hde2, Hoth2, Hoth1; [done| |]; intuition congruence.
  - unfold pressure_field. rewrite Hpr2, Hoth2, Hoth1; [done| |]; intuition congruence.
  - done.
  - by apply swap_velocity_wf in Hwf2; rewrite Hve2 in Hwf2.
  - done.
Qed.

End Rest.

Section AtRest.
Context `{Builtins}.

Lemma advect_frame dt (s : Fluid.Sim) :
  wf_facts s ->
  dye_field (Fluid.advectVelocity dt s) = dye_field s /\
  pressure_field (Fluid.advectVelocity dt s) = pressure_field s /\
  pressure_field (Fluid.advectDensity dt s) = pressure_field s.
Proof.
  intros Hwf. pose proof (wf_distinct s Hwf) as Hd. cbv zeta in Hd.
  destruct s as [cv ex c g sr dr [d1 d2] [v1 v2] dv cu [pr pw] po lt].
  unfold Fluid.advectVelocity, Fluid.advectDensity. sim_simpl.
  split_and!; apply tex_blit_other; cbn; intuition congruence.
Qed.

(** One Jacobi sweep keeps a uniform pressure uniform where the
    divergence vanishes. *)
Lemma jacobi_x_is c (div p : FBO) :
  shaped p = true -> shaped div = true ->
  width div = width p -> height div = height p ->
  x_is 0 div = true -> x_is c p = true ->
  x_is c (jacobi div p) = true.
Proof.
  intros Hsp Hsd Hw Hh Hd Hp. unfold x_is, all_texels, jacobi. cbn [data].
  apply forallb_forall. intros row (j & <- & Hj%in_seq)%in_map_iff.
  apply forallb_forall. intros x (i & <- & Hi%in_seq)%in_map_iff.
  apply bool_decide_eq_true_2. unfold jacobi_cell. cbn [vx].
  assert (Hwp : (0 < width p)%nat) by lia.
  assert (Hhp : (0 < height p)%nat) by lia.
  rewrite !(x_is_texel c p) by done.
  rewrite (x_is_texel 0 div) by (done || lia).
  apply Qc_is_canon. qc2q. cbn. lra.
Qed.

Lemma iter_jacobi_x_is c (div p : FBO) (n : nat) :
  shaped p = true -> shaped div = true ->
  width div = width p -> height div = height p ->
  x_is 0 div = true -> x_is c p = true ->
  let q := Nat.iter n (jacobi div) p in
  x_is c q = true /\ shaped q = true /\ width q = width p /\ height q = height p.
Proof.
  intros Hsp Hsd Hw Hh Hd Hp. cbv zeta. induction n as [|n (IHx & IHs & IHw & IHh)].
  - done.
  - change (Nat.iter (S n) (jacobi div) p)
      with (jacobi div (Nat.iter n (jacobi div) p)).
    split_and!.
    + apply jacobi_x_is; congruence.
    + apply jacobi_shaped.
    + exact IHw.
    + exact IHh.
Qed.

(** The divergence of a uniform velocity field vanishes. *)
Lemma divergence_field_uniform a b (vel : FBO) :
  shaped vel = true -> velocity_is a b vel = true ->
  x_is 0 (divergence_field vel) = true.
Proof.
  intros Hs Hv. unfold divergence_field. apply raster_all_texels.
  intros i j Hi Hj.
  destruct (uniform_velocity_cells a b vel _ (width vel) (height vel) i j Hs
              (matches_intro vel _ _ eq_refl eq_refl) Hv Hi Hj) as [-> _].
  by apply bool_decide_eq_true_2.
Qed.

(** Subtracting the gradient of a uniform pressure changes no velocity. *)
Lemma gradientSubtract_uniform c (p vel : FBO) (w h : nat) ft :
  shaped p = true -> width p = w -> height p = h ->
  width vel = w -> height vel = h ->
  x_is c p = true -> is_zero_velocity vel = true ->
  is_zero_velocity
    (MkFBO w h ft (raster w h (Vec2 (1 / Qc_of_nat w) (1 / Qc_of_nat h))
                          (Fluid.gradientSubtractShader p vel))) = true.
Proof.
  intros Hs Hwp Hhp Hwv Hhv Hp Hz. rewrite <- velocity_is_zero.
  apply raster_all_texels. intros i j Hi Hj.
  rewrite (gradientSubtract_cell w h _ i j Hi Hj p vel
             (matches_intro p w h Hwp Hhp) (matches_intro vel w h Hwv Hhv)).
  assert (Hwp' : (0 < width p)%nat) by lia.
  assert (Hhp' : (0 < height p)%nat) by lia.
  rewrite !(x_is_texel c p) by done.
  destruct (zero_velocity_texel vel (Z.of_nat i) (Z.of_nat j) Hz) as [-> ->].
  apply bool_decide_eq_true_2. cbn [vx vy]. split; ring.
Qed.

(** X3.  A fluid at rest stays at rest.  From a well-formed state whose
    velocity is zero in every cell and whose pressure is the same in
    every cell, one [step] leaves the velocity zero and the pressure
    unchanged in value, and only multiplies the dye by
    [DENSITY_DISSIPATION]: curl, vorticity confinement, divergence and
    the pressure solve add nothing. *)
Theorem step_keeps_fluid_at_rest (dt c : Qc) (s : Fluid.Sim) :
  wf s = true ->
  is_zero_velocity (velocity_field s) = true ->
  x_is c (pressure_field s) = true ->
  let s' := Fluid.step dt s in
  is_zero_velocity (velocity_field s') = true /\
  x_is c (pressure_field s') = true /\
  dye_field s' = scale_field (Fluid.DENSITY_DISSIPATION (Fluid.config s)) (dye_field s).
Proof.
  intros Hwf%wf_iff Hz Hp. cbv zeta.
  change (Fluid.step dt s)
    with (project (Fluid.advectDensity dt (Fluid.advectVelocity dt
            (Fluid.vorticityStage dt (Fluid.curlStage
               (Fluid.set_gl s (Fluid.set_BLEND false (Fluid.gl s)))))))).
  pose proof (set_BLEND_wf s false Hwf) as Hwf0.
  destruct (set_BLEND_fields s false) as (Hv0 & Hd0 & Hp0 & Hc0 & Hb0).
  set (s0 := Fluid.set_gl s _) in *. clearbody s0.
  rewrite <- Hv0 in Hz. rewrite <- Hp0 in Hp. rewrite <- Hd0, <- Hc0.
  clear Hv0 Hd0 Hp0 Hc0 Hwf s.
  destruct (curl_vorticity_at_rest dt s0 Hwf0 Hb0 Hz)
    as (Hz2 & Hd2 & Hp2 & Hc2 & Hwf2 & Hb2).
  set (s2 := Fluid.vorticityStage dt _) in *. clearbody s2.
  rewrite <- Hp2 in Hp. rewrite <- Hd2, <- Hc2. clear Hz Hd2 Hp2 Hc2 Hwf0 Hb0 s0.
  destruct (advectVelocity_fields dt s2 Hwf2 Hb2 Hz2) as (Hv3 & Hc3 & Hwf3 & Hb3).
  destruct (advect_frame dt s2 Hwf2) as (Hd3 & Hp3 & _).
  assert (Hz3 : is_zero_velocity (velocity_field (Fluid.advectVelocity dt s2)) = true).
  { rewrite Hv3. by apply scale_field_zero_velocity. }
  set (s3 := Fluid.advectVelocity dt s2) in *. clearbody s3.
  rewrite <- Hp3 in Hp. rewrite <- Hd3, <- Hc3. clear Hv3 Hz2 Hd3 Hp3 Hc3 Hwf2 Hb2 s2.
  destruct (advectDensity_fields dt s3 Hwf3 Hb3 Hz3) as (Hd4 & Hv4 & Hc4 & Hwf4 & Hb4).
  destruct (advect_frame dt s3 Hwf3) as (_ & _ & Hp4).
  set (s4 := Fluid.advectDensity dt s3) in *. clearbody s4.
  rewrite <- Hv4 in Hz3. rewrite <- Hp4 in Hp. rewrite <- Hd4.
  clear Hd4 Hv4 Hc4 Hp4 Hwf3 Hb3 s3.
  destruct (project_fields s4 Hwf4 Hb4) as (Hp5 & Hwp & Hhp & Hwv & Hhv & Hv5 & _).
  cbv zeta in *.
  pose proof (project_dye s4 Hwf4) as Hd5.
  pose proof (live_tex _ _ _ _ _ (wf_vr s4 Hwf4)) as (_ & _ & _ & _ & Hsv).
  pose proof (live_tex _ _ _ _ _ (wf_pr s4 Hwf4)) as (_ & Hwp4 & Hhp4 & _ & Hsp).
  fold (velocity_field s4) in Hsv. fold (pressure_field s4) in Hsp, Hwp4, Hhp4.
  destruct (iter_jacobi_x_is c (divergence_field (velocity_field s4)) (pressure_field s4)
              (trips (Fluid.PRESSURE_ITERATIONS (Fluid.config s4))))
    as (Hx & Hs & _ & _).
  - exact Hsp.
  - apply raster_shaped.
  - unfold divergence_field. cbn [width]. congruence.
  - unfold divergence_field. cbn [height]. congruence.
  - apply (divergence_field_uniform 0 0); [exact Hsv | exact Hz3].
  - exact Hp.
  - rewrite <- Hp5 in Hx, Hs. split_and!.
    + rewrite Hv5. by apply (gradientSubtract_uniform c).
    + exact Hx.
    + exact Hd5.
Qed.

End AtRest.

Lemma step_keeps_fluid_at_rest_witness :
  is_zero_velocity
    (velocity_field (@Fluid.step approx_builtins (dec 16 1000) still_dye)) = true.
Proof.
  destruct (@step_keeps_fluid_at_rest approx_builtins (dec 16 1000) 0 still_dye)
    as (Hz & _); [by vm_compute | by vm_compute | by vm_compute |].
  exact Hz.
Defined.

(** ** Rendering and blending *)

Section Rendering.
Context `{Builtins}.

(** X4.  [render] draws to the screen only: it writes no framebuffer
    object and changes no buffer, no configuration and no pointer
    state.  All it leaves behind is blending switched on and one
    display draw of the dye the driver currently reads. *)
Theorem render_writes_no_field (s : Fluid.Sim) :
  objects (Fluid.gl (Fluid.render s)) = objects (Fluid.gl s) /\
  (forall r, tex (Fluid.gl (Fluid.render s)) r = tex (Fluid.gl s) r) /\
  sim_refs (Fluid.render s) = sim_refs s /\
  Fluid.config (Fluid.render s) = Fluid.config s /\
  Fluid.pointer (Fluid.render s) = Fluid.pointer s /\
  Fluid.lastTime (Fluid.render s) = Fluid.lastTime s /\
  BLEND (Fluid.gl (Fluid.render s)) = true /\
  draws (Fluid.gl (Fluid.render s))
  = draws (Fluid.gl s) ++ [DrawDisplay (Fluid.read (Fluid.density s))].
Proof. by destruct s. Qed.

(** Every program but the advection program writes alpha 1. *)
Lemma fragment_opaque gl d v :
  stage_of d <> SAdvection -> vw (Fluid.fragment gl d v) = 1.
Proof. by destruct d. Qed.

(** X5.  Blending never alters a draw of an opaque program.  Whatever
    the [BLEND] flag is, a draw of any program other than advection
    into a live, well-shaped target replaces the target's texture by
    the fragment shader's output, the old content not shining
    through: these shaders write alpha 1, and the blend function is
    [ONE, ONE_MINUS_SRC_ALPHA].  So the pointer splats, which are drawn
    while the blending that [render] switched on is still enabled,
    come out as if it were off. *)
Theorem blending_never_alters_opaque_draws
    (d : DrawCall) (gl : GL) (t : ref) (target : FBO) :
  target_of d = Some t -> objects gl !! t = Some target ->
  shaped target = true -> stage_of d <> SAdvection ->
  objects (Fluid.blit d gl)
  = <[t := MkFBO (width target) (height target) (param target)
                 (raster (width target) (height target) (Fluid.texelSize_of d)
                         (Fluid.fragment gl d))]> (objects gl) /\
  objects (Fluid.blit d (Fluid.set_BLEND true gl))
  = objects (Fluid.blit d (Fluid.set_BLEND false gl)).
Proof.
  intros Ht Hr Hs Hd.
  assert (Hb : Fluid.blend
                 (raster (width target) (height target) (Fluid.texelSize_of d)
                         (Fluid.fragment gl d)) (data target)
               = raster (width target) (height target) (Fluid.texelSize_of d)
                        (Fluid.fragment gl d)).
  { apply blend_opaque; [by apply raster_same_shape|].
    apply raster_opaque. intros v. by apply fragment_opaque. }
  assert (Hfrag : forall b, Fluid.fragment (Fluid.set_BLEND b gl) d = Fluid.fragment gl d)
    by (intros b; by destruct d).
  split.
  - unfold Fluid.blit. cbn [objects]. rewrite Ht, Hr.
    destruct (BLEND gl); by rewrite ?Hb.
  - unfold Fluid.blit, Fluid.set_BLEND. cbn [objects BLEND]. rewrite Ht, Hr.
    change (Fluid.fragment _ d)
      with (Fluid.fragment (Fluid.set_BLEND true gl) d) at 1.
    change (Fluid.fragment {| objects := objects gl; nextId := nextId gl;
                              BLEND := false; draws := draws gl |} d)
      with (Fluid.fragment (Fluid.set_BLEND false gl) d).
    rewrite !Hfrag. by rewrite Hb.
Qed.

End Rendering.

Lemma blending_never_alters_opaque_draws_witness :
  objects (@Fluid.blit approx_builtins
             (DrawDivergence (Fluid.divergence two_cells)
                (Fluid.read (Fluid.velocity two_cells)) (Fluid.simTexel two_cells))
             (Fluid.set_BLEND true (Fluid.gl two_cells)))
  = objects (@Fluid.blit approx_builtins
               (DrawDivergence (Fluid.divergence two_cells)
                  (Fluid.read (Fluid.velocity two_cells)) (Fluid.simTexel two_cells))
               (Fluid.set_BLEND false (Fluid.gl two_cells))).
Proof.
  refine (proj2 (@blending_never_alters_opaque_draws approx_builtins
                   (DrawDivergence (Fluid.divergence two_cells)
                      (Fluid.read (Fluid.velocity two_cells))
                      (Fluid.simTexel two_cells))
                   (Fluid.gl two_cells) (Fluid.divergence two_cells)
                   (tex (Fluid.gl two_cells) (Fluid.divergence two_cells))
                   _ _ _ _)).
  - reflexivity.
  - apply (bool_decide_unpack _). by vm_compute.
  - by vm_compute.
  - by vm_compute.
Defined.

(** ** Pointer input and configuration *)

Section Inputs.
Context `{Builtins}.

Lemma splat_frame x y dx dy color (s : Fluid.Sim) :
  Fluid.pointer (Fluid.splat x y dx dy color s) = Fluid.pointer s /\
  Fluid.config (Fluid.splat x y dx dy color s) = Fluid.config s /\
  Fluid.canvas (Fluid.splat x y dx dy color s) = Fluid.canvas s /\
  Fluid.lastTime (Fluid.splat x y dx dy color s) = Fluid.lastTime s.
Proof. rewrite splat_eq. by destruct s. Qed.

(** X6.  [applyInputs] delivers a pointer movement at most once.  It
    does nothing unless the pointer is down and has moved; when it
    does splat, it clears [moved], so that a second call without a new
    move event is the identity.  The impulse of the splat is ten times
    the stored pointer delta, with the y axis flipped. *)
Theorem applyInputs_delivers_a_move_once (s : Fluid.Sim) :
  let p := Fluid.pointer s in
  (Fluid.moved p && Fluid.down p = false -> Fluid.applyInputs s = s) /\
  (Fluid.moved p && Fluid.down p = true ->
     Fluid.applyInputs s
     = Fluid.splat (Fluid.x p / Qc_of_Z (Fluid.canvas_width (Fluid.canvas s)))
         (1 - Fluid.y p / Qc_of_Z (Fluid.canvas_height (Fluid.canvas s)))
         (Qc_of_Z 10 * Fluid.dx p) (- (Qc_of_Z 10 * Fluid.dy p)) (Fluid.color p)
         (Fluid.set_pointer s
            (Fluid.MkPointer (Fluid.x p) (Fluid.y p) (Fluid.dx p) (Fluid.dy p)
                             (Fluid.down p) false (Fluid.color p)))) /\
  Fluid.moved (Fluid.pointer (Fluid.applyInputs s))
    && Fluid.down (Fluid.pointer (Fluid.applyInputs s)) = false /\
  Fluid.applyInputs (Fluid.applyInputs s) = Fluid.applyInputs s /\
  input_draws (Fluid.applyInputs s) = [].
Proof.
  cbv zeta.
  assert (Hafter : Fluid.moved (Fluid.pointer (Fluid.applyInputs s))
                   && Fluid.down (Fluid.pointer (Fluid.applyInputs s)) = false).
  { unfold Fluid.applyInputs.
    destruct (Fluid.moved (Fluid.pointer s) && Fluid.down (Fluid.pointer s)) eqn:Hmd;
      [|exact Hmd].
    destruct (splat_frame
                (Fluid.x (Fluid.pointer s) / Qc_of_Z (Fluid.canvas_width (Fluid.canvas s)))
                (1 - Fluid.y (Fluid.pointer s)
                     / Qc_of_Z (Fluid.canvas_height (Fluid.canvas s)))
                (Qc_of_Z 10 * Fluid.dx (Fluid.pointer s))
                (- (Qc_of_Z 10 * Fluid.dy (Fluid.pointer s)))
                (Fluid.color (Fluid.pointer s))
                (Fluid.set_pointer s
                   (Fluid.MkPointer (Fluid.x (Fluid.pointer s)) (Fluid.y (Fluid.pointer s))
                      (Fluid.dx (Fluid.pointer s)) (Fluid.dy (Fluid.pointer s))
                      (Fluid.down (Fluid.pointer s)) false
                      (Fluid.color (Fluid.pointer s))))) as [Hp _].
    destruct s as [cv ex c g sr dr d v dv cu p po lt]. sim_simpl.
    rewrite Hp. reflexivity. }
  split_and!.
  - intros Hmd. unfold Fluid.applyInputs. by rewrite Hmd.
  - intros Hmd. unfold Fluid.applyInputs. rewrite Hmd.
    by destruct s as [cv ex c g sr dr d v dv cu p po lt].
  - exact Hafter.
  - unfold Fluid.applyInputs at 1. by rewrite Hafter.
  - unfold input_draws. by rewrite Hafter.
Qed.

Lemma splat_set_config x y dx dy color (s : Fluid.Sim) c' :
  Fluid.SPLAT_RADIUS (Fluid.config s) = Fluid.SPLAT_RADIUS c' ->
  Fluid.splat x y dx dy color (Fluid.set_config s c')
  = Fluid.set_config (Fluid.splat x y dx dy color s) c'.
Proof.
  intros Hr. rewrite !splat_eq. unfold splat_draws.
  destruct s as [cv ex c g sr dr d v dv cu p po lt]. sim_simpl.
  cbn [Fluid.config] in Hr. rewrite Hr. reflexivity.
Qed.

Lemma applyInputs_set_config (s : Fluid.Sim) c' :
  Fluid.SPLAT_RADIUS (Fluid.config s) = Fluid.SPLAT_RADIUS c' ->
  Fluid.applyInputs (Fluid.set_config s c')
  = Fluid.set_config (Fluid.applyInputs s) c'.
Proof.
  intros Hr. unfold Fluid.applyInputs.
  replace (Fluid.pointer (Fluid.set_config s c')) with (Fluid.pointer s)
    by (by destruct s).
  replace (Fluid.canvas (Fluid.set_config s c')) with (Fluid.canvas s)
    by (by destruct s).
  destruct (Fluid.moved (Fluid.pointer s) && Fluid.down (Fluid.pointer s)); [|done].
  rewrite <- splat_set_config by (by destruct s). by destruct s.
Qed.

Lemma step_set_config dt (s : Fluid.Sim) c' :
  same_frame_keys (Fluid.config s) c' ->
  Fluid.step dt (Fluid.set_config s c') = Fluid.set_config (Fluid.step dt s) c'.
Proof.
  intros (Hdd & Hvd & Hpi & Hcu & _). rewrite !step_eq.
  assert (Hds : step_draws dt (Fluid.set_config s c') = step_draws dt s).
  { unfold step_draws. destruct s as [cv ex c g sr dr d v dv cu p po lt].
    sim_simpl. cbn [Fluid.config] in *. by rewrite Hdd, Hvd, Hpi, Hcu. }
  rewrite Hds. destruct s as [cv ex c g sr dr d v dv cu p po lt].
  sim_simpl. cbn [Fluid.config] in *. by rewrite Hpi.
Qed.

(** X7.  A frame reads five configuration keys only:
    [DENSITY_DISSIPATION], [VELOCITY_DISSIPATION],
    [PRESSURE_ITERATIONS], [CURL] and [SPLAT_RADIUS].  Replacing the
    configuration by one that agrees on these five changes nothing
    [update] computes: the object store, the buffers and the draw
    calls are the same.  In particular [SIM_RESOLUTION] and
    [DYE_RESOLUTION] set through [setConfig] have no effect on the
    running simulation, and neither has [SPLAT_FORCE]. *)
Theorem update_reads_five_config_keys (time : Qc) (s : Fluid.Sim) (c' : Fluid.Config) :
  same_frame_keys (Fluid.config s) c' ->
  Fluid.update time (Fluid.set_config s c')
  = Fluid.set_config (Fluid.update time s) c' /\
  Fluid.gl (Fluid.update time (Fluid.set_config s c')) = Fluid.gl (Fluid.update time s) /\
  sim_refs (Fluid.update time (Fluid.set_config s c')) = sim_refs (Fluid.update time s).
Proof.
  intros Hk.
  assert (Heq : Fluid.update time (Fluid.set_config s c')
                = Fluid.set_config (Fluid.update time s) c').
  { unfold Fluid.update.
    replace (Fluid.lastTime (Fluid.set_config s c')) with (Fluid.lastTime s)
      by (by destruct s).
    replace (Fluid.set_lastTime (Fluid.set_config s c') time)
      with (Fluid.set_config (Fluid.set_lastTime s time) c') by (by destruct s).
    rewrite applyInputs_set_config
      by (destruct Hk as (_ & _ & _ & _ & Hr); by destruct s).
    rewrite step_set_config.
    - unfold Fluid.render.
      by destruct (Fluid.step _ (Fluid.applyInputs (Fluid.set_lastTime s time))).
    - destruct (applyInputs_frame (Fluid.set_lastTime s time)) as [-> _].
      by destruct s. }
  rewrite Heq. split; [reflexivity|]. by destruct (Fluid.update time s).
Qed.

End Inputs.

Lemma applyInputs_delivers_a_move_once_witness :
  @Fluid.applyInputs approx_builtins two_cells = two_cells.
Proof.
  destruct (@applyInputs_delivers_a_move_once approx_builtins two_cells) as [Hidle _].
  apply Hidle. by vm_compute.
Defined.

Lemma update_reads_five_config_keys_witness :
  Fluid.gl (@Fluid.update approx_builtins (Qc_of_Z 16)
              (Fluid.set_config two_cells
                 (Fluid.assign (Fluid.config two_cells)
                    {| Fluid.pSIM_RESOLUTION := Some (Qc_of_Z 512);
                       Fluid.pDYE_RESOLUTION := Some (Qc_of_Z 2048);
                       Fluid.pDENSITY_DISSIPATION := None;
                       Fluid.pVELOCITY_DISSIPATION := None;
                       Fluid.pPRESSURE := None; Fluid.pPRESSURE_ITERATIONS := None;
                       Fluid.pCURL := None; Fluid.pSPLAT_RADIUS := None;
                       Fluid.pSPLAT_FORCE := Some (Qc_of_Z 1);
                       Fluid.pSHADING := None; Fluid.pCOLORFUL := None;
                       Fluid.pPAUSED := None; Fluid.pBACK_COLOR := None;
                       Fluid.pTRANSPARENT := None;
                       Fluid.pFALLBACK_RESOLUTION := None |})))
  = Fluid.gl (@Fluid.update approx_builtins (Qc_of_Z 16) two_cells).
Proof.
  refine (proj1 (proj2 (@update_reads_five_config_keys approx_builtins (Qc_of_Z 16)
                          two_cells _ _))).
  by vm_compute.
Defined.

(** ** Colours and pointer events *)

Lemma Qc_of_Z_lt (a b : Z) : Qc_of_Z a < Qc_of_Z b -> (a < b)%Z.
Proof. unfold Qclt. rewrite !this_Qc_of_Z. by rewrite <- Zlt_Qlt. Qed.

(** The sextant of the colour wheel a hue falls in. *)
Lemma sextant (h : Qc) :
  0 <= h -> h < 1 ->
  let k := Qcfloor (h * Qc_of_Z 6) in
  (0 <= k <= 5)%Z /\
  0 <= h * Qc_of_Z 6 - Qc_of_Z k /\ h * Qc_of_Z 6 - Qc_of_Z k < 1.
Proof.
  intros H0 H1. cbv zeta.
  destruct (Qcfloor_spec (h * Qc_of_Z 6)) as [Hlo Hhi].
  set (k := Qcfloor (h * Qc_of_Z 6)) in *. clearbody k.
  assert (Hk1 : Qc_of_Z k < Qc_of_Z 6).
  { apply Qcle_lt_trans with (h * Qc_of_Z 6); [done|].
    clear Hlo Hhi. qc2q. change (inject_Z 6) with (6 # 1)%Q in *. lra. }
  assert (Hk0 : Qc_of_Z (-1) < Qc_of_Z k).
  { rewrite Qc_of_Z_m1. clear Hk1. qc2q. change (inject_Z 6) with (6 # 1)%Q in *. lra. }
  apply Qc_of_Z_lt in Hk0, Hk1. split; [lia|].
  clear Hk0 Hk1. qc2q. change (inject_Z 6) with (6 # 1)%Q in *. lra.
Qed.

(** X8.  [generateColor] always returns a colour, and a dim one.  For
    every hue that [Math.random] can return (0 <= h < 1) a case of the
    [switch] matches and each channel lies between 0.047 and 0.161;
    the brightest channel (value 0.8 times 0.2) is at least 0.159 and
    the dimmest (what saturation 0.7 leaves of it) at most 0.049.  The
    bounds leave room for the rounding of the products. *)
Theorem generateColor_is_dim (h : Qc) :
  0 <= h -> h < 1 ->
  exists c, Events.generateColor h = Some c /\
    (dec 47 1000 <= Fluid.r c /\ Fluid.r c <= dec 161 1000) /\
    (dec 47 1000 <= Fluid.g c /\ Fluid.g c <= dec 161 1000) /\
    (dec 47 1000 <= Fluid.b c /\ Fluid.b c <= dec 161 1000) /\
    (dec 159 1000 <= Fluid.r c \/ dec 159 1000 <= Fluid.g c
     \/ dec 159 1000 <= Fluid.b c) /\
    (Fluid.r c <= dec 49 1000 \/ Fluid.g c <= dec 49 1000
     \/ Fluid.b c <= dec 49 1000).
Proof.
  intros H0 H1. destruct (sextant h H0 H1) as (Hk & Hf0 & Hf1). cbv zeta in *.
  unfold Events.generateColor.
  set (k := Qcfloor (h * Qc_of_Z 6)) in *.
  set (f := h * Qc_of_Z 6 - Qc_of_Z k) in *. clearbody f. clearbody k. clear H0 H1.
  assert (Hv : dec 47 1000 <= dec 8 10 * dec 2 10
               /\ dec 8 10 * dec 2 10 <= dec 161 1000
               /\ dec 159 1000 <= dec 8 10 * dec 2 10).
  { split_and!; by apply (bool_decide_unpack _). }
  assert (Hp : dec 47 1000 <= dec 8 10 * (1 - dec 7 10) * dec 2 10
               /\ dec 8 10 * (1 - dec 7 10) * dec 2 10 <= dec 161 1000
               /\ dec 8 10 * (1 - dec 7 10) * dec 2 10 <= dec 49 1000).
  { split_and!; by apply (bool_decide_unpack _). }
  assert (Hq : dec 47 1000 <= dec 8 10 * (1 - f * dec 7 10) * dec 2 10
               /\ dec 8 10 * (1 - f * dec 7 10) * dec 2 10 <= dec 161 1000).
  { clear Hv Hp. split; qc2q; lra. }
  assert (Ht : dec 47 1000 <= dec 8 10 * (1 - (1 - f) * dec 7 10) * dec 2 10
               /\ dec 8 10 * (1 - (1 - f) * dec 7 10) * dec 2 10 <= dec 161 1000).
  { clear Hv Hp Hq. split; qc2q; lra. }
  assert (Hcase : (k = 0 \/ k = 1 \/ k = 2 \/ k = 3 \/ k = 4 \/ k = 5)%Z) by lia.
  destruct Hcase as [-> | [-> | [-> | [-> | [-> | ->]]]]];
    cbn [Z.rem Z.quotrem Z.pos_div_eucl snd fst]; (eexists; split; [reflexivity|]);
    cbn [Fluid.r Fluid.g Fluid.b]; tauto.
Qed.

Lemma generateColor_is_dim_witness :
  exists c, Events.generateColor (dec 1 2) = Some c /\
            dec 47 1000 <= Fluid.r c /\ Fluid.r c <= dec 161 1000.
Proof.
  destruct (generateColor_is_dim (dec 1 2)) as (c & Hc & Hr & _);
    [by vm_compute | by vm_compute |].
  exists c. tauto.
Defined.

Lemma Qcabs_pos (a : Qc) : 0 < Qcabs a <-> a <> 0.
Proof.
  unfold Qcabs. destruct (Qclt_le_dec a 0) as [Hlt|Hle]; split; intros Ha;
    qc2q; lra.
Qed.

Lemma Qc_of_Z_mul a b : Qc_of_Z (a * b) = Qc_of_Z a * Qc_of_Z b.
Proof. qc2q. rewrite inject_Z_mult. reflexivity. Qed.

Lemma moved_spec (a b k : Qc) :
  k <> 0 ->
  (bool_decide (0 < Qcabs (a * k)) || bool_decide (0 < Qcabs (b * k)) = false
   <-> a = 0 /\ b = 0).
Proof.
  intros Hk. rewrite orb_false_iff, !bool_decide_eq_false, !Qcabs_pos. split.
  - intros [Ha Hb]. split.
    + destruct (Qc_eq_dec a 0) as [|Hne]; [done|]. exfalso. apply Ha.
      intros H0. apply Qcmult_integral in H0 as [|]; done.
    + destruct (Qc_eq_dec b 0) as [|Hne]; [done|]. exfalso. apply Hb.
      intros H0. apply Qcmult_integral in H0 as [|]; done.
  - intros [-> ->]. split; intros Hne; apply Hne; ring.
Qed.

(** X9.  What a drag injects.  While the pointer is down, a mouse move
    to a new position makes the next [applyInputs] splat once, at the
    new position (in canvas pixels, y flipped), with an impulse of ten
    times the displacement; the same move on a touch screen splats
    with a hundred times the displacement.  A move event that does not
    change the position splats nothing. *)
Theorem drag_impulse (view : Events.View) (clientX clientY : Qc) (s : Fluid.Sim) :
  Fluid.down (Fluid.pointer s) = true ->
  let p := Fluid.pointer s in
  let px := (clientX - Events.rect_left view) * Events.devicePixelRatio view in
  let py := (clientY - Events.rect_top view) * Events.devicePixelRatio view in
  let at_x := px / Qc_of_Z (Fluid.canvas_width (Fluid.canvas s)) in
  let at_y := 1 - py / Qc_of_Z (Fluid.canvas_height (Fluid.canvas s)) in
  let mouse := Events.dispatch (Events.MouseMove view clientX clientY) s in
  let touch := Events.dispatch (Events.TouchMove view clientX clientY) s in
  (px = Fluid.x p /\ py = Fluid.y p ->
     input_draws mouse = [] /\ input_draws touch = []) /\
  (~ (px = Fluid.x p /\ py = Fluid.y p) ->
     input_draws mouse
     = splat_draws at_x at_y (Qc_of_Z 10 * (px - Fluid.x p))
         (- (Qc_of_Z 10 * (py - Fluid.y p))) (Fluid.color p) s /\
     input_draws touch
     = splat_draws at_x at_y (Qc_of_Z 100 * (px - Fluid.x p))
         (- (Qc_of_Z 100 * (py - Fluid.y p))) (Fluid.color p) s).
Proof.
  intros Hdown. cbv zeta.
  set (px := (clientX - Events.rect_left view) * Events.devicePixelRatio view).
  set (py := (clientY - Events.rect_top view) * Events.devicePixelRatio view).
  assert (H1 : (1 : Qc) <> 0) by (by apply (bool_decide_unpack _)).
  assert (H10 : Qc_of_Z 10 <> 0) by (by apply (bool_decide_unpack _)).
  pose proof (moved_spec (px - Fluid.x (Fluid.pointer s))
                         (py - Fluid.y (Fluid.pointer s)) 1 H1) as Hm.
  pose proof (moved_spec (px - Fluid.x (Fluid.pointer s))
                         (py - Fluid.y (Fluid.pointer s)) (Qc_of_Z 10) H10) as Ht.
  assert (Hsame : px - Fluid.x (Fluid.pointer s) = 0 /\ py - Fluid.y (Fluid.pointer s) = 0
                  <-> px = Fluid.x (Fluid.pointer s) /\ py = Fluid.y (Fluid.pointer s)).
  { split; intros [Ha Hb]; split.
    - rewrite <- (Qcplus_0_l (Fluid.x _)), <- Ha. ring.
    - rewrite <- (Qcplus_0_l (Fluid.y _)), <- Hb. ring.
    - rewrite Ha. ring.
    - rewrite Hb. ring. }
  rewrite Hsame in Hm, Ht. clear Hsame.
  destruct s as [cv ex c g sr dr d v dv cu pr [x0 y0 dx0 dy0 dn mv col] lt].
  cbn [Fluid.pointer Fluid.down Fluid.x Fluid.y Fluid.color Fluid.canvas] in *.
  subst dn.
  unfold input_draws, Events.dispatch, Events.mousemove, Events.touchmove.
  cbn [Fluid.pointer Fluid.set_pointer Fluid.moved Fluid.down Fluid.x Fluid.y
       Fluid.dx Fluid.dy Fluid.color Fluid.canvas].
  fold px py. rewrite !andb_true_r. split.
  - intros Heq. rewrite (proj2 Hm Heq), (proj2 Ht Heq). done.
  - intros Hne.
    assert (Em : bool_decide (0 < Qcabs ((px - x0) * 1))
                 || bool_decide (0 < Qcabs ((py - y0) * 1)) = true).
    { apply not_false_iff_true. intros E. apply Hne. by apply Hm. }
    assert (Et : bool_decide (0 < Qcabs ((px - x0) * Qc_of_Z 10))
                 || bool_decide (0 < Qcabs ((py - y0) * Qc_of_Z 10)) = true).
    { apply not_false_iff_true. intros E. apply Hne. by apply Ht. }
    rewrite Em, Et.
    unfold splat_draws.
    cbn [Fluid.velocity Fluid.density Fluid.canvas Fluid.config].
    replace (Qc_of_Z 10 * ((px - x0) * 1)) with (Qc_of_Z 10 * (px - x0)) by ring.
    replace (Qc_of_Z 10 * ((py - y0) * 1)) with (Qc_of_Z 10 * (py - y0)) by ring.
    replace (Qc_of_Z 10 * ((px - x0) * Qc_of_Z 10)) with (Qc_of_Z 100 * (px - x0)).
    2:{ change 100%Z with (10 * 10)%Z. rewrite Qc_of_Z_mul. ring. }
    replace (Qc_of_Z 10 * ((py - y0) * Qc_of_Z 10)) with (Qc_of_Z 100 * (py - y0)).
    2:{ change 100%Z with (10 * 10)%Z. rewrite Qc_of_Z_mul. ring. }
    done.
Qed.


Section Release.
Context `{Builtins}.

Lemma move_keeps_down (e : Events.Event) (s : Fluid.Sim) :
  is_move e = true ->
  Fluid.down (Fluid.pointer (Events.dispatch e s)) = Fluid.down (Fluid.pointer s).
Proof. destruct e; try done; by destruct s. Qed.

Lemma moves_keep_down (es : list Events.Event) (s : Fluid.Sim) :
  forallb is_move es = true ->
  Fluid.down (Fluid.pointer (dispatch_all es s)) = Fluid.down (Fluid.pointer s).
Proof.
  revert s. induction es as [|e es IH]; intros s Hes; [done|].
  cbn in Hes. apply andb_true_iff in Hes as [He Hes].
  cbn. unfold dispatch_all in IH. rewrite IH by done. by apply move_keeps_down.
Qed.

(** X10.  Releasing the pointer stops the forcing.  After [mouseup] or
    [touchend], whatever move events follow, [applyInputs] changes
    nothing and issues no draw, until the pointer is pressed again. *)
Theorem release_stops_forcing
    (release : Events.Event) (es : list Events.Event) (s : Fluid.Sim) :
  release = Events.MouseUp \/ release = Events.TouchEnd ->
  forallb is_move es = true ->
  let s' := dispatch_all es (Events.dispatch release s) in
  Fluid.down (Fluid.pointer s') = false /\
  Fluid.applyInputs s' = s' /\
  input_draws s' = [].
Proof.
  intros Hrel Hes. cbv zeta.
  assert (Hdown : Fluid.down (Fluid.pointer
                     (dispatch_all es (Events.dispatch release s))) = false).
  { rewrite moves_keep_down by done. destruct Hrel as [-> | ->]; by destruct s. }
  split_and!.
  - exact Hdown.
  - unfold Fluid.applyInputs. by rewrite Hdown, andb_false_r.
  - unfold input_draws. by rewrite Hdown, andb_false_r.
Qed.

(** X11.  A move made while the pointer is up stays pending.
    [applyInputs] clears [moved] only when it splats, so after a mouse
    move to a new position with the button up, the first
    [applyInputs] after the next [mousedown] splats at that position
    with ten times the displacement of that earlier move, in the
    colour generated by the press. *)
Theorem press_delivers_pending_move
    (view : Events.View) (clientX clientY : Qc) (color : Fluid.Color)
    (s : Fluid.Sim) :
  let p := Fluid.pointer s in
  let px := (clientX - Events.rect_left view) * Events.devicePixelRatio view in
  let py := (clientY - Events.rect_top view) * Events.devicePixelRatio view in
  let hovered := Events.dispatch (Events.MouseMove view clientX clientY) s in
  let pressed := Events.dispatch (Events.MouseDown color) (Fluid.applyInputs hovered) in
  Fluid.down p = false -> ~ (px = Fluid.x p /\ py = Fluid.y p) ->
  Fluid.applyInputs hovered = hovered /\
  input_draws pressed
  = splat_draws (px / Qc_of_Z (Fluid.canvas_width (Fluid.canvas s)))
      (1 - py / Qc_of_Z (Fluid.canvas_height (Fluid.canvas s)))
      (Qc_of_Z 10 * (px - Fluid.x p)) (- (Qc_of_Z 10 * (py - Fluid.y p))) color s.
Proof.
  cbv zeta. intros Hup Hne.
  set (px := (clientX - Events.rect_left view) * Events.devicePixelRatio view) in *.
  set (py := (clientY - Events.rect_top view) * Events.devicePixelRatio view) in *.
  assert (H1 : (1 : Qc) <> 0) by (by apply (bool_decide_unpack _)).
  pose proof (moved_spec (px - Fluid.x (Fluid.pointer s))
                         (py - Fluid.y (Fluid.pointer s)) 1 H1) as Hm.
  assert (Hmoved : bool_decide (0 < Qcabs ((px - Fluid.x (Fluid.pointer s)) * 1))
                   || bool_decide (0 < Qcabs ((py - Fluid.y (Fluid.pointer s)) * 1))
                   = true).
  { apply not_false_iff_true. intros E. apply Hm in E as [Ha Hb]. apply Hne. split.
    - rewrite <- (Qcplus_0_l (Fluid.x _)), <- Ha. ring.
    - rewrite <- (Qcplus_0_l (Fluid.y _)), <- Hb. ring. }
  clear Hm.
  assert (Hidle : Fluid.applyInputs
                    (Events.dispatch (Events.MouseMove view clientX clientY) s)
                  = Events.dispatch (Events.MouseMove view clientX clientY) s).
  { unfold Fluid.applyInputs.
    replace (Fluid.down (Fluid.pointer
               (Events.dispatch (Events.MouseMove view clientX clientY) s)))
      with false by (symmetry; rewrite <- Hup; by destruct s).
    by rewrite andb_false_r. }
  split; [exact Hidle|]. rewrite Hidle.
  destruct s as [cv ex c g sr dr d v dv cu pr [x0 y0 dx0 dy0 dn mv col] lt].
  cbn [Fluid.pointer Fluid.down Fluid.x Fluid.y Fluid.color Fluid.canvas] in *.
  unfold input_draws, Events.dispatch, Events.mousemove, Events.mousedown.
  cbn [Fluid.pointer Fluid.set_pointer Fluid.moved Fluid.down Fluid.x Fluid.y
       Fluid.dx Fluid.dy Fluid.color Fluid.canvas].
  fold px py. rewrite Hmoved. cbn [andb]. unfold splat_draws.
  cbn [Fluid.velocity Fluid.density Fluid.canvas Fluid.config].
  replace (Qc_of_Z 10 * ((px - x0) * 1)) with (Qc_of_Z 10 * (px - x0)) by ring.
  replace (Qc_of_Z 10 * ((py - y0) * 1)) with (Qc_of_Z 10 * (py - y0)) by ring.
  done.
Qed.

End Release.

Lemma drag_impulse_witness :
  let s := Events.dispatch (Events.MouseDown (Fluid.MkColor 1 0 0)) two_cells in
  let touch := Events.dispatch
                 (Events.TouchMove (Events.MkView 0 0 1) 1 0) s in
  input_draws touch
  = splat_draws (1 / Qc_of_Z (Fluid.canvas_width (Fluid.canvas s)))
      (1 - 0 / Qc_of_Z (Fluid.canvas_height (Fluid.canvas s)))
      (Qc_of_Z 100 * 1) (- (Qc_of_Z 100 * 0)) (Fluid.MkColor 1 0 0) s.
Proof.
  cbv zeta.
  destruct (drag_impulse (Events.MkView 0 0 1) 1 0
              (Events.dispatch (Events.MouseDown (Fluid.MkColor 1 0 0)) two_cells))
    as [_ Hdrag]; [reflexivity|].
  cbv zeta in Hdrag. destruct Hdrag as [_ Htouch].
  - intros [Hx _]. revert Hx. by vm_compute.
  - apply (bool_decide_unpack _). by vm_compute.
Defined.

Lemma release_stops_forcing_witness :
  input_draws
    (dispatch_all [Events.MouseMove (Events.MkView 0 0 1) 1 0]
       (Events.dispatch Events.MouseUp two_cells)) = [].
Proof.
  destruct (@release_stops_forcing approx_builtins Events.MouseUp
              [Events.MouseMove (Events.MkView 0 0 1) 1 0] two_cells)
    as (_ & _ & Hd); [by left | reflexivity | exact Hd].
Defined.

Lemma press_delivers_pending_move_witness :
  input_draws
    (Events.dispatch (Events.MouseDown (Fluid.MkColor 1 0 0))
       (@Fluid.applyInputs approx_builtins
          (Events.dispatch (Events.MouseMove (Events.MkView 0 0 1) 1 0) two_cells)))
  <> [].
Proof.
  destruct (@press_delivers_pending_move approx_builtins (Events.MkView 0 0 1) 1 0
              (Fluid.MkColor 1 0 0) two_cells) as [_ Hd].
  - reflexivity.
  - intros [Hx _]. revert Hx. by vm_compute.
  - cbv zeta in Hd. rewrite Hd. discriminate.
Defined.

(** ** Start-up *)

Lemma Qcmin_le (a b : Qc) : Qcmin a b <= a /\ Qcmin a b <= b.
Proof.
  unfold Qcmin. destruct (Qclt_le_dec b a) as [Hlt|Hle]; split;
    try apply Qcle_refl; try done. by apply Qclt_le_weak.
Qed.

(** X12.  The capability fallbacks only ever lower the quality
    settings.  With linear filtering and half-float render targets the
    configuration is left as it is.  Otherwise [SIM_RESOLUTION],
    [CURL] and [PRESSURE_ITERATIONS] never grow; without linear
    filtering the simulation grid is capped by [FALLBACK_RESOLUTION]
    and shading is off; without half-float targets the dye grid is set
    to half the fallback resolution (rounded down), the simulation
    grid is capped by it, [CURL] by 20 and [PRESSURE_ITERATIONS] by
    15.  The dissipations, the splat settings and the fallback
    resolution itself are never touched. *)
Theorem adjust_config_only_lowers (ext : Fluid.Ext) (c : Fluid.Config) :
  let c' := Fluid.adjust_config ext c in
  let half := Qc_of_Z (Qcfloor (Fluid.FALLBACK_RESOLUTION c / Qc_of_Z 2)) in
  (Fluid.supportLinearFiltering ext = true ->
   Fluid.extColorBufferHalfFloat ext = true -> c' = c) /\
  Fluid.SIM_RESOLUTION c' <= Fluid.SIM_RESOLUTION c /\
  Fluid.CURL c' <= Fluid.CURL c /\
  Fluid.PRESSURE_ITERATIONS c' <= Fluid.PRESSURE_ITERATIONS c /\
  (Fluid.supportLinearFiltering ext = false ->
   Fluid.SIM_RESOLUTION c' <= Fluid.FALLBACK_RESOLUTION c /\ Fluid.SHADING c' = false) /\
  (Fluid.supportLinearFiltering ext = false ->
   Fluid.extColorBufferHalfFloat ext = true ->
   Fluid.DYE_RESOLUTION c' = Fluid.FALLBACK_RESOLUTION c) /\
  (Fluid.extColorBufferHalfFloat ext = false ->
   Fluid.DYE_RESOLUTION c' = half /\ Fluid.SIM_RESOLUTION c' <= half /\
   Fluid.CURL c' <= Qc_of_Z 20 /\ Fluid.PRESSURE_ITERATIONS c' <= Qc_of_Z 15) /\
  Fluid.DENSITY_DISSIPATION c' = Fluid.DENSITY_DISSIPATION c /\
  Fluid.VELOCITY_DISSIPATION c' = Fluid.VELOCITY_DISSIPATION c /\
  Fluid.SPLAT_RADIUS c' = Fluid.SPLAT_RADIUS c /\
  Fluid.SPLAT_FORCE c' = Fluid.SPLAT_FORCE c /\
  Fluid.PRESSURE c' = Fluid.PRESSURE c /\
  Fluid.FALLBACK_RESOLUTION c' = Fluid.FALLBACK_RESOLUTION c.
Proof.
  cbv zeta. destruct c as [sim dye dd vd pr pit cu sr sf sh co pa bc tr fb].
  set (half := Qc_of_Z (Qcfloor (fb / Qc_of_Z 2))).
  pose proof (Qcmin_le sim fb) as [Hm1 Hm2].
  pose proof (Qcmin_le sim half) as [Hh1 Hh2].
  pose proof (Qcmin_le (Qcmin sim fb) half) as [Hb1 Hb2].
  pose proof (Qcmin_le cu (Qc_of_Z 20)) as [Hc1 Hc2].
  pose proof (Qcmin_le pit (Qc_of_Z 15)) as [Hp1 Hp2].
  assert (Hb3 : Qcmin (Qcmin sim fb) half <= sim) by (by apply Qcle_trans with (Qcmin sim fb)).
  assert (Hb4 : Qcmin (Qcmin sim fb) half <= fb) by (by apply Qcle_trans with (Qcmin sim fb)).
  destruct ext as [[] []]; unfold Fluid.adjust_config, Fluid.assign;
    cbn [Fluid.supportLinearFiltering Fluid.extColorBufferHalfFloat
         Fluid.SIM_RESOLUTION Fluid.DYE_RESOLUTION Fluid.DENSITY_DISSIPATION
         Fluid.VELOCITY_DISSIPATION Fluid.PRESSURE Fluid.PRESSURE_ITERATIONS
         Fluid.CURL Fluid.SPLAT_RADIUS Fluid.SPLAT_FORCE Fluid.SHADING
         Fluid.COLORFUL Fluid.PAUSED Fluid.BACK_COLOR Fluid.TRANSPARENT
         Fluid.FALLBACK_RESOLUTION Fluid.pSIM_RESOLUTION Fluid.pDYE_RESOLUTION
         Fluid.pDENSITY_DISSIPATION Fluid.pVELOCITY_DISSIPATION Fluid.pPRESSURE
         Fluid.pPRESSURE_ITERATIONS Fluid.pCURL Fluid.pSPLAT_RADIUS
         Fluid.pSPLAT_FORCE Fluid.pSHADING Fluid.pCOLORFUL Fluid.pPAUSED
         Fluid.pBACK_COLOR Fluid.pTRANSPARENT Fluid.pFALLBACK_RESOLUTION default];
    fold half;
    split_and!; try done; try apply Qcle_refl; try (intros; split_and!; done).
Qed.

Section Startup.
Context `{Builtins}.

Lemma resizeCanvas_frame cv (s : Fluid.Sim) :
  Fluid.config (Fluid.resizeCanvas cv s) = Fluid.config s /\
  Fluid.ext (Fluid.resizeCanvas cv s) = Fluid.ext s /\
  Fluid.simRes (Fluid.resizeCanvas cv s)
  = Fluid.getResolution cv (Fluid.SIM_RESOLUTION (Fluid.config s)) /\
  Fluid.dyeRes (Fluid.resizeCanvas cv s)
  = Fluid.getResolution cv (Fluid.DYE_RESOLUTION (Fluid.config s)).
Proof. rewrite resizeCanvas_eq. done. Qed.

Lemma splat_resolutions x y dx dy color (s : Fluid.Sim) :
  Fluid.simRes (Fluid.splat x y dx dy color s) = Fluid.simRes s /\
  Fluid.dyeRes (Fluid.splat x y dx dy color s) = Fluid.dyeRes s /\
  Fluid.config (Fluid.splat x y dx dy color s) = Fluid.config s /\
  Fluid.ext (Fluid.splat x y dx dy color s) = Fluid.ext s.
Proof. rewrite splat_eq. by destruct s. Qed.

Lemma multipleSplats_resolutions rnd (s : Fluid.Sim) :
  Fluid.simRes (Fluid.multipleSplats rnd s) = Fluid.simRes s /\
  Fluid.dyeRes (Fluid.multipleSplats rnd s) = Fluid.dyeRes s /\
  Fluid.config (Fluid.multipleSplats rnd s) = Fluid.config s /\
  Fluid.ext (Fluid.multipleSplats rnd s) = Fluid.ext s.
Proof.
  revert s. induction rnd as [|rs rnd IH]; intros s; [done|].
  change (Fluid.multipleSplats (rs :: rnd) s)
    with (Fluid.multipleSplats rnd
            (Fluid.splat (Fluid.rs_x rs) (Fluid.rs_y rs) (Fluid.rs_dx rs)
               (Fluid.rs_dy rs) (Fluid.rs_color rs) s)).
  destruct (IH (Fluid.splat (Fluid.rs_x rs) (Fluid.rs_y rs) (Fluid.rs_dx rs)
                  (Fluid.rs_dy rs) (Fluid.rs_color rs) s)) as (-> & -> & -> & ->).
  apply splat_resolutions.
Qed.

Lemma update_resolutions time (s : Fluid.Sim) :
  Fluid.simRes (Fluid.update time s) = Fluid.simRes s /\
  Fluid.dyeRes (Fluid.update time s) = Fluid.dyeRes s /\
  Fluid.config (Fluid.update time s) = Fluid.config s /\
  Fluid.ext (Fluid.update time s) = Fluid.ext s.
Proof.
  unfold Fluid.update, Fluid.render. rewrite step_eq.
  cbn [Fluid.simRes Fluid.dyeRes Fluid.config Fluid.ext Fluid.draw Fluid.set_gl].
  unfold Fluid.applyInputs.
  destruct (Fluid.moved _ && Fluid.down _).
  - match goal with
    | |- context [Fluid.splat ?x ?y ?dx ?dy ?c ?s0] =>
        destruct (splat_resolutions x y dx dy c s0) as (-> & -> & -> & ->)
    end.
    by destruct s.
  - by destruct s.
Qed.

(** X13.  The resolutions the page script configures wait for a
    resize.  [createFluidSimulation] allocates the grids from its
    built-in configuration (after the capability fallbacks) and runs
    its first frame before the script's [setConfig] arrives; the
    script's [SIM_RESOLUTION] 512 and [DYE_RESOLUTION] 1024 are stored
    but the grids keep their size.  The next [resizeCanvas] then
    allocates from the stored values, on every device: the fallbacks
    are not applied again. *)
Theorem script_resolution_waits_for_resize
    (canvas canvas' : Fluid.Canvas) (ext : Fluid.Ext)
    (rnd : list Fluid.RandomSplat) :
  let s := Script.DOMContentLoaded canvas ext rnd in
  let built_in := Fluid.adjust_config ext Fluid.initial_config in
  Fluid.simRes s = Fluid.getResolution canvas (Fluid.SIM_RESOLUTION built_in) /\
  Fluid.dyeRes s = Fluid.getResolution canvas (Fluid.DYE_RESOLUTION built_in) /\
  Fluid.SIM_RESOLUTION (Fluid.config s) = Qc_of_Z 512 /\
  Fluid.DYE_RESOLUTION (Fluid.config s) = Qc_of_Z 1024 /\
  Fluid.simRes (Fluid.resizeCanvas canvas' s)
  = Fluid.getResolution canvas' (Qc_of_Z 512) /\
  Fluid.dyeRes (Fluid.resizeCanvas canvas' s)
  = Fluid.getResolution canvas' (Qc_of_Z 1024).
Proof.
  cbv zeta. unfold Script.DOMContentLoaded, Fluid.createFluidSimulation, Fluid.setConfig.
  set (c0 := Fluid.adjust_config ext Fluid.initial_config).
  set (s1 := Fluid.resizeCanvas canvas (Fluid.resizeCanvas canvas (Fluid.boot canvas ext c0))).
  assert (H1 : Fluid.simRes s1 = Fluid.getResolution canvas (Fluid.SIM_RESOLUTION c0) /\
               Fluid.dyeRes s1 = Fluid.getResolution canvas (Fluid.DYE_RESOLUTION c0)).
  { unfold s1.
    destruct (resizeCanvas_frame canvas (Fluid.resizeCanvas canvas (Fluid.boot canvas ext c0)))
      as (_ & _ & -> & ->).
    destruct (resizeCanvas_frame canvas (Fluid.boot canvas ext c0)) as (-> & _). done. }
  clearbody s1.
  destruct (update_resolutions 0 (Fluid.multipleSplats rnd s1)) as (Hs & Hd & _).
  destruct (multipleSplats_resolutions rnd s1) as (Hs' & Hd' & _).
  rewrite Hs' in Hs. rewrite Hd' in Hd. clear Hs' Hd'.
  set (s2 := Fluid.update 0 (Fluid.multipleSplats rnd s1)) in *. clearbody s2.
  destruct H1 as [H1 H2]. rewrite H1 in Hs. rewrite H2 in Hd. clear H1 H2 s1.
  destruct (resizeCanvas_frame canvas'
              (Fluid.set_config s2 (Fluid.assign (Fluid.config s2) Script.newConfig)))
    as (_ & _ & -> & ->).
  destruct s2. cbn in Hs, Hd. subst. done.
Qed.

(** X14.  Start-up always ends in a well-formed state.  On a canvas
    with positive sides, whatever the device supports and whatever the
    random splats are, the state [createFluidSimulation] leaves after
    its first frame satisfies the invariant of the eight framebuffer
    objects, and so does the state after the page script's
    [setConfig] and after any later resize to a canvas with positive
    sides. *)
Theorem startup_is_well_formed
    (cw ch cw' ch' : Z) (ext : Fluid.Ext) (rnd : list Fluid.RandomSplat) :
  (0 < cw)%Z -> (0 < ch)%Z -> (0 < cw')%Z -> (0 < ch')%Z ->
  wf (Fluid.createFluidSimulation (Fluid.MkCanvas cw ch) ext rnd) = true /\
  wf (Script.DOMContentLoaded (Fluid.MkCanvas cw ch) ext rnd) = true /\
  wf (Fluid.resizeCanvas (Fluid.MkCanvas cw' ch')
        (Script.DOMContentLoaded (Fluid.MkCanvas cw ch) ext rnd)) = true.
Proof.
  intros Hcw Hch Hcw' Hch'.
  assert (Hres : 0 <= Fluid.SIM_RESOLUTION (Fluid.adjust_config ext Fluid.initial_config)).
  { destruct ext as [[] []]; by apply (bool_decide_unpack _). }
  assert (Hwf : wf_facts (Fluid.createFluidSimulation (Fluid.MkCanvas cw ch) ext rnd)).
  { unfold Fluid.createFluidSimulation.
    apply update_wf, multipleSplats_wf, resizeCanvas_wf; [done|done|].
    by destruct (resizeCanvas_frame (Fluid.MkCanvas cw ch)
                   (Fluid.boot (Fluid.MkCanvas cw ch) ext
                      (Fluid.adjust_config ext Fluid.initial_config))) as [-> _]. }
  split_and!.
  - by apply wf_iff.
  - apply wf_iff. unfold Script.DOMContentLoaded, Fluid.setConfig. by apply set_config_wf.
  - apply wf_iff, resizeCanvas_wf; [done|done|].
    unfold Script.DOMContentLoaded, Fluid.setConfig.
    replace (Fluid.SIM_RESOLUTION _) with (Qc_of_Z 512);
      [by apply (bool_decide_unpack _)|].
    by destruct (Fluid.createFluidSimulation _ _ _).
Qed.

End Startup.

Lemma startup_is_well_formed_witness :
  wf (@Fluid.createFluidSimulation approx_builtins (Fluid.MkCanvas 2 1)
        (Fluid.MkExt true true) []) = true.
Proof.
  destruct (@startup_is_well_formed approx_builtins 2 1 1 2 (Fluid.MkExt true true) [])
    as (Hwf & _); [lia | lia | lia | lia | exact Hwf].
Defined.

(** ** Frames of zero duration *)

Section ZeroDuration.
Context `{Builtins}.

Lemma advection_cell_dt0 (vel src : FBO) ts d (w h i j : nat) :
  width src = w -> height src = h -> (i < w)%nat -> (j < h)%nat ->
  Fluid.advectionShader vel src ts 0 d (baseVertexShader ts (center w h i j))
  = vec4_scale d (texel src (Z.of_nat i) (Z.of_nat j)).
Proof.
  intros Hw Hh Hi Hj. unfold Fluid.advectionShader. cbn [vUv baseVertexShader].
  f_equal. rewrite <- (sample_center src w h i j) by done.
  f_equal. destruct (center w h i j) as [u v]. cbn [x2 y2]. f_equal; ring.
Qed.

Lemma advection_raster_dt0 (vel src : FBO) ts d :
  shaped src = true ->
  raster (width src) (height src) ts (Fluid.advectionShader vel src ts 0 d)
  = data (scale_field d src).
Proof.
  intros Hs. unfold scale_field. cbn [data].
  trans (map (map (vec4_scale d))
              (map (fun j => map (fun i => texel src (Z.of_nat i) (Z.of_nat j))
                                 (seq 0 (width src)))
                   (seq 0 (height src)))).
  2: { by rewrite <- data_texels. }
  unfold raster. rewrite List.map_map.
  apply map_ext_in. intros j Hj. rewrite List.map_map. apply map_ext_in. intros i Hi.
  apply in_seq in Hi, Hj.
  apply advection_cell_dt0; [reflexivity | reflexivity | |];
    [exact (proj2 Hi) | exact (proj2 Hj)].
Qed.

Lemma advection_draw_dt0 gl target uVelocity uSource ts d w h p :
  live gl target w h p = true -> live gl uSource w h p = true ->
  BLEND gl = false ->
  tex (Fluid.blit (DrawAdvection target uVelocity uSource ts 0 d) gl) target
  = scale_field d (tex gl uSource).
Proof.
  intros Ht Hs Hb.
  pose proof (live_tex _ _ _ _ _ Ht) as (Hot & Hwt & Hht & Hpt & _).
  pose proof (live_tex _ _ _ _ _ Hs) as (_ & Hws & Hhs & Hps & Hss).
  erewrite tex_blit_target; [|reflexivity|exact Hot|exact Hb].
  cbn [Fluid.texelSize_of Fluid.fragment].
  rewrite Hwt, Hht, Hpt, <- Hws, <- Hhs, advection_raster_dt0 by done.
  unfold scale_field. cbn [data]. by rewrite Hps.
Qed.

Lemma run_draws_live_other ds gl r w h p :
  Forall (fun d => target_of d <> Some r) ds ->
  live (run_draws ds gl) r w h p = live gl r w h p.
Proof. intros Hds. unfold live. by rewrite run_draws_other. Qed.

(** X15.  Dissipation is applied per frame, not per unit of time.  A
    [step] of zero duration, which is what the first frame and every
    [resume] run, moves no dye but still multiplies every dye texel by
    [DENSITY_DISSIPATION], whatever the velocity field is. *)
Theorem zero_duration_step_still_dissipates (s : Fluid.Sim) :
  wf s = true ->
  dye_field (Fluid.step 0 s)
  = scale_field (Fluid.DENSITY_DISSIPATION (Fluid.config s)) (dye_field s).
Proof.
  intros Hwf%wf_iff. pose proof (wf_distinct s Hwf) as Hd. cbv zeta in Hd.
  pose proof (wf_dr s Hwf) as Hdr. pose proof (wf_dw s Hwf) as Hdw.
  rewrite step_eq. unfold dye_field, step_draws.
  cbn [Fluid.gl Fluid.density].
  change (Fluid.read (Fluid.swap (Fluid.density s))) with (Fluid.write (Fluid.density s)).
  set (v := Fluid.velocity s) in *. set (dn := Fluid.density s) in *.
  set (ts := Fluid.simTexel s). set (c := Fluid.config s).
  set (g0 := Fluid.set_BLEND false (Fluid.gl s)).
  change ([?a; ?b; ?c'; ?d; ?e] ++ ?rest)
    with (([a; b; c'] ++ [d]) ++ ([e] ++ rest)).
  rewrite (run_draws_app (_ ++ [_])), (run_draws_app [_; _; _] [_]).
  set (pre := [DrawCurl _ _ _; _; _]).
  set (post := [DrawDivergence _ _ _] ++ _).
  assert (Hpre : Forall (fun d => target_of d <> Some (Fluid.read dn)
                                  /\ target_of d <> Some (Fluid.write dn)) pre).
  { unfold pre. repeat constructor; cbn; intuition congruence. }
  assert (Hpost : Forall (fun d => target_of d <> Some (Fluid.write dn)) post).
  { unfold post. apply Forall_app. split; [|apply Forall_app; split].
    - repeat constructor. cbn. intuition congruence.
    - destruct (Fluid.pressure s) as [pr pw] eqn:Hp.
      eapply Forall_impl; [apply pressure_draws_targets|].
      cbn. intros d [-> | ->]; cbn in Hd; intuition congruence.
    - repeat constructor. cbn. intuition congruence. }
  unfold tex at 1. rewrite (run_draws_other post) by exact Hpost.
  fold (tex (run_draws [DrawAdvection (Fluid.write dn) (Fluid.read v) (Fluid.read dn) ts 0
                          (Fluid.DENSITY_DISSIPATION c)] (run_draws pre g0))
            (Fluid.write dn)).
  change (run_draws [?d] ?g) with (Fluid.blit d g).
  rewrite (advection_draw_dt0 _ _ _ _ _ _ (dye_width s) (dye_height s) (filterType s)).
  - f_equal. unfold tex. rewrite run_draws_other; [done|].
    eapply Forall_impl; [exact Hpre|]. cbn. tauto.
  - rewrite run_draws_live_other; [exact Hdw|].
    eapply Forall_impl; [exact Hpre|]. cbn. tauto.
  - rewrite run_draws_live_other; [exact Hdr|].
    eapply Forall_impl; [exact Hpre|]. cbn. tauto.
  - by rewrite BLEND_run_draws.
Qed.

End ZeroDuration.

Lemma zero_duration_step_still_dissipates_witness :
  dye_field (@Fluid.step approx_builtins 0 two_cells)
  = scale_field (Fluid.DENSITY_DISSIPATION (Fluid.config two_cells)) (dye_field two_cells).
Proof.
  apply (@zero_duration_step_still_dissipates approx_builtins two_cells).
  by vm_compute.
Defined.

(** ** Uniform flow and vorticity *)

Section Uniform.
Context `{Builtins}.

(** X16.  A uniform flow has neither divergence nor curl, at the edges
    of the grid too.  When every cell holds the same velocity, the
    divergence stage and the curl stage write zero into every cell:
    clamping the neighbour lookups at the border creates no spurious
    source. *)
Theorem uniform_flow_has_no_divergence_or_curl (a b : Qc) (s : Fluid.Sim) :
  wf s = true -> BLEND (Fluid.gl s) = false ->
  velocity_is a b (velocity_field s) = true ->
  x_is 0 (tex (Fluid.gl (Fluid.divergenceStage s)) (Fluid.divergence s)) = true /\
  x_is 0 (tex (Fluid.gl (Fluid.curlStage s)) (Fluid.curl s)) = true.
Proof.
  intros Hwf%wf_iff Hb Hu.
  pose proof (simTexel_matches s Hwf) as Hts.
  pose proof (live_tex _ _ _ _ _ (wf_vr s Hwf)) as (_ & Hwv & Hhv & _ & Hsv).
  fold (velocity_field s) in Hwv, Hhv, Hsv.
  assert (Hm : matches (velocity_field s) (sim_width s) (sim_height s) (Fluid.simTexel s)).
  { rewrite Hts. by apply matches_intro. }
  destruct (draw_fields s (DrawDivergence (Fluid.divergence s)
                             (Fluid.read (Fluid.velocity s)) (Fluid.simTexel s))
              _ _ _ _ Hwf Hb eq_refl (wf_div s Hwf)) as (Hdiv & _).
  destruct (draw_fields s (DrawCurl (Fluid.curl s)
                             (Fluid.read (Fluid.velocity s)) (Fluid.simTexel s))
              _ _ _ _ Hwf Hb eq_refl (wf_curl s Hwf)) as (Hcurl & _).
  split.
  - unfold Fluid.divergenceStage. rewrite Hdiv.
    cbn [Fluid.texelSize_of Fluid.fragment]. fold (velocity_field s).
    apply raster_all_texels. intros i j Hi Hj.
    destruct (uniform_velocity_cells a b (velocity_field s) (Fluid.simTexel s)
                (sim_width s) (sim_height s) i j Hsv Hm Hu Hi Hj) as [-> _].
    by apply bool_decide_eq_true_2.
  - unfold Fluid.curlStage. rewrite Hcurl.
    cbn [Fluid.texelSize_of Fluid.fragment]. fold (velocity_field s).
    apply raster_all_texels. intros i j Hi Hj.
    destruct (uniform_velocity_cells a b (velocity_field s) (Fluid.simTexel s)
                (sim_width s) (sim_height s) i j Hsv Hm Hu Hi Hj) as [_ ->].
    by apply bool_decide_eq_true_2.
Qed.

Lemma vorticity_cell_off (vel cu : FBO) curl dt ts (w h i j : nat) :
  matches vel w h ts -> (i < w)%nat -> (j < h)%nat ->
  curl = 0 \/ dt = 0 ->
  Fluid.vorticityShader vel cu curl dt (baseVertexShader ts (center w h i j))
  = Vec4 (vx (texel vel (Z.of_nat i) (Z.of_nat j)))
         (vy (texel vel (Z.of_nat i) (Z.of_nat j))) 0 1.
Proof.
  intros Hv Hi Hj Hoff. unfold Fluid.vorticityShader.
  rewrite (sample_vUv vel w h ts i j) by done.
  cbv zeta. cbn [x2 y2].
  match goal with |- context [gl_sqrt ?e] => generalize (gl_sqrt e) end.
  intros len. unfold Qcdiv. destruct Hoff as [-> | ->]; f_equal; ring.
Qed.

(** X17.  Vorticity confinement can be switched off.  With [CURL] set
    to zero, and likewise in a frame of zero duration, the vorticity
    stage leaves the velocity of every cell as it was. *)
Theorem vorticity_is_off_at_zero_CURL (dt : Qc) (s : Fluid.Sim) (i j : nat) :
  wf s = true -> BLEND (Fluid.gl s) = false ->
  Fluid.CURL (Fluid.config s) = 0 \/ dt = 0 ->
  (i < sim_width s)%nat -> (j < sim_height s)%nat ->
  let v := texel (velocity_field s) (Z.of_nat i) (Z.of_nat j) in
  let v' := texel (velocity_field (Fluid.vorticityStage dt s)) (Z.of_nat i) (Z.of_nat j) in
  vx v' = vx v /\ vy v' = vy v.
Proof.
  intros Hwf%wf_iff Hb Hoff Hi Hj. cbv zeta.
  pose proof (simTexel_matches s Hwf) as Hts.
  pose proof (live_tex _ _ _ _ _ (wf_vr s Hwf)) as (_ & Hwv & Hhv & _ & Hsv).
  fold (velocity_field s) in Hwv, Hhv, Hsv.
  assert (Hm : matches (velocity_field s) (sim_width s) (sim_height s) (Fluid.simTexel s)).
  { rewrite Hts. by apply matches_intro. }
  destruct (draw_fields s
              (DrawVorticity (Fluid.write (Fluid.velocity s)) (Fluid.read (Fluid.velocity s))
                 (Fluid.curl s) (Fluid.simTexel s) (Fluid.CURL (Fluid.config s)) dt)
              _ _ _ _ Hwf Hb eq_refl (wf_vw s Hwf)) as (Hv & _).
  assert (Hfield : velocity_field (Fluid.vorticityStage dt s)
                   = tex (Fluid.gl (Fluid.draw s
                       (DrawVorticity (Fluid.write (Fluid.velocity s))
                          (Fluid.read (Fluid.velocity s)) (Fluid.curl s)
                          (Fluid.simTexel s) (Fluid.CURL (Fluid.config s)) dt)))
                       (Fluid.write (Fluid.velocity s))) by (by destruct s).
  rewrite Hfield, Hv. cbn [Fluid.texelSize_of Fluid.fragment].
  rewrite texel_raster by done. fold (velocity_field s).
  by rewrite (vorticity_cell_off _ _ _ _ _ (sim_width s) (sim_height s) i j Hm Hi Hj Hoff).
Qed.

End Uniform.

Lemma uniform_flow_has_no_divergence_or_curl_witness :
  x_is 0 (tex (Fluid.gl (@Fluid.divergenceStage approx_builtins still_dye))
              (Fluid.divergence still_dye)) = true.
Proof.
  destruct (@uniform_flow_has_no_divergence_or_curl approx_builtins 0 0 still_dye)
    as [Hd _]; [by vm_compute | by vm_compute | by vm_compute | exact Hd].
Defined.

Lemma vorticity_is_off_at_zero_CURL_witness :
  vx (texel (velocity_field (@Fluid.vorticityStage approx_builtins 0 two_cells)) 1 0)
  = vx (texel (velocity_field two_cells) 1 0).
Proof.
  destruct (@vorticity_is_off_at_zero_CURL approx_builtins 0 two_cells 1 0)
    as [Hx _]; [by vm_compute | by vm_compute | by right | | | exact Hx].
  - apply (bool_decide_unpack _). by vm_compute.
  - apply (bool_decide_unpack _). by vm_compute.
Defined.

(** ** The frame clock *)

Lemma ms_sign (a : Qc) :
  (0 <= a -> 0 <= a / Qc_of_Z 1000) /\ (a < 0 -> a / Qc_of_Z 1000 < 0) /\
  (Qc_of_Z 16 <= a -> dec 16 1000 <= a / Qc_of_Z 1000).
Proof.
  split_and!; intros Ha; qc2q; change (inject_Z 1000) with (1000 # 1)%Q in *;
    change (inject_Z 16) with (16 # 1)%Q in *; change (/ (1000 # 1))%Q with (1 # 1000)%Q; lra.
Qed.

Section Clock.
Context `{Builtins}.

Lemma update_lastTime time (s : Fluid.Sim) :
  Fluid.lastTime (Fluid.update time s) = time.
Proof.
  unfold Fluid.update, Fluid.render. rewrite step_eq.
  cbn [Fluid.lastTime Fluid.draw Fluid.set_gl].
  unfold Fluid.applyInputs. destruct (Fluid.moved _ && Fluid.down _).
  - match goal with
    | |- context [Fluid.splat ?x ?y ?dx ?dy ?c ?s0] =>
        destruct (splat_frame x y dx dy c s0) as (_ & _ & _ & ->)
    end.
    by destruct s.
  - by destruct s.
Qed.

(** X19.  The time step of a frame is clamped from above only.
    [update] runs [step] with the time since the last frame in
    seconds, cut off at 0.016 and never larger; it is non-negative
    whenever the timestamp does not run backwards, but a timestamp
    before the last one yields a negative time step that is passed on
    as it is.  Every frame stores its timestamp. *)
Theorem frame_time_step_is_clamped_above_only (time : Qc) (s : Fluid.Sim) :
  let dt := Qcmin (frame_time time s) dt_ceiling in
  Fluid.update time s
  = Fluid.render (Fluid.step dt (Fluid.applyInputs (Fluid.set_lastTime s time))) /\
  dt <= dt_ceiling /\
  (Fluid.lastTime s <= time -> 0 <= dt) /\
  (time < Fluid.lastTime s ->
   dt < 0 /\ dt = (time - Fluid.lastTime s) / Qc_of_Z 1000) /\
  Fluid.lastTime (Fluid.update time s) = time.
Proof.
  cbv zeta. split_and!.
  - reflexivity.
  - apply Qcmin_le.
  - intros Hle. unfold frame_time, Fluid.or_zero, Qcmin, dt_ceiling.
    destruct (decide _) as [|Hne]; destruct (Qclt_le_dec _ _);
      try (by apply (bool_decide_unpack _)).
    apply ms_sign. clear -Hle. qc2q. lra.
  - intros Hlt.
    assert (Hneg : (time - Fluid.lastTime s) / Qc_of_Z 1000 < 0).
    { apply ms_sign. clear -Hlt. qc2q. lra. }
    unfold frame_time, Fluid.or_zero, Qcmin, dt_ceiling.
    destruct (decide _) as [Hz|_].
    + rewrite Hz in Hneg. by apply Qclt_not_eq in Hneg.
    + destruct (Qclt_le_dec _ _) as [Hc|_]; [|done].
      exfalso. apply (Qclt_not_le _ _ Hc). apply Qclt_le_weak.
      apply Qclt_trans with 0; [exact Hneg|]. by apply (bool_decide_unpack _).
  - apply update_lastTime.
Qed.

(** X20.  [resume] runs one frame of zero duration at once.  It clears
    [PAUSED], resets the frame clock to zero and calls [update(0)]:
    pending pointer input is applied, [step] runs with a time step of
    zero and the dye is displayed.  With the clock at zero, the next
    animation frame at a timestamp of 16 ms or more runs at the
    ceiling of the time step, however short the pause was. *)
Theorem resume_runs_a_zero_duration_frame (s : Fluid.Sim) (time : Qc) :
  let s0 := Fluid.set_lastTime (retag (Fluid.PRESSURE (Fluid.config s)) false s) 0 in
  Fluid.resume s = Fluid.render (Fluid.step 0 (Fluid.applyInputs s0)) /\
  Fluid.lastTime (Fluid.resume s) = 0 /\
  Fluid.PAUSED (Fluid.config (Fluid.resume s)) = false /\
  (Qc_of_Z 16 <= time ->
   Qcmin (frame_time time (Fluid.resume s)) dt_ceiling = dt_ceiling).
Proof.
  cbv zeta.
  assert (Hres : Fluid.resume s
                 = Fluid.update 0
                     (Fluid.set_lastTime
                        (retag (Fluid.PRESSURE (Fluid.config s)) false s) 0)).
  { destruct s as [cv ex [] g sr dr d v dv cu p po lt]. reflexivity. }
  assert (Hlast : Fluid.lastTime (Fluid.resume s) = 0).
  { rewrite Hres. apply update_lastTime. }
  split_and!.
  - rewrite Hres. unfold Fluid.update.
    replace (Qcmin _ _) with (0 : Qc); [reflexivity|].
    destruct s. by apply (bool_decide_unpack _).
  - exact Hlast.
  - rewrite Hres.
    destruct (update_resolutions 0
                (Fluid.set_lastTime (retag (Fluid.PRESSURE (Fluid.config s)) false s) 0))
      as (_ & _ & -> & _).
    by destruct s as [cv ex [] g sr dr d v dv cu p po lt].
  - intros Ht. unfold frame_time. rewrite Hlast.
    unfold Fluid.or_zero, Qcmin, dt_ceiling.
    destruct (decide _) as [Hz|_].
    + exfalso.
      assert (Hpos : dec 16 1000 <= (time - 0) / Qc_of_Z 1000).
      { apply ms_sign. clear -Ht. qc2q. lra. }
      rewrite Hz in Hpos. revert Hpos. by apply Qclt_not_le, (bool_decide_unpack _).
    + destruct (Qclt_le_dec _ _) as [|Hc]; [done|].
      apply Qcle_antisym; [exact Hc|].
      apply ms_sign. clear -Ht. qc2q. lra.
Qed.

End Clock.

Lemma frame_time_step_is_clamped_above_only_witness :
  Qcmin (frame_time 0 (Fluid.set_lastTime two_cells (Qc_of_Z 1000))) dt_ceiling < 0.
Proof.
  destruct (@frame_time_step_is_clamped_above_only approx_builtins 0
              (Fluid.set_lastTime two_cells (Qc_of_Z 1000)))
    as (_ & _ & _ & Hneg & _).
  apply Hneg. by apply (bool_decide_unpack _).
Defined.

Lemma resume_runs_a_zero_duration_frame_witness :
  Qcmin (frame_time (Qc_of_Z 16) (@Fluid.resume approx_builtins two_cells)) dt_ceiling
  = dt_ceiling.
Proof.
  destruct (@resume_runs_a_zero_duration_frame approx_builtins two_cells (Qc_of_Z 16))
    as (_ & _ & _ & Hc).
  apply Hc. by apply (bool_decide_unpack _).
Defined.

(** ** What every operation keeps *)

Lemma forallb_app_true {A} (f : A -> bool) (l l' : list A) :
  forallb f l = true -> forallb f l' = true -> forallb f (l ++ l') = true.
Proof. intros Hl Hl'. rewrite forallb_app. by rewrite Hl, Hl'. Qed.

Lemma kept_trans (s s' s'' : Fluid.Sim) : kept s s' -> kept s' s'' -> kept s s''.
Proof.
  intros (_ & Hs1 & Hd1 & He1 & i1 & Hi1 & Hf1) (Hwf & Hs2 & Hd2 & He2 & i2 & Hi2 & Hf2).
  split_and!; [done|congruence|congruence|congruence|].
  exists (i1 ++ i2). split; [by rewrite Hi2, Hi1, <- app_assoc|].
  by apply forallb_app_true.
Qed.

(** An operation that issues no draw and leaves the grids alone. *)
Lemma kept_quiet (s s' : Fluid.Sim) :
  wf_facts s' -> Fluid.simRes s' = Fluid.simRes s -> Fluid.dyeRes s' = Fluid.dyeRes s ->
  Fluid.ext s' = Fluid.ext s -> draws (Fluid.gl s') = draws (Fluid.gl s) ->
  kept s s'.
Proof.
  intros Hwf Hs Hd He Hdr. split_and!; [by apply wf_iff|done|done|done|].
  exists []. by rewrite app_nil_r.
Qed.

Lemma neq_negb_eqb (r t : nat) : r <> t -> negb (r =? t)%nat = true.
Proof. intros Hne. by apply negb_true_iff, Nat.eqb_neq. Qed.

Section Kept.
Context `{Builtins}.

Lemma pressure_draws_feedback_free n (p : Fluid.DoubleFBO) div ts :
  Fluid.read p <> Fluid.write p -> div <> Fluid.read p -> div <> Fluid.write p ->
  forallb feedback_free (pressure_draws n p div ts) = true.
Proof.
  revert p. induction n as [|n IH]; intros [pr pw] Hrw Hdr Hdw; [done|].
  cbn [pressure_draws forallb]. apply andb_true_iff. split.
  - cbn in *. rewrite !neq_negb_eqb by done. done.
  - apply IH; cbn in *; congruence.
Qed.

Lemma step_draws_feedback_free dt (s : Fluid.Sim) :
  wf_facts s -> forallb feedback_free (step_draws dt s) = true.
Proof.
  intros Hwf. pose proof (wf_distinct s Hwf) as Hd. cbv zeta in Hd.
  unfold step_draws.
  apply forallb_app_true; [|apply forallb_app_true].
  - cbn [forallb feedback_free target_of samplers_of].
    rewrite !neq_negb_eqb; [done|..]; intuition congruence.
  - apply pressure_draws_feedback_free; intuition congruence.
  - cbn [forallb feedback_free target_of samplers_of]. rewrite Fluid_swap_iter.
    destruct (Nat.even _), (Fluid.pressure s) as [pr pw]; cbn in *;
      rewrite !neq_negb_eqb; (done || intuition congruence).
Qed.

Lemma splat_draws_feedback_free x y dx dy color (s : Fluid.Sim) :
  wf_facts s -> forallb feedback_free (splat_draws x y dx dy color s) = true.
Proof.
  intros Hwf. pose proof (wf_distinct s Hwf) as Hd. cbv zeta in Hd.
  unfold splat_draws. cbn [forallb feedback_free target_of samplers_of].
  rewrite !neq_negb_eqb; [done|..]; intuition congruence.
Qed.

Lemma kept_splat x y dx dy color (s : Fluid.Sim) :
  wf_facts s -> kept s (Fluid.splat x y dx dy color s).
Proof.
  intros Hwf.
  destruct (splat_resolutions x y dx dy color s) as (Hs & Hd & _ & He).
  split_and!; [by apply wf_iff, splat_wf|done|done|done|].
  exists (splat_draws x y dx dy color s). split.
  - rewrite splat_eq. cbn -[run_draws splat_draws].
    rewrite draws_run_draws. by destruct s.
  - by apply splat_draws_feedback_free.
Qed.

Lemma kept_applyInputs (s : Fluid.Sim) : wf_facts s -> kept s (Fluid.applyInputs s).
Proof.
  intros Hwf. unfold Fluid.applyInputs.
  destruct (Fluid.moved _ && Fluid.down _).
  - eapply kept_trans; [|apply kept_splat; by apply set_pointer_wf].
    apply kept_quiet; [by apply set_pointer_wf|by destruct s..].
  - apply kept_quiet; [done|done..].
Qed.

Lemma kept_step dt (s : Fluid.Sim) : wf_facts s -> kept s (Fluid.step dt s).
Proof.
  intros Hwf. split_and!.
  - by apply wf_iff, step_wf.
  - rewrite step_eq. reflexivity.
  - rewrite step_eq. reflexivity.
  - rewrite step_eq. reflexivity.
  - exists (step_draws dt s). split; [|by apply step_draws_feedback_free].
    rewrite step_eq. cbn -[run_draws step_draws]. by rewrite draws_run_draws.
Qed.

Lemma kept_render (s : Fluid.Sim) : wf_facts s -> kept s (Fluid.render s).
Proof.
  intros Hwf. split_and!; [by apply wf_iff, render_wf|by destruct s..|].
  exists [DrawDisplay (Fluid.read (Fluid.density s))]. split; [by destruct s|done].
Qed.

Lemma kept_update time (s : Fluid.Sim) : wf_facts s -> kept s (Fluid.update time s).
Proof.
  intros Hwf. unfold Fluid.update.
  assert (Hwf0 : wf_facts (Fluid.set_lastTime s time)) by (by apply set_lastTime_wf).
  eapply kept_trans; [apply kept_quiet; [exact Hwf0|by destruct s..]|].
  eapply kept_trans; [by apply kept_applyInputs|].
  eapply kept_trans; [apply kept_step; by apply applyInputs_wf|].
  apply kept_render. by apply step_wf, applyInputs_wf.
Qed.

Lemma kept_multipleSplats rnd (s : Fluid.Sim) :
  wf_facts s -> kept s (Fluid.multipleSplats rnd s).
Proof.
  revert s. induction rnd as [|rs rnd IH]; intros s Hwf.
  - by apply kept_quiet.
  - change (Fluid.multipleSplats (rs :: rnd) s)
      with (Fluid.multipleSplats rnd
              (Fluid.splat (Fluid.rs_x rs) (Fluid.rs_y rs) (Fluid.rs_dx rs)
                 (Fluid.rs_dy rs) (Fluid.rs_color rs) s)).
    eapply kept_trans; [by apply kept_splat|]. apply IH. by apply splat_wf.
Qed.

(** X2.  Every operation of the running simulation keeps the buffers
    sound.  After [splat], [applyInputs], [step], [render], [update],
    [setConfig], [pause], [resume] and [multipleSplats] from a
    well-formed state, the state is well-formed again, the two grid
    resolutions and the filter are the ones it started with, and every
    draw call the operation issued renders into an object that none of
    its samplers reads. *)
Theorem operations_preserve_wf (s : Fluid.Sim) :
  wf s = true ->
  (forall x y dx dy color, kept s (Fluid.splat x y dx dy color s)) /\
  kept s (Fluid.applyInputs s) /\
  (forall dt, kept s (Fluid.step dt s)) /\
  kept s (Fluid.render s) /\
  (forall time, kept s (Fluid.update time s)) /\
  (forall n, kept s (Fluid.setConfig n s)) /\
  kept s (Fluid.pause s) /\
  kept s (Fluid.resume s) /\
  (forall rnd, kept s (Fluid.multipleSplats rnd s)).
Proof.
  intros Hwf%wf_iff. split_and!; intros.
  - by apply kept_splat.
  - by apply kept_applyInputs.
  - by apply kept_step.
  - by apply kept_render.
  - by apply kept_update.
  - apply kept_quiet; [by apply set_config_wf|by destruct s..].
  - apply kept_quiet; [by apply set_config_wf|by destruct s..].
  - unfold Fluid.resume.
    eapply kept_trans; [|apply kept_update; by apply set_lastTime_wf, set_config_wf].
    apply kept_quiet; [by apply set_lastTime_wf, set_config_wf|by destruct s..].
  - by apply kept_multipleSplats.
Qed.

End Kept.

Lemma operations_preserve_wf_witness :
  kept two_cells (@Fluid.update approx_builtins (Qc_of_Z 16) two_cells).
Proof.
  destruct (@operations_preserve_wf approx_builtins two_cells) as (_ & _ & _ & _ & Hu & _);
    [by vm_compute|].
  apply Hu.
Defined.
